(** * gameserver-mgr: a shallow embedding of the coordination kernel

    The development follows the layout of the repository:
    - [Js]        the fragment of JavaScript values the managers exchange
                  (JSON payloads, truthiness, template strings);
    - [ParseBool] app/lib/parseBool.mjs;
    - [Regex]     a backtracking matcher for the regular expressions of
                  app/lib/steamcmd.mjs;
    - [SteamCmd]  app/lib/steamcmd.mjs (line parser, exit-code policy);
    - [Lock]      app/lib/lockfile.mjs and app/lib/lock.mjs;
    - [Ipc]       app/lib/ipc.mjs (sendRequestReply);
    - [DownloadManager] app/bin/downloadManager.mjs;
    - [Lifecycle] app/bin/lifecycleManager.mjs;
    - [Cli]       app/bin/cli.mjs (the requests it builds);
    - [RepoManager] app/bin/repoManager.mjs;
    - [Log]       app/lib/log.mjs (the prefix of a log line);
    - [Views]     what an observer reads off the streams and the bus;
    - [Scenarios] concrete hosts, requests and runs.

    What lies outside of a manager (the clock, the file system, the child
    process, the other managers) is an argument of the function that
    models the code: the outcome of each call is given, and the properties
    quantify over it.

    Strings are sequences of code units; the embedding covers the code units
    below 256 (one [ascii] per unit). *)

From Stdlib Require Import ZArith Ascii String List Bool Lia.
From stdpp Require Import base option list strings gmap pretty.

Set Warnings "-register-all".
Local Open Scope string_scope.

(** ** Results of possibly throwing code *)

Inductive res (E A : Type) : Type :=
| Ret (a : A)
| Throw (e : E).
Arguments Ret {E A} a.
Arguments Throw {E A} e.

Definition res_bind {E A B} (m : res E A) (k : A -> res E B) : res E B :=
  match m with
  | Ret a => k a
  | Throw e => Throw e
  end.

(** ** JavaScript values *)

Module Js.

(** The values that travel through [JSON.parse] / [JSON.stringify], plus
    [undefined] and [Error] objects, which the handlers put into payloads. *)
Inductive jsval : Type :=
| JUndefined
| JNull
| JBool (b : bool)
| JNum (z : Z)
| JStr (s : string)
| JErr (message : string)
| JArr (items : list jsval)
| JObj (fields : list (string * jsval)).

Definition jsobj : Type := list (string * jsval).

(** [ToBoolean]. Arrays, objects and errors are always truthy. *)
Definition truthy (v : jsval) : bool :=
  match v with
  | JUndefined | JNull => false
  | JBool b => b
  | JNum z => negb (Z.eqb z 0)
  | JStr s => negb (String.eqb s "")
  | JErr _ | JArr _ | JObj _ => true
  end.

(** [v === 'text'] *)
Definition strict_eq_text (v : jsval) (text : string) : bool :=
  match v with
  | JStr s => String.eqb s text
  | _ => false
  end.

(** [v == null] *)
Definition nullish (v : jsval) : bool :=
  match v with
  | JUndefined | JNull => true
  | _ => false
  end.

(** [a || b] *)
Definition js_or (a b : jsval) : jsval := if truthy a then a else b.

(** Own-property lookup and assignment on an object literal. *)
Fixpoint lookup_field (k : string) (o : jsobj) : option jsval :=
  match o with
  | [] => None
  | (k', v) :: o' => if String.eqb k k' then Some v else lookup_field k o'
  end.

(** [o.k = v]: an existing key keeps its position, a new key is appended. *)
Fixpoint set_field (k : string) (v : jsval) (o : jsobj) : jsobj :=
  match o with
  | [] => [(k, v)]
  | (k', v') :: o' =>
      if String.eqb k k' then (k, v) :: o' else (k', v') :: set_field k v o'
  end.

Definition typeError (what : string) : jsval := JErr ("TypeError: " ++ what).

(** [v.k]: reading a property of [undefined] or [null] throws; reading one
    of any other value yields the property or [undefined].  [message] is
    the one property of an [Error] the managers read. *)
Definition get (v : jsval) (k : string) : res jsval jsval :=
  match v with
  | JUndefined | JNull =>
      Throw (typeError ("Cannot read properties of undefined (reading '" ++ k ++ "')"))
  | JObj o => Ret (default JUndefined (lookup_field k o))
  | JErr m => Ret (if String.eqb k "message" then JStr m else JUndefined)
  | _ => Ret JUndefined
  end.

(** [v.k] for a receiver already known to be neither [undefined] nor
    [null]. *)
Definition prop (v : jsval) (k : string) : jsval :=
  match get v k with
  | Ret x => x
  | Throw _ => JUndefined
  end.

(** [o.hasOwnProperty(k) ? o.k : d] *)
Definition own_or (o : jsobj) (k : string) (d : jsval) : jsval :=
  default d (lookup_field k o).

Definition join_with (sep : string) (l : list string) : string :=
  match l with
  | [] => ""
  | x :: l' => fold_left (fun acc y => acc ++ sep ++ y) l' x
  end.

(** String conversion as performed by a template literal. *)
Fixpoint to_string (v : jsval) : string :=
  match v with
  | JUndefined => "undefined"
  | JNull => "null"
  | JBool true => "true"
  | JBool false => "false"
  | JNum z => pretty z
  | JStr s => s
  | JErr m => "Error: " ++ m
  | JArr l =>
      join_with ","
        (map (fun x => match x with
                       | JUndefined | JNull => ""
                       | _ => to_string x
                       end) l)
  | JObj _ => "[object Object]"
  end.

(** [v == 'text'] for a text that is not numeric. *)
Definition loose_eq_text (v : jsval) (text : string) : bool :=
  match v with
  | JStr s => String.eqb s text
  | JArr _ | JObj _ | JErr _ => String.eqb (to_string v) text
  | _ => false
  end.

(** *** JSON.stringify *)

Definition dquote : string := String (ascii_of_nat 34) EmptyString.

Definition hex_digit (n : nat) : ascii :=
  ascii_of_nat (if Nat.ltb n 10 then 48 + n else 87 + n)%nat.

Definition escape_char (c : ascii) : string :=
  let n := nat_of_ascii c in
  if Nat.eqb n 34 then "\" ++ dquote
  else if Nat.eqb n 92 then "\\"
  else if Nat.eqb n 8 then "\b"
  else if Nat.eqb n 9 then "\t"
  else if Nat.eqb n 10 then "\n"
  else if Nat.eqb n 12 then "\f"
  else if Nat.eqb n 13 then "\r"
  else if Nat.ltb n 32 then
    "\u00" ++ String (hex_digit (n / 16)) (String (hex_digit (n mod 16)) EmptyString)
  else String c EmptyString.

Fixpoint escape (s : string) : string :=
  match s with
  | EmptyString => ""
  | String c s' => escape_char c ++ escape s'
  end.

Definition quote (s : string) : string := dquote ++ escape s ++ dquote.

(** [None] is the [undefined] result: such a field is left out of an
    object and written [null] in an array.  An [Error] has no enumerable
    own property and serializes as the empty object. *)
Fixpoint stringify (v : jsval) : option string :=
  match v with
  | JUndefined => None
  | JNull => Some "null"
  | JBool true => Some "true"
  | JBool false => Some "false"
  | JNum z => Some (pretty z)
  | JStr s => Some (quote s)
  | JErr _ => Some "{}"
  | JArr l =>
      Some ("[" ++ join_with "," (map (fun x => default "null" (stringify x)) l) ++ "]")
  | JObj o =>
      Some ("{" ++
            join_with ","
              (omap (fun '(k, x) =>
                       match stringify x with
                       | Some t => Some (quote k ++ ":" ++ t)
                       | None => None
                       end) o) ++ "}")
  end.

(** What [JSON.parse (JSON.stringify v)] gives back: the value as a
    subscriber sees it. *)
Fixpoint wire (v : jsval) : jsval :=
  match v with
  | JErr _ => JObj []
  | JArr l =>
      JArr (map (fun x => match x with JUndefined => JNull | _ => wire x end) l)
  | JObj o =>
      JObj (omap (fun '(k, x) =>
                    match x with
                    | JUndefined => None
                    | _ => Some (k, wire x)
                    end) o)
  | _ => v
  end.

(** Substring test, [haystack.includes(needle)]. *)
Fixpoint includes (needle hay : string) : bool :=
  if String.prefix needle hay then true
  else match hay with
       | EmptyString => false
       | String _ hay' => includes needle hay'
       end.

End Js.
Import Js.

Abbreviation jres := (res jsval).

(** ** app/lib/parseBool.mjs *)

Module ParseBool.

Definition lower_unit (c : ascii) : ascii :=
  let n := nat_of_ascii c in
  if (Nat.leb 65 n && Nat.leb n 90)%bool then ascii_of_nat (n + 32)
  else if (Nat.leb 192 n && Nat.leb n 222 && negb (Nat.eqb n 215))%bool
       then ascii_of_nat (n + 32)
  else c.

(** [String.prototype.toLowerCase] *)
Fixpoint toLowerCase (s : string) : string :=
  match s with
  | EmptyString => EmptyString
  | String c s' => String (lower_unit c) (toLowerCase s')
  end.

(** White space and line terminators removed by [trim]. *)
Definition is_space (c : ascii) : bool :=
  let n := nat_of_ascii c in
  ((Nat.leb 9 n && Nat.leb n 13) || Nat.eqb n 32 || Nat.eqb n 160)%bool.

Fixpoint trimStart (s : string) : string :=
  match s with
  | EmptyString => EmptyString
  | String c s' => if is_space c then trimStart s' else s
  end.

Fixpoint trimEnd (s : string) : string :=
  match s with
  | EmptyString => EmptyString
  | String c s' =>
      match trimEnd s' with
      | EmptyString => if is_space c then EmptyString else String c EmptyString
      | t => String c t
      end
  end.

Definition trim (s : string) : string := trimEnd (trimStart s).

(** The texts of the [case] labels that give [false]. *)
Definition false_words : list string := ["false"; "no"; "0"; ""].

(** The [switch] compares with strict equality, so the [case null:] label
    never matches the string under test. *)
Definition parseBool (v : jsval) : jres bool :=
  if truthy v then
    match v with
    | JStr s =>
        let t := trim (toLowerCase s) in
        if String.eqb t "true" || String.eqb t "yes" || String.eqb t "1" then Ret true
        else if String.eqb t "false" || String.eqb t "no" || String.eqb t "0"
                || String.eqb t "" then Ret false
        else Ret (truthy v)
    | _ => Throw (typeError "string.toLowerCase is not a function")
    end
  else Ret false.

End ParseBool.
Import ParseBool.

(** ** Regular expressions of app/lib/steamcmd.mjs *)

Module Regex.

Inductive regex : Type :=
| Eps
| Chr (c : ascii)
| Cls (p : ascii -> bool)
| Seq (r1 r2 : regex)
| Opt (r : regex)            (* r?  greedy *)
| Star (r : regex)           (* r*  greedy *)
| Grp (n : nat) (r : regex). (* the n-th capturing group *)

Definition Plus (r : regex) : regex := Seq r (Star r).

Fixpoint Lit (s : string) : regex :=
  match s with
  | EmptyString => Eps
  | String c s' => Seq (Chr c) (Lit s')
  end.

Definition seqs (l : list regex) : regex := fold_right Seq Eps l.

(** [r{0,n}] *)
Fixpoint UpTo (n : nat) (r : regex) : regex :=
  match n with
  | O => Eps
  | S n' => Opt (Seq r (UpTo n' r))
  end.

Definition in_range (lo hi : nat) (c : ascii) : bool :=
  let n := nat_of_ascii c in (Nat.leb lo n && Nat.leb n hi)%bool.

Definition digit : ascii -> bool := in_range 48 57.                       (* \d, [0-9] *)
Definition alpha (c : ascii) : bool := in_range 65 90 c || in_range 97 122 c. (* [A-Za-z] *)
Definition word (c : ascii) : bool :=                                     (* \w *)
  alpha c || digit c || Ascii.eqb c "_".
Definition word_or_space (c : ascii) : bool := word c || Ascii.eqb c " ". (* [\w ] *)
Definition lower_hex (c : ascii) : bool := digit c || in_range 97 102 c.  (* [0-9a-f] *)
Definition space : ascii -> bool := is_space.                             (* \s *)
Definition dot (c : ascii) : bool :=                                      (* . *)
  negb (Nat.eqb (nat_of_ascii c) 10 || Nat.eqb (nat_of_ascii c) 13).

Definition caps : Type := list (nat * string).

(** Backtracking matcher in continuation-passing style: [k] receives the
    rest of the subject and the groups captured so far.  A repetition tries
    one more iteration before it tries to stop, and an iteration that
    consumes nothing is refused, as in ECMAScript. *)
Fixpoint bt (r : regex) (s : string) (c : caps)
    (k : string -> caps -> option caps) {struct r} : option caps :=
  match r with
  | Eps => k s c
  | Chr a =>
      match s with
      | String b s' => if Ascii.eqb a b then k s' c else None
      | EmptyString => None
      end
  | Cls p =>
      match s with
      | String b s' => if p b then k s' c else None
      | EmptyString => None
      end
  | Seq r1 r2 => bt r1 s c (fun s' c' => bt r2 s' c' k)
  | Opt r1 =>
      match bt r1 s c k with
      | Some x => Some x
      | None => k s c
      end
  | Star r1 =>
      (fix loop (fuel : nat) (s : string) (c : caps) {struct fuel} : option caps :=
         match fuel with
         | O => k s c
         | S fuel' =>
             match bt r1 s c
                     (fun s' c' =>
                        if Nat.ltb (String.length s') (String.length s)
                        then loop fuel' s' c' else None) with
             | Some x => Some x
             | None => k s c
             end
         end) (String.length s) s c
  | Grp n r1 =>
      bt r1 s c
        (fun s' c' =>
           k s' ((n, substring 0 (String.length s - String.length s') s) :: c'))
  end.

(** [line.match(/^r$/)] *)
Definition exec (r : regex) (s : string) : option caps :=
  bt r s [] (fun rest c => if String.eqb rest "" then Some c else None).

(** [/^r$/.test(line)] *)
Definition test (r : regex) (s : string) : bool :=
  match exec r s with
  | Some _ => true
  | None => false
  end.

Fixpoint group (n : nat) (c : caps) : string :=
  match c with
  | [] => ""
  | (m, s) :: c' => if Nat.eqb n m then s else group n c'
  end.

End Regex.
Import Regex.

(** ** app/lib/steamcmd.mjs *)

Module SteamCmd.

(** [steamCmdDownloadStateRegex], anchored at both ends: an opening
    bracket, [\s{0,2}], group 1 [[0-9]+], "%] ", group 2 [[A-Za-z]+], any
    characters, an opening parenthesis, group 3 [[0-9]+], " of ", group 4
    [[0-9]+], any characters. *)
Definition steamCmdDownloadStateRegex : regex :=
  seqs [Chr "["; UpTo 2 (Cls space); Grp 1 (Plus (Cls digit)); Lit "%] ";
        Grp 2 (Plus (Cls alpha)); Star (Cls dot); Chr "(";
        Grp 3 (Plus (Cls digit)); Lit " of "; Grp 4 (Plus (Cls digit));
        Star (Cls dot)].

(** [appidDownloadStateRegex], anchored at both ends: the text
    " Update state ", a parenthesised group 1 [[\d]x[\d]+], a space,
    group 2 (any number of [[\w ]]), ", progress: ", group 3
    [[\d]+\.[\d]+], " (", group 4 [[\d]+], " / ", group 5 [[\d]+] and a
    closing parenthesis. *)
Definition appidDownloadStateRegex : regex :=
  seqs [Lit " Update state "; Chr "(";
        Grp 1 (seqs [Cls digit; Chr "x"; Plus (Cls digit)]); Lit ") ";
        Grp 2 (Star (Cls word_or_space)); Lit ", progress: ";
        Grp 3 (seqs [Plus (Cls digit); Chr "."; Plus (Cls digit)]); Lit " (";
        Grp 4 (Plus (Cls digit)); Lit " / "; Grp 5 (Plus (Cls digit)); Chr ")"].

(** What is pushed on the three streams handed to the driver.  The chunk
    pushed is the JSON text of the value carried here. *)
Inductive sink_event : Type :=
| OutputPush (v : jsval)
| ProgressPush (v : jsval)
| CommandPush (v : jsval).

Inductive settle : Type :=
| Resolved (v : jsval)
| Rejected (e : jsval).

(** One life of the child process on its pseudo-terminal: the chunks it
    prints, whether a cancel command arrives while it runs, and how it
    ends. *)
Inductive child_exit : Type :=
| Exits (exitCode : Z) (signal : jsval)
| ExitSignal.                      (* SIGTERM/SIGINT reaches the manager *)

Inductive child_run : Type :=
| SpawnThrows (e : jsval)
| Runs (chunks : list string) (cancel : bool) (ending : child_exit).

(** The life ends with exit code 42 while no cancel is in progress. *)
Definition relaunches (r : child_run) : bool :=
  match r with
  | Runs _ false (Exits exitCode _) => Z.eqb exitCode 42
  | _ => false
  end.

(** The child was spawned at all. *)
Definition spawns (r : child_run) : bool :=
  match r with
  | Runs _ _ _ => true
  | SpawnThrows _ => false
  end.

Record run_options : Type := {
  ro_script : option (list string);
  ro_steamCmdDir : option string
}.

Record run_state : Type := {
  tick : nat;                              (* clock readings taken *)
  sunk : list sink_event;                  (* pushes, oldest first *)
  spawned : list (string * list string)    (* binary and argv of every spawn *)
}.

Definition crlf : string := String (ascii_of_nat 13) (String (ascii_of_nat 10) EmptyString).

(** [s.split(sep)] for a non-empty separator. *)
Fixpoint split_from (sep s : string) (skip : nat) (cur : string) : list string :=
  match s with
  | EmptyString => [cur]
  | String c s' =>
      match skip with
      | S k => split_from sep s' k cur
      | O =>
          if String.prefix sep s
          then cur :: split_from sep s' (String.length sep - 1) ""
          else split_from sep s' 0 (cur ++ String c "")
      end
  end.

Definition split (sep s : string) : list string := split_from sep s 0 "".

Section Driver.

(** [isoTimestamp()] at the n-th reading of the clock. *)
Variable isoTimestamp : nat -> string.
(** [path.normalize(path.resolve(p))] *)
Variable resolvePath : string -> string.
(** [parseBool(process.env.DEBUG) || false] *)
Variable debug : bool.

Definition push (e : sink_event) (st : run_state) : run_state :=
  {| tick := tick st; sunk := sunk st ++ [e]; spawned := spawned st |}.

(** [outputSink.push(JSON.stringify({ timestamp: isoTimestamp(), line }))] *)
Definition pushOutput (line : string) (st : run_state) : run_state :=
  {| tick := S (tick st);
     sunk := sunk st ++
             [OutputPush (JObj [("timestamp", JStr (isoTimestamp (tick st)));
                                ("line", JStr line)])];
     spawned := spawned st |}.

Definition steamCmdDownloadSnapshot (line : string) : option jsval :=
  match exec steamCmdDownloadStateRegex line with
  | Some m =>
      Some (JObj [("downloadStage", JStr "steamcmd_download");
                  ("downloadStateHex", JStr "0x00");
                  ("downloadState", JStr (toLowerCase (group 2 m)));
                  ("downloadProgress", JStr (trim (group 1 m)));
                  ("downloadProgressReceived", JStr (group 3 m));
                  ("downloadProgressTotal", JStr (group 4 m));
                  ("progressLine", JStr line)])
  | None => None
  end.

Definition appidDownloadSnapshot (line : string) : option jsval :=
  match exec appidDownloadStateRegex line with
  | Some m =>
      Some (JObj [("downloadStage", JStr "appid_download");
                  ("downloadStateHex", JStr (group 1 m));
                  ("downloadState", JStr (group 2 m));
                  ("downloadProgress", JStr (group 3 m));
                  ("downloadProgressReceived", JStr (group 4 m));
                  ("downloadProgressTotal", JStr (group 5 m));
                  ("progressLine", JStr line)])
  | None => None
  end.

Definition pushProgress (snapshot : option jsval) (st : run_state) : run_state :=
  match snapshot with
  | Some v => push (ProgressPush v) st
  | None => st
  end.

(** The body of the [for] loop of the [onData] listener. *)
Definition onLine (line : string) (st : run_state) : run_state :=
  if String.eqb line "" then st
  else pushProgress (appidDownloadSnapshot line)
         (pushProgress (steamCmdDownloadSnapshot line)
            (pushOutput line st)).

Definition onData (rawData : string) (st : run_state) : run_state :=
  fold_left (fun st line => onLine line st) (split crlf rawData) st.

Definition exitObject (exitCode : Z) (signal : jsval) : jsobj :=
  [("exitCode", JNum exitCode); ("signal", signal)].

Definition relaunchLine (exitCode : Z) (signal : jsval) : string :=
  "Steamcmd exited with code " ++ to_string (JNum exitCode) ++
  " due to signal " ++ to_string signal ++ ", re-launching...".

(** [runSteamCmd].  [world n] is the n-th life of the child; [None] means
    that the promise is still pending after [fuel] spawns. *)
Fixpoint runSteamCmd (fuel : nat) (options : run_options)
    (world : nat -> child_run) (n : nat) (st : run_state)
    : option (settle * run_state) :=
  match fuel with
  | O => None
  | S fuel' =>
      let steamCmdDir := default "" (ro_steamCmdDir options) in
      if String.eqb steamCmdDir "" then
        Some (Rejected (JErr "steamCmdDir required"), st)
      else
        let script := default ["+quit"] (ro_script options) in
        let steamcmdCommandLineNormalized := split " " (join_with " " script) in
        match world n with
        | SpawnThrows e => Some (Rejected e, st)
        | Runs chunks cancel ending =>
            let st :=
              {| tick := tick st; sunk := sunk st;
                 spawned := spawned st ++
                   [(resolvePath (steamCmdDir ++ "/linux32/steamcmd"),
                     steamcmdCommandLineNormalized)] |} in
            let st := fold_left (fun st chunk => onData chunk st) chunks st in
            match ending with
            | ExitSignal => Some (Rejected (JErr "SHUTDOWN"), st)
            | Exits exitCode signal =>
                let code := exitObject exitCode signal in
                if cancel then
                  let st := pushOutput "Download canceled on request" st in
                  let st :=
                    {| tick := S (tick st);
                       sunk := sunk st ++
                         [CommandPush (JObj [("timestamp", JStr (isoTimestamp (tick st)));
                                             ("status", JStr "ackCanceled")])];
                       spawned := spawned st |} in
                  Some (Resolved
                          (JObj (set_field "error" (JBool false)
                                   (set_field "status" (JStr "canceled")
                                      (set_field "reason" (JStr "canceled") code)))),
                        st)
                else if Z.eqb exitCode 42 then
                  let st := pushOutput (relaunchLine exitCode signal) st in
                  match runSteamCmd fuel' options world (S n) st with
                  | None => None
                  | Some (Rejected error, st') => Some (Rejected error, st')
                  | Some (Resolved retryExitCode, st') => Some (Resolved retryExitCode, st')
                  end
                else if Z.eqb exitCode 0 then
                  Some (Resolved
                          (JObj (set_field "error" (JBool false)
                                   (set_field "status" (JStr "completed")
                                      (set_field "reason" (JStr "completed") code)))),
                        st)
                else
                  Some (Rejected (JObj (set_field "error" (JBool true) code)), st)
            end
        end
  end.

(** The entry one spawn adds to the log: the binary and its argv. *)
Definition spawn_entry (options : run_options) : string * list string :=
  (resolvePath (default "" (ro_steamCmdDir options) ++ "/linux32/steamcmd"),
   split " " (join_with " " (default ["+quit"] (ro_script options)))).

(** Outcome of the file-system calls of [steamCmdDownloadAppid]: an
    exception thrown by [rmSync], by [accessSync] or by [mkdirSync]. *)
Record fs_outcome : Type := {
  fs_rm : option jsval;
  fs_access : option jsval;
  fs_mkdir : option jsval
}.

Definition as_path (v : jsval) : jres string :=
  match v with
  | JStr p => Ret (resolvePath p)
  | _ => Throw (typeError "The path argument must be of type string")
  end.

(** The script of directives built by [steamCmdDownloadAppid]. *)
Definition appidScript (downloadDir : string) (anonymous username password validate appid : jsval)
    : list string :=
  ["+force_install_dir " ++ downloadDir;
   if truthy anonymous then "+login anonymous"
   else "+login " ++ to_string username ++ " " ++ to_string password;
   if truthy validate then "+app_update " ++ to_string appid ++ " validate"
   else "+app_update " ++ to_string appid;
   "+quit"].

(** [steamCmdDownloadAppid].  An exception inside the promise executor
    rejects the promise. *)
Definition steamCmdDownloadAppid (fuel : nat) (options : jsobj) (fs : fs_outcome)
    (world : nat -> child_run) (st : run_state) : option (settle * run_state) :=
  let appid := own_or options "appid" (JNum 0) in
  match (match lookup_field "serverFilesForce" options with
         | Some v => parseBool v
         | None => Ret false
         end) with
  | Throw e => Some (Rejected e, st)
  | Ret serverFilesForce =>
  let validate := own_or options "validate" (JBool false) in
  let anonymous := own_or options "anonymous" (JBool true) in
  let username := own_or options "username" JNull in
  let password := own_or options "password" JNull in
  match (match lookup_field "steamCmdDir" options with
         | Some v => as_path v
         | None => Ret ""
         end) with
  | Throw e => Some (Rejected e, st)
  | Ret steamCmdDir =>
  match (match lookup_field "downloadDir" options with
         | Some v => as_path v
         | None => Ret ""
         end) with
  | Throw e => Some (Rejected e, st)
  | Ret downloadDir =>
  if String.eqb steamCmdDir "" || String.eqb downloadDir "" then
    Some (Rejected (JErr "steamCmdDir and downloadDir required"), st)
  else if negb (truthy appid) then
    Some (Rejected (JErr "appid required"), st)
  else
    let st :=
      if serverFilesForce && debug
      then pushOutput "steamCmdDownloadAppid options.serverFilesForce is true, removing old server installation" st
      else st in
    match (if serverFilesForce then fs_rm fs else None) with
    | Some e => Some (Rejected e, st)
    | None =>
    match fs_access fs with
    | Some error =>
        if truthy error && loose_eq_text (prop error "code") "ENOENT"
        then match fs_mkdir fs with
             | Some e => Some (Rejected e, st)
             | None =>
                 runSteamCmd fuel
                   {| ro_script := Some (appidScript downloadDir anonymous username password validate appid);
                      ro_steamCmdDir := Some steamCmdDir |} world 0 st
             end
        else Some (Rejected error, st)
    | None =>
        runSteamCmd fuel
          {| ro_script := Some (appidScript downloadDir anonymous username password validate appid);
             ro_steamCmdDir := Some steamCmdDir |} world 0 st
    end
    end
  end end end.

End Driver.

(** [steamCmdDownloadSelf]: the directory must be given; what follows is
    file-system and network work, whose outcome is [io]. *)
Definition steamCmdDownloadSelf (options : jsobj) (io : settle) : settle :=
  if strict_eq_text (own_or options "steamCmdDir" (JStr "")) ""
  then Rejected (JErr "steamCmdDir required")
  else io.

(** The game-download form as the specification writes it: it differs
    from [appidDownloadStateRegex] in group 1, which the specification
    writes [0x[0-9a-f]+]. *)
Definition spec_gameDownloadRegex : regex :=
  seqs [Lit " Update state "; Chr "(";
        Grp 1 (seqs [Lit "0x"; Plus (Cls lower_hex)]); Lit ") ";
        Grp 2 (Star (Cls word_or_space)); Lit ", progress: ";
        Grp 3 (seqs [Plus (Cls digit); Chr "."; Plus (Cls digit)]); Lit " (";
        Grp 4 (Plus (Cls digit)); Lit " / "; Grp 5 (Plus (Cls digit)); Chr ")"].

End SteamCmd.
Import SteamCmd.

(** ** app/lib/lockfile.mjs and app/lib/lock.mjs *)

Module Lock.

(** The lock directory is the listing [readdirSync] returns, in its
    order.  The directory is taken to exist and to be readable. *)
Definition lock_dir : Type := list string.

(** The error of an exclusive create on an existing file. *)
Definition EEXIST : jsval :=
  JObj [("code", JStr "EEXIST"); ("message", JStr "EEXIST: file already exists")].

(** [acquireLock] / [lockFile]: [lock.lock] without options creates the
    file exclusively. *)
Definition acquireLock (lockId : string) (d : lock_dir) : jres lock_dir :=
  if existsb (String.eqb lockId) d then Throw EEXIST else Ret (d ++ [lockId])%list.

(** [releaseLock] / [unlockFile]: [lock.unlock] removes the file and does
    not complain when it is absent. *)
Definition releaseLock (lockId : string) (d : lock_dir) : lock_dir :=
  List.filter (fun n => negb (String.eqb n lockId)) d.

Section Service.

(** [new RegExp(pattern).test(subject)] *)
Variable regexp_test : string -> string -> bool.
(** [lock.checkSync(lockPath, { stale })] of the lockfile package, by
    the name of the lock file. *)
Variable checkSync : string -> jsval -> bool.

(** [stale ? (lockCheckOpts.stale = stale) : (lockCheckOpts.stale = false)] *)
Definition lockCheckOpts_stale (stale : jsval) : jsval :=
  if truthy stale then stale else JBool false.

(** The loop runs [i] from 0 to [locks.length] inclusive; in the last
    round [locks[i]] is [undefined], which the regex tests as the text
    "undefined". *)
Fixpoint isLocked_loop (pattern : string) (opts : jsval) (locks : list string) : bool :=
  match locks with
  | [] =>
      if regexp_test pattern "undefined" then checkSync "undefined" opts
      else false
  | l :: locks' =>
      if regexp_test pattern l then checkSync l opts
      else isLocked_loop pattern opts locks'
  end.

Definition isLocked (pattern : string) (stale : jsval) (d : lock_dir) : bool :=
  isLocked_loop pattern (lockCheckOpts_stale stale) d.

(** [spinClear]: [dirAt k] is the directory found by the k-th poll.
    [None]: still waiting after [fuel] polls. *)
Fixpoint spinClear (fuel : nat) (pattern : string) (timeout : Z)
    (dirAt : nat -> lock_dir) (k : nat) : option (jres bool) :=
  match fuel with
  | O => None
  | S fuel' =>
      if isLocked pattern (JBool false) (dirAt k) then
        if Z.eqb (timeout - 1) 0 then Some (Throw (JErr "Timeout exceeded"))
        else spinClear fuel' pattern (timeout - 1) dirAt (S k)
      else Some (Ret true)
  end.

(** The poll at which the wait of [spinClear] ends when it ends within
    [fuel] polls: the first one, from [k] on, that finds no lock. *)
Fixpoint clearedAt (fuel : nat) (pattern : string) (dirAt : nat -> lock_dir) (k : nat) : nat :=
  match fuel with
  | O => k
  | S fuel' =>
      if isLocked pattern (JBool false) (dirAt k)
      then clearedAt fuel' pattern dirAt (S k)
      else k
  end.

(** [spinLock]: [spinClear] with the lock id as the pattern, then
    [acquireLock] in the directory as the last poll found it. *)
Definition spinLock (fuel : nat) (lockId : string) (timeout : Z)
    (dirAt : nat -> lock_dir) (k : nat) : option (jres lock_dir) :=
  match spinClear fuel lockId timeout dirAt k with
  | None => None
  | Some (Throw e) => Some (Throw e)
  | Some (Ret _) => Some (acquireLock lockId (dirAt (clearedAt fuel lockId dirAt k)))
  end.

End Service.

(** The specification's reading of [isHeld]: some lock whose name matches
    is held, or merely exists when [staleOk] is set. *)
Definition spec_isHeld (regexp_test : string -> string -> bool)
    (checkSync : string -> jsval -> bool) (pattern : string) (staleOk : jsval)
    (d : lock_dir) : bool :=
  existsb (fun l => regexp_test pattern l &&
                    (truthy staleOk || checkSync l (JBool false))) d.

End Lock.

(** ** app/lib/ipc.mjs *)

Module Ipc.

(** What a manager does to the bus.  [Publish topic message] stands for
    [ipc.publish(topic, JSON.stringify(message))]. *)
Inductive ipc_event : Type :=
| Publish (topic : string) (message : jsval)
| Unsubscribe (topic : string)
| SetPingReply (moduleIdent status : string).

(** [sendRequestReply].  The assignments need an object; the caller does
    not await the promise, so a rejection publishes nothing. *)
Definition sendRequestReply (now : Z) (moduleIdent subchannel : string)
    (message info : jsval) : jres ipc_event :=
  res_bind (get info "requestId") (fun requestId =>
  match message with
  | JObj o =>
      let o := set_field "requestId" requestId o in
      let o := set_field "moduleIdent" (JStr moduleIdent) o in
      let o := set_field "timestamp" (JNum now) o in
      res_bind (get info "replyTo") (fun replyTo =>
      Ret (Publish (to_string replyTo ++ "." ++ subchannel) (JObj o)))
  | _ => Throw (typeError "Cannot create property 'requestId'")
  end).

(** The text on the wire. *)
Definition payload (e : ipc_event) : option string :=
  match e with
  | Publish _ message => stringify message
  | _ => None
  end.

End Ipc.
Import Ipc.

(** ** app/bin/downloadManager.mjs *)

Module DownloadManager.

Definition moduleIdent : string := "downloadManager".

Definition supportedGames : list string := ["csgo"].

(** [supportedGames.includes(v)] *)
Definition includes_value (l : list string) (v : jsval) : bool :=
  match v with
  | JStr s => existsb (String.eqb s) l
  | _ => false
  end.

Record dm_state : Type := {
  runningDownloads : gmap string jsval;   (* the tracking object *)
  lockDir : Lock.lock_dir;
  bus : list ipc_event;                   (* oldest first *)
  clock : nat                             (* readings of Date.now() taken *)
}.

(** What the handler finds outside of the manager while it serves one
    request. *)
Record world : Type := {
  w_manifest : jres jsval;          (* loadManifest(request.gameId) *)
  w_spinLock : jres unit;           (* the wait of spinLock(globalLockId, 30) *)
  w_spinClear : jres unit;          (* spinClear(baseMountLockCheckPattern, 30) *)
  w_release : option jsval;         (* releaseLock fails on the lock directory *)
  w_self : settle;                  (* the I/O of steamCmdDownloadSelf *)
  w_fs : fs_outcome;
  w_child : nat -> child_run
}.

(** Handlers: state passing, exceptions, and [None] while a promise the
    handler awaits is still pending. *)
Definition M (A : Type) : Type := dm_state -> option (jres A * dm_state).

Definition ret {A} (a : A) : M A := fun st => Some (Ret a, st).
Definition throw {A} (e : jsval) : M A := fun st => Some (Throw e, st).
Definition lift {A} (r : jres A) : M A := fun st => Some (r, st).
Definition bind {A B} (m : M A) (k : A -> M B) : M B :=
  fun st =>
    match m st with
    | None => None
    | Some (Ret a, st') => k a st'
    | Some (Throw e, st') => Some (Throw e, st')
    end.
Definition try_catch {A} (m : M A) (h : jsval -> M A) : M A :=
  fun st =>
    match m st with
    | Some (Throw e, st') => h e st'
    | r => r
    end.
Definition modify (f : dm_state -> dm_state) : M unit :=
  fun st => Some (Ret tt, f st).

Declare Scope dm_scope.
Delimit Scope dm_scope with dm.
Notation "x <- m ;; k" := (bind m (fun x => k))
  (at level 100, m at next level, right associativity) : dm_scope.
Notation "m ;; k" := (bind m (fun _ => k))
  (at level 100, right associativity) : dm_scope.
Local Open Scope dm_scope.

Definition with_downloads (f : gmap string jsval -> gmap string jsval) (st : dm_state) : dm_state :=
  {| runningDownloads := f (runningDownloads st); lockDir := lockDir st;
     bus := bus st; clock := clock st |}.

Definition with_lockDir (f : Lock.lock_dir -> Lock.lock_dir) (st : dm_state) : dm_state :=
  {| runningDownloads := runningDownloads st; lockDir := f (lockDir st);
     bus := bus st; clock := clock st |}.

Definition emit (e : ipc_event) : M unit :=
  modify (fun st =>
    {| runningDownloads := runningDownloads st; lockDir := lockDir st;
       bus := bus st ++ [e]; clock := clock st |}).

(** The terminal messages of an exchange on [replyTo], and its ack. *)
Definition is_terminal (replyTo : string) (e : ipc_event) : bool :=
  match e with
  | Publish topic _ =>
      String.eqb topic (replyTo ++ ".finalStatus") || String.eqb topic (replyTo ++ ".error")
  | _ => false
  end.

Definition is_ack (replyTo : string) (e : ipc_event) : bool :=
  match e with
  | Publish topic _ => String.eqb topic (replyTo ++ ".ack")
  | _ => false
  end.

Definition terminal_count (replyTo : string) (events : list ipc_event) : nat :=
  length (List.filter (is_terminal replyTo) events).

(** The events that follow the first ack, if there is one. *)
Fixpoint after_ack (replyTo : string) (events : list ipc_event) : option (list ipc_event) :=
  match events with
  | [] => None
  | e :: events' => if is_ack replyTo e then Some events' else after_ack replyTo events'
  end.

(** The task record of [key] is in place, with its ring of output lines. *)
Definition tracked (key : string) (st : dm_state) : Prop :=
  exists o l,
    runningDownloads st !! key = Some (JObj o) /\
    lookup_field "lastLog" o = Some (JArr l).

Definition setPingReply (status : string) : M unit :=
  emit (SetPingReply moduleIdent status).

Definition unsubscribe (topic : string) : M unit := emit (Unsubscribe topic).

Inductive download_end : Type :=
| Done
| Failed
| Ignored.

Section Handler.

(** [Date.now()] at the n-th reading. *)
Variable now : nat -> Z.
Variable isoTimestamp : nat -> string.
Variable resolvePath : string -> string.
Variable debug : bool.

(** [sendRequestReply(moduleIdent, ipc, subchannel, message, request)],
    not awaited. *)
Definition reply (subchannel : string) (message info : jsval) : M unit :=
  fun st =>
    match sendRequestReply (now (clock st)) moduleIdent subchannel message info with
    | Ret e =>
        Some (Ret tt,
              {| runningDownloads := runningDownloads st; lockDir := lockDir st;
                 bus := bus st ++ [e]; clock := S (clock st) |})
    | Throw _ => Some (Ret tt, st)
    end.

(** The message as [sendRequestReply] completes it, and the state once
    it is published. *)
Definition stamped (st : dm_state) (request : jsval) (message : jsobj) : jsval :=
  JObj (set_field "timestamp" (JNum (now (clock st)))
          (set_field "moduleIdent" (JStr moduleIdent)
             (set_field "requestId" (prop request "requestId") message))).

Definition published (st : dm_state) (e : ipc_event) : dm_state :=
  {| runningDownloads := runningDownloads st; lockDir := lockDir st;
     bus := bus st ++ [e]; clock := S (clock st) |}.

(** [runningDownloads[key]] *)
Definition record (key : string) : M jsval :=
  fun st => Some (Ret (default JUndefined (runningDownloads st !! key)), st).

(** [runningDownloads[key].field = v] *)
Definition setRecordField (key field : string) (v : jsval) : M unit :=
  r <- record key;;
  match r with
  | JObj o => modify (with_downloads (insert key (JObj (set_field field v o))))
  | _ => throw (typeError ("Cannot set properties of undefined (setting '" ++ field ++ "')"))
  end.

(** [await releaseLock(lockId)] *)
Definition release (w : world) (lockId : string) : M unit :=
  match w_release w with
  | Some e => throw e
  | None => modify (with_lockDir (Lock.releaseLock lockId))
  end.

(** [await spinLock(lockId, 30)]: the wait, then the exclusive create. *)
Definition spinLock (w : world) (lockId : string) : M unit :=
  match w_spinLock w with
  | Throw e => throw e
  | Ret _ =>
      fun st =>
        match Lock.acquireLock lockId (lockDir st) with
        | Ret d => Some (Ret tt, with_lockDir (fun _ => d) st)
        | Throw e => Some (Throw e, st)
        end
  end.

(** The listener on [outputSink]. *)
Definition onOutput (key : string) (request data : jsval) : M unit :=
  let output := default "" (stringify data) in
  r <- record key;;
  lastLog <- lift (get r "lastLog");;
  match lastLog with
  | JArr l => setRecordField key "lastLog" (JArr (firstn 1000 (JStr output :: l)))
  | _ => throw (typeError "Cannot read properties of undefined (reading 'unshift')")
  end;;
  reply "output" (JObj [("line", JStr output)]) request.

(** The listener on [progressSink]. *)
Definition onProgress (key : string) (request data : jsval) : M unit :=
  let progress := wire data in
  setRecordField key "progressSnapshot" progress;;
  setRecordField key "downloadState" (JStr "running");;
  reply "progress" (JObj [("line", progress)]) request.

Definition onSink (key : string) (request : jsval) (e : sink_event) : M unit :=
  match e with
  | OutputPush v => onOutput key request v
  | ProgressPush v => onProgress key request v
  | CommandPush _ => ret tt
  end.

Fixpoint forEach {A} (f : A -> M unit) (l : list A) : M unit :=
  match l with
  | [] => ret tt
  | x :: l' => f x;; forEach f l'
  end.

(** [await p] for a promise that settles as [s]. *)
Definition await (s : settle) : M jsval :=
  match s with
  | Resolved v => ret v
  | Rejected e => throw e
  end.

(** [await steamCmdDownloadAppid(options, outputSink, progressSink,
    commandSink)], the listeners being served while it runs. *)
Definition awaitDownloadAppid (fuel : nat) (w : world) (key : string)
    (request : jsval) (options : jsobj) : M jsval :=
  fun st =>
    match steamCmdDownloadAppid isoTimestamp resolvePath debug fuel options
            (w_fs w) (w_child w) {| tick := 0; sunk := []; spawned := [] |} with
    | None => None
    | Some (s, rs) => (forEach (onSink key request) (sunk rs);; await s) st
    end.

Definition cancelTopic (request : jsval) : string :=
  moduleIdent ++ "." ++ to_string (prop request "requestId") ++ ".cancelDownload".

(** The options handed to [steamCmdDownloadSelf] and to
    [steamCmdDownloadAppid]. *)
Definition selfOptions (request : jsval) : jsobj :=
  [("force", prop request "steamCmdForce");
   ("steamCmdDir", prop request "steamCmdDir");
   ("steamcmdMultiFactorEnabled", prop request "steamcmdMultiFactorEnabled")].

Definition appidOptions (request gameInfo : jsval) : jsobj :=
  [("appid", prop gameInfo "downloadId");
   ("serverFilesForce", prop request "serverFilesForce");
   ("validate", prop request "validate");
   ("anonymous", prop request "anonymous");
   ("username", prop request "username");
   ("password", prop request "password");
   ("steamCmdDir", prop request "steamCmdDir");
   ("downloadDir", prop request "downloadDir");
   ("steamcmdMultiFactorEnabled", prop request "steamcmdMultiFactorEnabled")].

(** The [switch (gameInfo.downloadType)] that follows the ack. *)
Definition runDownload (fuel : nat) (w : world) (key globalLockId : string)
    (request gameInfo : jsval) : M unit :=
  downloadType <- lift (get gameInfo "downloadType");;
  if strict_eq_text downloadType "steamcmd" then
      try_catch
        (await (steamCmdDownloadSelf (selfOptions request) (w_self w));;
         result <- awaitDownloadAppid fuel w key request
                     (appidOptions request gameInfo);;
         setRecordField key "downloadLocked" (JBool false);;
         status <- lift (get result "status");;
         setRecordField key "downloadState" status;;
         reply "finalStatus" result request;;
         unsubscribe (cancelTopic request);;
         setRecordField key "downloadLocked" (JBool false);;
         setPingReply "ready";;
         release w globalLockId;;
         modify (with_downloads (delete key)))
        (fun error =>
           if negb (nullish error) then
             unsubscribe (cancelTopic request);;
             reply "error" (JObj [("error", prop error "message")]) request;;
             setPingReply "error";;
             release w globalLockId;;
             modify (with_downloads (insert key (JObj [])))
           else ret tt)
  else
      reply "error" (JObj [("error", JErr "unsupported request")]) request;;
      setPingReply "error - unsupported request";;
      release w globalLockId;;
      modify (with_downloads (insert key (JObj []))).

(** How the work awaited after the ack settles: the self-download, then
    the download of the game.  [None]: still pending. *)
Definition awaited (fuel : nat) (w : world) (request gameInfo : jsval) : option settle :=
  match steamCmdDownloadSelf (selfOptions request) (w_self w) with
  | Rejected e => Some (Rejected e)
  | Resolved _ =>
      option_map fst
        (steamCmdDownloadAppid isoTimestamp resolvePath debug fuel
           (appidOptions request gameInfo) (w_fs w) (w_child w)
           {| tick := 0; sunk := []; spawned := [] |})
  end.

(** The rejection the [catch] block ignores: [error != null] fails. *)
Definition ignored_rejection (fuel : nat) (w : world) (request gameInfo : jsval) : bool :=
  strict_eq_text (prop gameInfo "downloadType") "steamcmd" &&
  match awaited fuel w request gameInfo with
  | Some (Rejected error) => nullish error
  | _ => false
  end.

(** How the [switch] after the ack ends: the download resolved, it
    failed (a rejection with an error, or a download type the manager
    does not know), or it rejected with [null] or [undefined].  [None]:
    the awaited work is still pending. *)
Definition ending (fuel : nat) (w : world) (request gameInfo : jsval) : option download_end :=
  if strict_eq_text (prop gameInfo "downloadType") "steamcmd" then
    match awaited fuel w request gameInfo with
    | Some (Resolved _) => Some Done
    | Some (Rejected error) => Some (if nullish error then Ignored else Failed)
    | None => None
    end
  else Some Failed.

(** [downloadUpdateGame], on the parsed request. *)
Definition downloadUpdateGame (fuel : nat) (w : world) (request : jsval) : M unit :=
  gameId <- lift (get request "gameId");;
  if negb (truthy gameId) then
    reply "error" (JObj [("error", JErr "gameId required")]) request
  else if negb (includes_value supportedGames gameId) then
    reply "error" (JObj [("error", JErr "gameId unsupported")]) request
  else
    let key := to_string gameId in
    let globalLockId := "downloadGame-" ++ key in
    let baseMountLockCheckPattern := "^baseMount-" ++ key ++ "-.*$" in
    let earlyState := "checking locks" in
    match w_manifest w with
    | Throw error =>
        message <- lift (get error "message");;
        reply "error" (JObj [("error", message)]) request;;
        release w globalLockId
    | Ret gameInfo =>
        r <- (fun st => Some (Ret (runningDownloads st !! key), st));;
        match r with
        | Some running =>
            inflight <- lift (get running "request");;
            subscribeTo <- lift (get inflight "replyTo");;
            requestId <- lift (get inflight "requestId");;
            reply "nack"
              (JObj [("alreadyRequested", JBool true);
                     ("alreadyMounted", JNull);
                     ("reason", JStr "already requested");
                     ("subscribeTo", subscribeTo);
                     ("requestId", requestId);
                     ("request", inflight)])
              request
        | None =>
            downloadId <- lift (get gameInfo "downloadId");;
            modify (with_downloads (insert key
              (JObj [("request", request);
                     ("gameId", gameId);
                     ("downloadId", downloadId);
                     ("downloadLocked", JBool true);
                     ("downloadState", JStr earlyState);
                     ("lastLog", JArr []);
                     ("progressSnapshot", JObj []);
                     ("error", JNull)])));;
            locked <- try_catch (spinLock w globalLockId;; ret true)
                        (fun error =>
                           modify (with_downloads (delete key));;
                           message <- lift (get error "message");;
                           reply "error" (JObj [("error", message)]) request;;
                           ret false);;
            if negb locked then ret tt else
            clear <- try_catch (lift (w_spinClear w);; ret true)
                       (fun error =>
                          message <- lift (get error "message");;
                          reply "error" (JObj [("error", message)]) request;;
                          modify (with_downloads (delete key));;
                          release w globalLockId;;
                          ret false);;
            if negb clear then ret tt else
            setRecordField key "downloadState" (JStr "preparing");;
            if truthy (prop request "steamcmdMultiFactorEnabled") then
              reply "error" (JObj [("error", JStr "multifactor auth not supported")]) request;;
              modify (with_downloads (delete key));;
              release w globalLockId
            else
              setPingReply "downloading";;
              reply "ack"
                (JObj [("subscribeTo", prop request "replyTo");
                       ("requestId", prop request "requestId")])
                request;;
              runDownload fuel w key globalLockId request gameInfo
        end
    end.

End Handler.

(** Two states agree on the lock directory and on every entry of the
    tracking object other than the one under [key]. *)
Definition same_off (key : string) (st st' : dm_state) : Prop :=
  lockDir st' = lockDir st /\
  forall k, k <> key -> runningDownloads st' !! k = runningDownloads st !! k.

End DownloadManager.

(** ** app/bin/lifecycleManager.mjs *)

Module Lifecycle.

Definition moduleIdent : string := "lifecycleManager".

(** [process.env.NAME]: a string, or [undefined] when the variable is not
    set. *)
Definition getenv (env : gmap string string) (name : string) : jsval :=
  match env !! name with
  | Some s => JStr s
  | None => JUndefined
  end.

(** [parseBool(process.env.NAME) || dflt] *)
Definition flag (env : gmap string string) (name : string) (dflt : bool) : jres jsval :=
  res_bind (parseBool (getenv env name)) (fun b => Ret (js_or (JBool b) (JBool dflt))).

Definition steamcmdFilesForce env := flag env "STEAMCMD_FILES_FORCE" false.
Definition serverFilesForce env := flag env "SERVER_FILES_FORCE" false.
Definition steamcmdAnonymous env := flag env "STEAMCMD_LOGIN_ANON" true.
Definition steamcmdMultiFactorEnabled env := flag env "STEAMCMD_TWOFACTOR_ENABLED" false.
Definition steamcmdForceValidate env := flag env "STEAMCMD_INITIAL_DOWNLOAD_VALIDATE" false.
Definition steamcmdUsername env := js_or (getenv env "STEAMCMD_LOGIN_USERNAME") (JBool false).
Definition steamcmdPassword env := js_or (getenv env "STEAMCMD_LOGIN_PASSWORD") (JBool false).

(** [if (!v || v === '') throw new Error(...)] *)
Definition required (what : string) (v : jsval) : jres string :=
  match v with
  | JStr s => if String.eqb s "" then Throw (JErr (what ++ " required!")) else Ret s
  | _ => Throw (JErr (what ++ " required!"))
  end.

Section Coordinator.

(** [path.resolve(...segments)] *)
Variable pathResolve : list string -> string.

(** [downloadUpdateGameOptions], from the globals of the module. *)
Definition downloadUpdateGameOptions (env : gmap string string) : jres jsobj :=
  res_bind (required "process.env.GAME_ID" (js_or (getenv env "GAME_ID") (JBool false))) (fun gameId =>
  res_bind (required "process.env.INSTANCE_ID" (js_or (getenv env "INSTANCE_ID") (JBool false))) (fun instanceId =>
  res_bind (required "process.env.SERVER_FILES_ROOT_DIR"
              (js_or (getenv env "SERVER_FILES_ROOT_DIR") (JBool false))) (fun _serverFilesRootDir =>
  let serverFilesRootDir := pathResolve [_serverFilesRootDir] in
  let serverFilesBaseDir := pathResolve [serverFilesRootDir; "base"; gameId] in
  let steamCmdDir := pathResolve [serverFilesRootDir; "steamcmd"] in
  res_bind (steamcmdFilesForce env) (fun filesForce =>
  res_bind (serverFilesForce env) (fun serverForce =>
  res_bind (steamcmdAnonymous env) (fun anonymous =>
  res_bind (steamcmdMultiFactorEnabled env) (fun multiFactor =>
  res_bind (steamcmdForceValidate env) (fun forceValidate =>
  Ret [("timeout", JNum 30);
       ("gameId", JStr gameId);
       ("instanceId", JStr instanceId);
       ("validate", forceValidate);
       ("steamCmdForce", filesForce);
       ("serverFilesForce", serverForce);
       ("anonymous", anonymous);
       ("username", steamcmdUsername env);
       ("password", steamcmdPassword env);
       ("steamCmdDir", JStr steamCmdDir);
       ("downloadDir", JStr serverFilesBaseDir);
       ("steamcmdMultiFactorEnabled", multiFactor)])))))))).

(** The request [downloadUpdateGame(options)] publishes on
    [downloadManager.downloadUpdateGame]; [requestId] is the fresh
    UUID. *)
Definition downloadRequest (requestId : string) (options : jsobj) : jsobj :=
  let o := JObj options in
  [("requestId", JStr requestId);
   ("replyTo", JStr (moduleIdent ++ "." ++ requestId));
   ("gameId", prop o "gameId");
   ("validate", prop o "validate");
   ("steamCmdForce", prop o "steamCmdForce");
   ("steamCmdDir", prop o "steamCmdDir");
   ("serverFilesForce", prop o "serverFilesForce");
   ("downloadDir", prop o "downloadDir");
   ("anonymous", prop o "anonymous");
   ("username", prop o "username");
   ("password", prop o "password");
   ("steamcmdMultiFactorEnabled", prop o "steamcmdMultiFactorEnabled")].

End Coordinator.

Inductive promise : Type :=
| Pending
| Settled (s : settle).

(** [ack.hasOwnProperty('subscribeTo') ? ack.subscribeTo : false] *)
Definition subscribeTo_of (m : jsval) : jsval :=
  match m with
  | JObj o => own_or o "subscribeTo" (JBool false)
  | _ => JBool false
  end.

(** The promise of [downloadUpdateGame(options)] against the messages
    delivered to the coordinator, oldest first.  [watched] are the
    channels on which [waitTaskComplete] has subscribed. *)
Fixpoint downloadUpdateGame_from (replyTo : string) (watched : list string)
    (deliveries : list (string * jsval)) : promise :=
  match deliveries with
  | [] => Pending
  | (topic, data) :: rest =>
      if existsb (fun channel => String.eqb topic (channel ++ ".error")) watched then
        Settled (Rejected (JErr (to_string data)))
      else if existsb (fun channel => String.eqb topic (channel ++ ".finalStatus")) watched then
        match get data "reason" with
        | Ret reason =>
            if strict_eq_text reason "completed" then Settled (Resolved data)
            else Settled (Rejected data)
        | Throw _ => downloadUpdateGame_from replyTo watched rest
        end
      else if String.eqb topic (replyTo ++ ".ack") then
        downloadUpdateGame_from replyTo
          (watched ++ [to_string (subscribeTo_of data)]) rest
      else if String.eqb topic (replyTo ++ ".nack") then
        if truthy (subscribeTo_of data) then
          downloadUpdateGame_from replyTo
            (watched ++ [to_string (subscribeTo_of data)]) rest
        else downloadUpdateGame_from replyTo watched rest
      else downloadUpdateGame_from replyTo watched rest
  end.

Definition downloadUpdateGame (requestId : string)
    (deliveries : list (string * jsval)) : promise :=
  downloadUpdateGame_from (moduleIdent ++ "." ++ requestId) [] deliveries.

(** [downloadUpdateServerConfigGit] *)
Definition downloadUpdateServerConfigGit (options : jsobj) : promise :=
  Settled (Rejected (JErr "not yet implemented!")).

(** What the start handler does to the process.  [exit] tears the bus
    down and sets [process.exitCode]; it does not leave the handler. *)
Inductive lc_event : Type :=
| ReleaseLock (lockId : string)
| Exit (code : Z).

(** [exit(moduleIdent, ipc, code)]: [code ? code : 0] *)
Definition exit (code : Z) : lc_event := Exit (if Z.eqb code 0 then 0%Z else code).

Record lc_world : Type := {
  lw_lock : promise;               (* spinLock(`lifecycleManager-...`) *)
  lw_downloadManager : settle;     (* waitModuleRunning('downloadManager', { timeout: 60 }) *)
  lw_requestId : string;           (* crypto.randomUUID() *)
  lw_deliveries : list (string * jsval);
  lw_configManager : settle        (* waitModuleRunning('configManager') *)
}.

(** The four stages of the ['start'] handler; each yields the events it
    adds and whether the handler goes on.  Lock-directory I/O is taken to
    succeed. *)
Definition stage_lock (w : lc_world) : list lc_event * bool :=
  match lw_lock w with
  | Pending => ([], false)
  | Settled (Resolved _) => ([], true)
  | Settled (Rejected error) =>
      match get error "code" with
      | Ret code => (if loose_eq_text code "EEXIST" then [exit 1] else [], true)
      | Throw _ => ([], false)
      end
  end.

Definition stage_waitDownloadManager (lockId : string) (w : lc_world) : list lc_event * bool :=
  match lw_downloadManager w with
  | Resolved _ => ([], true)
  | Rejected _ => ([ReleaseLock lockId; exit 2], true)
  end.

Definition stage_download (lockId : string) (w : lc_world) : list lc_event * bool :=
  match downloadUpdateGame (lw_requestId w) (lw_deliveries w) with
  | Pending => ([], false)
  | Settled (Resolved downloadResult) =>
      match get downloadResult "status" with
      | Ret status =>
          (if negb (loose_eq_text status "completed")
           then [ReleaseLock lockId; exit 3] else [], true)
      | Throw _ => ([ReleaseLock lockId; exit 2], true)
      end
  | Settled (Rejected _) => ([ReleaseLock lockId; exit 2], true)
  end.

Definition stage_waitConfigManager (lockId : string) (w : lc_world) : list lc_event * bool :=
  match lw_configManager w with
  | Resolved _ => ([], true)
  | Rejected _ => ([ReleaseLock lockId; exit 2], true)
  end.

Definition stage_config (lockId : string) (options : jsobj) : list lc_event * bool :=
  match downloadUpdateServerConfigGit options with
  | Pending => ([], false)
  | Settled (Resolved gitUpdateResult) =>
      match res_bind (get gitUpdateResult "message") (fun m => get m "status") with
      | Ret status =>
          (if negb (loose_eq_text status "completed")
           then [ReleaseLock lockId; exit 4] else [], true)
      | Throw _ => ([ReleaseLock lockId; exit 2], true)
      end
  | Settled (Rejected _) => ([ReleaseLock lockId; exit 2], true)
  end.

Fixpoint run_stages (stages : list (list lc_event * bool)) : list lc_event :=
  match stages with
  | [] => []
  | (events, go_on) :: rest => events ++ (if go_on then run_stages rest else [])
  end.

(** The ['start'] handler. *)
Definition start (gameId instanceId : string) (w : lc_world) : list lc_event :=
  let lockId := "lifecycleManager-" ++ gameId ++ "-" ++ instanceId in
  run_stages
    [stage_lock w;
     stage_waitDownloadManager lockId w;
     stage_download lockId w;
     stage_waitConfigManager lockId w;
     stage_config lockId [("timeout", JNum 30); ("instanceId", JStr instanceId)]].

(** [process.exitCode] once the handler has run: the code of the last
    call of [exit]. *)
Definition exitCode (events : list lc_event) : option Z :=
  fold_left (fun acc e => match e with Exit c => Some c | _ => acc end) events None.

Definition exit_codes (events : list lc_event) : list Z :=
  omap (fun e => match e with Exit c => Some c | _ => None end) events.

(** *** waitModuleRunning *)

(** What reaches one call of [waitModuleRunning]: the interval fires, a
    reply arrives on the pong channel of this call, or a reply arrives on
    the pong channel of an earlier call.  The subscription of a call is
    never removed (the [unsubscribe] names [msgId.pong], the subscription
    is on [lifecycleManager.msgId.pong]), and the listener of every call
    clears the interval kept in the one slot
    [intervals.waitDownloadManagerAvailablePing].  [uptime] is
    [process.uptime()] in whole milliseconds. *)
Inductive wait_event : Type :=
| Tick
| Pong (uptime : Z)
| EarlierPong (uptime : Z).

Record wait_state : Type := {
  pingCounter : Z;
  interval : bool;               (* the interval in the slot is still set *)
  outcome : promise;
  pings : list ipc_event         (* oldest first *)
}.

Definition wait_start : wait_state :=
  {| pingCounter := 0; interval := true; outcome := Pending; pings := [] |}.

(** [resolve] and [reject] settle a promise once. *)
Definition settle_once (p : promise) (s : settle) : promise :=
  match p with
  | Pending => Settled s
  | Settled _ => p
  end.

Definition pingRequest (msgId : string) : jsval :=
  JObj [("msgId", JStr msgId);
        ("replyTo", JStr (moduleIdent ++ "." ++ msgId ++ ".pong"))].

Definition wait_step (target msgId : string) (timeout : Z)
    (s : wait_state) (e : wait_event) : wait_state :=
  match e with
  | Tick =>
      if interval s then
        let c := (pingCounter s + 1)%Z in
        if Z.leb timeout c then
          {| pingCounter := c; interval := false;
             outcome := settle_once (outcome s) (Rejected (JErr "Timeout exceeded"));
             pings := pings s |}
        else
          {| pingCounter := c; interval := true; outcome := outcome s;
             pings := pings s ++ [Publish (target ++ ".ping") (pingRequest msgId)] |}
      else s
  | Pong uptime =>
      if Z.leb 5000 uptime then
        {| pingCounter := pingCounter s; interval := false;
           outcome := settle_once (outcome s) (Resolved JUndefined);
           pings := pings s |}
      else s
  | EarlierPong uptime =>
      if Z.leb 5000 uptime then
        {| pingCounter := pingCounter s; interval := false;
           outcome := outcome s; pings := pings s |}
      else s
  end.

(** [waitModuleRunning(target, { timeout })] against what reaches it. *)
Definition waitModuleRunning (target msgId : string) (timeout : Z)
    (events : list wait_event) : wait_state :=
  fold_left (wait_step target msgId timeout) events wait_start.

End Lifecycle.

(** ** app/bin/cli.mjs *)

Module Cli.

Definition moduleIdent : string := "cli".

(** [path.resolve] takes strings only. *)
Definition path_arg (v : jsval) : jres string :=
  match v with
  | JStr s => Ret s
  | _ => Throw (typeError "The path argument must be of type string")
  end.

(** [if (!v || v === '') throw new Error(...)] *)
Definition missing (v : jsval) : bool := negb (truthy v) || strict_eq_text v "".

Section Requests.

(** [path.resolve(...segments)] *)
Variable pathResolve : list string -> string.

(** The request [downloadGame(argv)] publishes on
    [downloadManager.downloadUpdateGame]; [argv] is the object yargs
    parsed, [requestId] the fresh UUID. *)
Definition downloadGame (requestId : string) (argv : jsobj) : jres jsobj :=
  let a := JObj argv in
  let gameId := js_or (prop a "game") (JStr "") in
  if missing gameId then Throw (JErr "gameId required!")
  else
    res_bind (path_arg (js_or (prop a "root-directory") (JStr "/opt/gsm/"))) (fun _serverFilesRootDir =>
    let serverFilesRootDir := pathResolve [_serverFilesRootDir] in
    res_bind (path_arg gameId) (fun game =>
    let serverFilesBaseDir := pathResolve [serverFilesRootDir; "base"; game] in
    let steamCmdDir := pathResolve [serverFilesRootDir; "steamcmd"] in
    Ret [("requestId", JStr requestId);
         ("replyTo", JStr (moduleIdent ++ "." ++ requestId));
         ("gameId", gameId);
         ("downloadForce", js_or (prop a "force") (JBool false));
         ("validate", js_or (prop a "validate") (JBool false));
         ("steamCmdForce", js_or (prop a "steamcmd-clean") (JBool false));
         ("steamCmdDir", JStr steamCmdDir);
         ("downloadDir", JStr serverFilesBaseDir);
         ("anonymous", JBool (negb (truthy (prop a "username"))));
         ("username", js_or (prop a "password") (JStr ""));
         ("password", js_or (prop a "password") (JStr ""));
         ("serverFilesForce", js_or (prop a "clean") (JBool false));
         ("steamcmdMultiFactorEnabled", JBool false)])).

(** The request [downloadGameConfig(argv)] publishes on
    [configManager.downloadUpdateRepo]. *)
Definition downloadGameConfig (requestId : string) (argv : jsobj) : jres jsobj :=
  let a := JObj argv in
  let instanceId := js_or (prop a "instance-id") (JBool false) in
  let repoUrl := js_or (prop a "repo-url") (JBool false) in
  let repoBranch := js_or (prop a "branch") (JStr "main") in
  let clean := js_or (prop a "clean") (JBool false) in
  let configLayerIdent := js_or (prop a "layer-ident") (JBool false) in
  if missing instanceId then Throw (JErr "instanceId required!")
  else if missing repoUrl then Throw (JErr "repoUrl required!")
  else if missing configLayerIdent then Throw (JErr "configLayerIdent required!")
  else
    let rootDir := js_or (prop a "root-directory") (JStr "/opt/gsm") in
    let repoDir :=
      pathResolve [to_string rootDir ++ "/config/" ++ to_string instanceId ++ "/" ++
                   to_string configLayerIdent] in
    Ret [("requestId", JStr requestId);
         ("replyTo", JStr (moduleIdent ++ "." ++ requestId));
         ("instanceId", instanceId);
         ("repoUrl", repoUrl);
         ("repoDir", JStr repoDir);
         ("repoBranch", repoBranch);
         ("clean", clean)].

End Requests.

End Cli.

(** ** app/bin/repoManager.mjs *)

Module RepoManager.

Import DownloadManager.
Local Open Scope dm_scope.

Definition moduleIdent : string := "repoManager".



(** The calls of the git library. *)
Inductive git_call : Type :=
| GitClone (baseDir : string) (repoUrl : jsval) (localPath : string)
| GitCheckout (baseDir : string) (what : jsval)
| GitPull (baseDir : string).

(** One use of the git library: the progress reports it hands to the
    [progress] callback, then how its promise settles ([None]: it never
    does).  The outcome of [simpleGit(...)] is part of it. *)
Record git_run : Type := {
  g_progress : list jsval;
  g_outcome : option settle
}.

(** What the handler finds outside of the manager while it serves one
    request. *)
Record world : Type := {
  rw_spinLock : jres unit;          (* the wait of spinLock(globalLockId, 30) *)
  rw_spinClear : jres unit;         (* spinClear(configMountLockCheckPattern, 30) *)
  rw_release : option jsval;        (* releaseLock fails on the lock directory *)
  rw_rm : option jsval;             (* fs.rmSync throws *)
  rw_git : git_call -> git_run
}.

Section Handler.

(** [Date.now()] and [isoTimestamp()] at the n-th reading of the clock. *)
Variable now : nat -> Z.
Variable isoTimestamp : nat -> string.
(** [path.resolve(p)] *)
Variable pathResolve : string -> string.

(** [sendRequestReply(moduleIdent, ipc, subchannel, message, request)],
    not awaited. *)
Definition reply (subchannel : string) (message info : jsval) : M unit :=
  fun st =>
    match sendRequestReply (now (clock st)) moduleIdent subchannel message info with
    | Ret e =>
        Some (Ret tt,
              {| runningDownloads := runningDownloads st; lockDir := lockDir st;
                 bus := bus st ++ [e]; clock := S (clock st) |})
    | Throw _ => Some (Ret tt, st)
    end.

Definition setPingReply (status : string) : M unit :=
  emit (SetPingReply moduleIdent status).

(** [await releaseLock(lockId)] *)
Definition release (w : world) (lockId : string) : M unit :=
  match rw_release w with
  | Some e => throw e
  | None => modify (with_lockDir (Lock.releaseLock lockId))
  end.

(** [await spinLock(lockId, 30)]: the wait, then the exclusive create. *)
Definition spinLock (w : world) (lockId : string) : M unit :=
  match rw_spinLock w with
  | Throw e => throw e
  | Ret _ =>
      fun st =>
        match Lock.acquireLock lockId (lockDir st) with
        | Ret d => Some (Ret tt, with_lockDir (fun _ => d) st)
        | Throw e => Some (Throw e, st)
        end
  end.








(** The request once [force] and [repoBranch] are filled in. *)
Definition withForce (fields : jsobj) (force : bool) : jsobj :=
  set_field "force" (JBool force) fields.

Definition withBranch (fields : jsobj) : jsobj :=
  if truthy (prop (JObj fields) "repoBranch") then fields
  else set_field "repoBranch" (JStr "main") fields.



End Handler.

(** The request as the handler goes on with it once it has passed the
    checks: [force] read by [parseBool], the url and the directory there,
    the branch defaulted. *)
Definition accepted (fields : jsobj) : option jsobj :=
  match (match lookup_field "force" fields with
         | Some v => parseBool v
         | None => Ret false
         end) with
  | Throw _ => None
  | Ret force =>
      let fields := withForce fields force in
      if negb (truthy (prop (JObj fields) "repoUrl")) then None
      else
        let fields := withBranch fields in
        if negb (truthy (prop (JObj fields) "repoDir")) then None
        else Some fields
  end.

End RepoManager.

(** ** app/lib/log.mjs *)

Module Log.

(** [s.slice(0, n)] and [s.padEnd(n)] *)
Definition slice0 (n : nat) (s : string) : string := substring 0 n s.

Fixpoint spaces (n : nat) : string :=
  match n with
  | O => ""
  | S n' => String " " (spaces n')
  end.

Definition padEnd (n : nat) (s : string) : string := s ++ spaces (n - String.length s).

Section Prefix.

(** [chalk.gray] and [colors[level.toUpperCase()]], which is not a
    function for a level outside of the table. *)
Variable gray : string -> string.
Variable colors : string -> option (string -> string).

(** The [format] callback of the prefix plugin. *)
Definition format (level name timestamp : string) : jres string :=
  match colors level with
  | Some paint =>
      Ret (gray timestamp ++ " " ++ paint (slice0 2 level) ++ " " ++
           padEnd 16 (slice0 16 name))
  | None => Throw (typeError "colors[level.toUpperCase(...)] is not a function")
  end.

End Prefix.

End Log.

(** ** What an observer reads off the streams and the bus *)

Module Views.


(** The topics of the messages published, oldest first. *)
Definition topics (events : list ipc_event) : list string :=
  omap (fun e => match e with
                 | Publish topic _ => Some topic
                 | _ => None
                 end) events.

(** The messages published on a topic, oldest first. *)
Definition messages_on (topic : string) (events : list ipc_event) : list jsval :=
  omap (fun e => match e with
                 | Publish t message => if String.eqb t topic then Some message else None
                 | _ => None
                 end) events.

(** How often the interval of a wait has fired. *)
Definition ticks (events : list Lifecycle.wait_event) : nat :=
  length (List.filter (fun e => match e with Lifecycle.Tick => true | _ => false end) events).

(** A reply of a module that has been up for five seconds or more. *)
Definition ready (e : Lifecycle.wait_event) : bool :=
  match e with
  | Lifecycle.Tick => false
  | Lifecycle.Pong uptime | Lifecycle.EarlierPong uptime => Z.leb 5000 uptime
  end.

End Views.

(** ** Concrete hosts, requests and runs *)

Module Scenarios.

Import DownloadManager.

Definition isoClock (n : nat) : string := "T" ++ pretty n.
Definition msClock (n : nat) : Z := 1700000000000 + Z.of_nat n.

Definition st0 : run_state := {| tick := 0; sunk := []; spawned := [] |}.

Definition csgo_run : run_options :=
  {| ro_script := Some ["+force_install_dir /opt/gsm/base/csgo"; "+login anonymous";
                        "+app_update 740"; "+quit"];
     ro_steamCmdDir := Some "/opt/gsm/steamcmd" |}.

Definition exits (exitCode : Z) : child_run := Runs [] false (Exits exitCode JUndefined).

Definition world_42_once (n : nat) : child_run :=
  match n with
  | O => exits 42
  | S _ => exits 0
  end.

Definition world_42_six (n : nat) : child_run :=
  if Nat.ltb n 6 then exits 42 else exits 0.

Definition world_42_always (n : nat) : child_run := exits 42.

(** Two mounts of the same game: the lock of instance a is reported free,
    the lock of instance b held. *)
Definition mount_pattern : string := "^baseMount-csgo-.*$".

Definition mount_regexp (pattern subject : string) : bool :=
  String.eqb pattern mount_pattern &&
  Regex.test (seqs [Lit "baseMount-csgo-"; Star (Cls dot)]) subject.

Definition only_b_held (name : string) (opts : jsval) : bool :=
  String.eqb name "baseMount-csgo-b".

Definition two_mounts : Lock.lock_dir := ["baseMount-csgo-a"; "baseMount-csgo-b"].

(** app/manifests/csgo.mjs *)
Definition csgo_manifest : jsval :=
  JObj [("name", JStr "csgo");
        ("displayName", JStr "Counter-Strike: Global Offensive");
        ("downloadType", JStr "steamcmd");
        ("downloadId", JStr "740");
        ("binDir", JStr "./");
        ("binName", JStr "srcds_linux")].

Definition request_fields (sender requestId gameId : string) : jsobj :=
       [("requestId", JStr requestId);
        ("replyTo", JStr (sender ++ "." ++ requestId));
        ("gameId", JStr gameId);
        ("validate", JBool false);
        ("steamCmdForce", JBool false);
        ("steamCmdDir", JStr "/opt/gsm/steamcmd");
        ("serverFilesForce", JBool false);
        ("downloadDir", JStr "/opt/gsm/base/csgo");
        ("anonymous", JBool true);
        ("username", JBool false);
        ("password", JBool false);
        ("steamcmdMultiFactorEnabled", JBool false)].

Definition request_from (sender requestId gameId : string) : jsval :=
  JObj (request_fields sender requestId gameId).

(** The manager while the download asked for by [cli.r1] is running. *)
Definition downloading : dm_state :=
  {| runningDownloads :=
       {[ "csgo" :=
            JObj [("request", request_from "cli" "r1" "csgo");
                  ("gameId", JStr "csgo");
                  ("downloadId", JStr "740");
                  ("downloadLocked", JBool true);
                  ("downloadState", JStr "running");
                  ("lastLog", JArr []);
                  ("progressSnapshot", JObj []);
                  ("error", JNull)] ]};
     lockDir := ["downloadManager"; "downloadGame-csgo"];
     bus := [];
     clock := 0 |}.

Definition calm (child : nat -> child_run) : world :=
  {| w_manifest := Ret csgo_manifest;
     w_spinLock := Ret tt;
     w_spinClear := Ret tt;
     w_release := None;
     w_self := Resolved JUndefined;
     w_fs := {| fs_rm := None; fs_access := None; fs_mkdir := None |};
     w_child := child |}.

Definition idle : dm_state :=
  {| runningDownloads := ∅; lockDir := ["downloadManager"]; bus := []; clock := 0 |}.

(** The manifest of the game cannot be imported. *)
Definition manifest_missing : world :=
  {| w_manifest := Throw (JErr "Cannot find module");
     w_spinLock := Ret tt;
     w_spinClear := Ret tt;
     w_release := None;
     w_self := Resolved JUndefined;
     w_fs := {| fs_rm := None; fs_access := None; fs_mkdir := None |};
     w_child := world_42_once |}.

(** An idle manager on a host where [downloadGame-csgo] is still in the
    lock directory. *)
Definition lock_left_behind : dm_state :=
  {| runningDownloads := ∅;
     lockDir := ["downloadManager"; "downloadGame-csgo"];
     bus := [];
     clock := 0 |}.


Definition handle : nat -> world -> jsval -> M unit :=
  downloadUpdateGame msClock isoClock (fun p => p) false.

(** The coordinator of instance my-casual-server, and what reaches it
    from a download manager whose tool exits with code 1, or with 0. *)
Definition example_env : gmap string string :=
  <["GAME_ID" := "csgo"]>
    (<["INSTANCE_ID" := "my-casual-server"]>
       (<["SERVER_FILES_ROOT_DIR" := "/opt/gsm"]>
          (<["STEAMCMD_LOGIN_ANON" := "true"]> ∅))).

Definition coordinator_request : jsval :=
  match Lifecycle.downloadUpdateGameOptions (join_with "/") example_env with
  | Ret options => JObj (Lifecycle.downloadRequest "r1" options)
  | Throw _ => JUndefined
  end.

Definition deliveries_of (events : list ipc_event) : list (string * jsval) :=
  omap (fun e => match e with
                 | Publish topic message => Some (topic, wire message)
                 | _ => None
                 end) events.

Definition deliveries_when (child : nat -> child_run) : list (string * jsval) :=
  match handle 5 (calm child) coordinator_request idle with
  | Some (_, st) => deliveries_of (bus st)
  | None => []
  end.

Definition coordinator_world (child : nat -> child_run) (configManager : settle)
    : Lifecycle.lc_world :=
  {| Lifecycle.lw_lock := Lifecycle.Settled (Resolved (JBool true));
     Lifecycle.lw_downloadManager := Resolved JUndefined;
     Lifecycle.lw_requestId := "r1";
     Lifecycle.lw_deliveries := deliveries_when child;
     Lifecycle.lw_configManager := configManager |}.

(** The download failed; after [exit] has torn the bus down, the wait for
    configManager times out. *)
Definition download_fails : Lifecycle.lc_world :=
  coordinator_world (fun _ => exits 1) (Rejected (JErr "Timeout exceeded")).

(** The download completes and configManager is ready. *)
Definition download_completes : Lifecycle.lc_world :=
  coordinator_world (fun _ => exits 0) (Resolved JUndefined).

Definition coordinator_lock : string := "lifecycleManager-csgo-my-casual-server".

(** A mount of instance b that stays, and one that is gone at the n-th
    poll of the lock directory. *)
Definition held_forever (k : nat) : Lock.lock_dir := ["baseMount-csgo-b"].

Definition held_until (n k : nat) : Lock.lock_dir :=
  if Nat.ltb k n then ["baseMount-csgo-b"] else [].

(** The command line of a download with a login, and of one that asks
    for the old game files to be removed, as yargs parses them. *)
Definition argv_login : jsobj :=
  [("game", JStr "csgo"); ("validate", JBool false); ("clean", JBool false);
   ("steamcmd-clean", JBool false); ("username", JStr "gabe");
   ("password", JStr "hunter2"); ("root-directory", JStr "/opt/gsm")].

Definition argv_clean : jsobj :=
  [("game", JStr "csgo"); ("validate", JBool false); ("clean", JBool true);
   ("steamcmd-clean", JBool false); ("username", JStr "");
   ("password", JStr ""); ("root-directory", JStr "/opt/gsm")].

(** The coordinator of [example_env], told to remove the old game
    files. *)
Definition forced_env : gmap string string :=
  <["SERVER_FILES_FORCE" := "true"]> example_env.

Definition no_fs_error : fs_outcome :=
  {| fs_rm := None; fs_access := None; fs_mkdir := None |}.







(** The command line of a configuration download, as yargs parses it. *)
Definition argv_config : jsobj :=
  [("instance-id", JStr "my-casual-server");
   ("repo-url", JStr "https://git.example.org/config.git");
   ("layer-ident", JStr "base");
   ("clean", JBool false);
   ("root-directory", JStr "/opt/gsm")].

End Scenarios.

(** * Properties *)

Import Lifecycle DownloadManager Scenarios.
Local Open Scope list_scope.

(** ** parseBool *)

Section ParseBoolFacts.

Lemma eqb_false_word (t : string) :
  (String.eqb t "false" || String.eqb t "no" || String.eqb t "0" || String.eqb t "")%bool = true
  <-> In t false_words.
Proof.
  unfold false_words; simpl. rewrite !orb_true_iff, !String.eqb_eq. intuition.
Qed.

Lemma true_word_not_false (t : string) :
  (String.eqb t "true" || String.eqb t "yes" || String.eqb t "1")%bool = true ->
  ~ In t false_words.
Proof.
  rewrite !orb_true_iff, !String.eqb_eq. unfold false_words; simpl.
  intros [[-> | ->] | ->]; intuition discriminate.
Qed.

Lemma truthy_string (s : string) : truthy (JStr s) = true <-> s <> "".
Proof.
  simpl. rewrite negb_true_iff. split.
  - intros H ->. discriminate.
  - intros H. destruct (String.eqb_spec s ""); congruence.
Qed.

(** C9. [parseBool] returns [false] exactly when its argument is absent or
    falsy, or is a string whose lowercased and trimmed form is one of
    'false', 'no', '0' or the empty string; every other non-empty string
    gives [true]. *)
Theorem parseBool_false_exactly (v : jsval) (s : string) :
  (parseBool v = Ret false <->
     truthy v = false \/
     exists s', v = JStr s' /\ In (trim (toLowerCase s')) false_words)
  /\ (s <> "" -> ~ In (trim (toLowerCase s)) false_words ->
      parseBool (JStr s) = Ret true).
Proof.
  split.
  - unfold parseBool. destruct (truthy v) eqn:Hv.
    + destruct v; simpl in Hv; try discriminate;
        try (split; [discriminate | intros [H | (s' & H & _)]; discriminate]).
      destruct (_ || _ || String.eqb _ "1")%bool eqn:Ht.
      * split; [discriminate |].
        intros [H | (s' & [= <-] & Hin)]; [discriminate |].
        exfalso. eapply true_word_not_false; eauto.
      * destruct (_ || _ || _ || String.eqb _ "")%bool eqn:Hf.
        -- split; [| reflexivity]. intros _. right. exists s0. split; [reflexivity |].
           now apply eqb_false_word.
        -- split; [intros [= H]; rewrite H in Hv; discriminate |].
           intros [H | (s' & [= <-] & Hin)]; [discriminate |].
           apply eqb_false_word in Hin. congruence.
    + split; auto.
  - intros Hs Hnot. unfold parseBool.
    apply truthy_string in Hs. rewrite Hs.
    destruct (_ || _ || String.eqb _ "1")%bool; [reflexivity |].
    destruct (_ || _ || _ || String.eqb _ "")%bool eqn:Hf; [| reflexivity].
    apply eqb_false_word in Hf. contradiction.
Qed.

Lemma parseBool_banana :
  "banana" <> "" /\ ~ In (trim (toLowerCase "banana")) false_words /\
  parseBool (JStr "banana") = Ret true.
Proof.
  assert (H1 : "banana" <> "") by discriminate.
  assert (H2 : ~ In (trim (toLowerCase "banana")) false_words).
  { vm_compute. intuition discriminate. }
  split; [exact H1 |]. split; [exact H2 |].
  exact (proj2 (parseBool_false_exactly JUndefined "banana") H1 H2).
Defined.

(** On the values an environment variable can have, [parseBool] does not
    throw. *)
Lemma parseBool_getenv (env : gmap string string) (name : string) :
  exists b, parseBool (getenv env name) = Ret b.
Proof.
  unfold getenv. destruct (env !! name) as [s |]; [| now exists false].
  unfold parseBool. destruct (truthy (JStr s)); [| now exists false].
  destruct (_ || _ || String.eqb _ "1")%bool; [now exists true |].
  destruct (_ || _ || _ || String.eqb _ "")%bool; [now exists false |].
  now exists true.
Qed.

End ParseBoolFacts.

(** ** The anonymous-login flag of the lifecycle coordinator *)

Section AnonymousFlag.

Variable pathResolve : list string -> string.

Lemma getenv_agree (env1 env2 : gmap string string) (name : string) :
  env1 !! name = env2 !! name -> getenv env1 name = getenv env2 name.
Proof. unfold getenv. now intros ->. Qed.

Lemma steamcmdAnonymous_true (env : gmap string string) :
  steamcmdAnonymous env = Ret (JBool true).
Proof.
  unfold steamcmdAnonymous, flag.
  destruct (parseBool_getenv env "STEAMCMD_LOGIN_ANON") as [b ->].
  now destruct b.
Qed.

(** C10. Two environments that differ only in STEAMCMD_LOGIN_ANON give the
    same anonymous-login flag, the constant [true]; the options of the
    download request are the same, and the request carries
    [anonymous = true]. *)
Theorem anonymous_flag_constant (env1 env2 : gmap string string) (requestId : string) :
  (forall name, name <> "STEAMCMD_LOGIN_ANON" -> env1 !! name = env2 !! name) ->
  steamcmdAnonymous env1 = Ret (JBool true) /\
  steamcmdAnonymous env1 = steamcmdAnonymous env2 /\
  downloadUpdateGameOptions pathResolve env1 = downloadUpdateGameOptions pathResolve env2 /\
  (forall options,
      downloadUpdateGameOptions pathResolve env1 = Ret options ->
      lookup_field "anonymous" (downloadRequest requestId options) = Some (JBool true)).
Proof.
  intros Hagree.
  assert (Hget : forall name, name <> "STEAMCMD_LOGIN_ANON" ->
                              getenv env1 name = getenv env2 name).
  { intros name Hne. apply getenv_agree, Hagree, Hne. }
  split; [apply steamcmdAnonymous_true |].
  split; [now rewrite !steamcmdAnonymous_true |].
  split.
  - unfold downloadUpdateGameOptions, steamcmdFilesForce, serverFilesForce,
      steamcmdMultiFactorEnabled, steamcmdForceValidate, steamcmdUsername,
      steamcmdPassword, flag.
    rewrite !steamcmdAnonymous_true.
    rewrite !(Hget "GAME_ID"), !(Hget "INSTANCE_ID"), !(Hget "SERVER_FILES_ROOT_DIR"),
      !(Hget "STEAMCMD_FILES_FORCE"), !(Hget "SERVER_FILES_FORCE"),
      !(Hget "STEAMCMD_TWOFACTOR_ENABLED"), !(Hget "STEAMCMD_INITIAL_DOWNLOAD_VALIDATE"),
      !(Hget "STEAMCMD_LOGIN_USERNAME"), !(Hget "STEAMCMD_LOGIN_PASSWORD")
      by discriminate.
    reflexivity.
  - intros options. unfold downloadUpdateGameOptions.
    rewrite steamcmdAnonymous_true.
    repeat match goal with
           | |- context [res_bind ?m _] =>
               match m with
               | Ret _ => fail 1
               | _ => destruct m; simpl; try discriminate
               end
           end.
    simpl. intros [= <-]. reflexivity.
Qed.

End AnonymousFlag.

Lemma anonymous_flag_constant_witness :
  let base : gmap string string :=
    <["GAME_ID" := "csgo"]> (<["INSTANCE_ID" := "my-casual-server"]>
      (<["SERVER_FILES_ROOT_DIR" := "/opt/gsm"]> ∅)) in
  let env1 := <["STEAMCMD_LOGIN_ANON" := "false"]> base in
  let env2 := <["STEAMCMD_LOGIN_ANON" := "true"]> base in
  steamcmdAnonymous env1 = steamcmdAnonymous env2 /\
  downloadUpdateGameOptions (join_with "/") env1 = downloadUpdateGameOptions (join_with "/") env2.
Proof.
  intros base env1 env2.
  assert (H : forall name, name <> "STEAMCMD_LOGIN_ANON" -> env1 !! name = env2 !! name).
  { intros name Hne. unfold env1, env2. now rewrite !lookup_insert_ne by congruence. }
  pose proof (anonymous_flag_constant (join_with "/") env1 env2 "r1" H) as (_ & H2 & H3 & _).
  exact (conj H2 H3).
Defined.

(** ** The line parser of the content-tool driver *)

Section LineParser.

Variable isoTimestamp : nat -> string.

Lemma push_spawned e st : spawned (push e st) = spawned st.
Proof. reflexivity. Qed.

Lemma pushProgress_spawned o st : spawned (pushProgress o st) = spawned st.
Proof. now destruct o. Qed.

Lemma onLine_spawned line st : spawned (onLine isoTimestamp line st) = spawned st.
Proof.
  unfold onLine. destruct (String.eqb line ""); [reflexivity |].
  now rewrite !pushProgress_spawned.
Qed.

Lemma onData_spawned rawData st : spawned (onData isoTimestamp rawData st) = spawned st.
Proof.
  unfold onData. generalize (split crlf rawData) as lines. intros lines.
  revert st. induction lines as [| line lines IH]; intros st; simpl; [reflexivity |].
  now rewrite IH, onLine_spawned.
Qed.

Lemma chunks_spawned chunks st :
  spawned (fold_left (fun st chunk => onData isoTimestamp chunk st) chunks st) = spawned st.
Proof.
  revert st. induction chunks as [| c chunks IH]; intros st; simpl; [reflexivity |].
  now rewrite IH, onData_spawned.
Qed.

(** What one non-empty line adds to the streams: the output line, then a
    snapshot for each of the two forms it matches. *)
Lemma onLine_pushes line st :
  line <> "" ->
  sunk (onLine isoTimestamp line st) =
    sunk st ++
    [OutputPush (JObj [("timestamp", JStr (isoTimestamp (tick st))); ("line", JStr line)])] ++
    match steamCmdDownloadSnapshot line with Some v => [ProgressPush v] | None => [] end ++
    match appidDownloadSnapshot line with Some v => [ProgressPush v] | None => [] end.
Proof.
  intros Hne. unfold onLine.
  destruct (String.eqb_spec line ""); [contradiction |].
  destruct (steamCmdDownloadSnapshot line), (appidDownloadSnapshot line); simpl;
    rewrite <- ?app_assoc; reflexivity.
Qed.

(** A game-download snapshot exists exactly when the line matches the
    regex of the source, and it is labelled [appid_download]. *)
Lemma appidDownloadSnapshot_iff line :
  (exists v, appidDownloadSnapshot line = Some v /\
             prop v "downloadStage" = JStr "appid_download" /\
             prop v "progressLine" = JStr line)
  <-> test appidDownloadStateRegex line = true.
Proof.
  unfold appidDownloadSnapshot, test.
  destruct (exec appidDownloadStateRegex line).
  - split; [reflexivity |]. intros _. eexists. split; [reflexivity |]. now split.
  - split; [intros (v & H & _); discriminate | discriminate].
Qed.

(** C5. A line of the game-download form whose state code has a letter
    a-f matches the regular expression of the specification and not the
    one of the driver: only the output line is pushed, no snapshot. *)
Theorem appid_snapshot_misses_hex_letters (st : run_state) :
  let line := " Update state (0x1a) downloading, progress: 12.34 (1234 / 5678)" in
  test spec_gameDownloadRegex line = true /\
  test appidDownloadStateRegex line = false /\
  appidDownloadSnapshot line = None /\
  sunk (onLine isoTimestamp line st) =
    sunk st ++
    [OutputPush (JObj [("timestamp", JStr (isoTimestamp (tick st))); ("line", JStr line)])].
Proof.
  intros line.
  assert (Hs : test spec_gameDownloadRegex line = true) by (vm_compute; reflexivity).
  assert (Ht : test appidDownloadStateRegex line = false) by (vm_compute; reflexivity).
  assert (Ha : appidDownloadSnapshot line = None) by (vm_compute; reflexivity).
  assert (Hd : steamCmdDownloadSnapshot line = None) by (vm_compute; reflexivity).
  split; [exact Hs |]. split; [exact Ht |]. split; [exact Ha |].
  rewrite onLine_pushes by discriminate. now rewrite Ha, Hd.
Qed.

(** The same line with a decimal state code is reported. *)
Example appid_snapshot_decimal_state :
  appidDownloadSnapshot " Update state (0x61) downloading, progress: 12.34 (1234 / 5678)" =
  Some (JObj [("downloadStage", JStr "appid_download");
              ("downloadStateHex", JStr "0x61");
              ("downloadState", JStr "downloading");
              ("downloadProgress", JStr "12.34");
              ("downloadProgressReceived", JStr "1234");
              ("downloadProgressTotal", JStr "5678");
              ("progressLine",
               JStr " Update state (0x61) downloading, progress: 12.34 (1234 / 5678)")]).
Proof. vm_compute. reflexivity. Qed.

End LineParser.

(** ** The exit-code policy of [runSteamCmd] *)

Section Respawn.

Variable isoTimestamp : nat -> string.
Variable resolvePath : string -> string.
Variable options : run_options.
Variable dir : string.
Hypothesis Hdir : ro_steamCmdDir options = Some dir.
Hypothesis Hne : dir <> "".
Variable world : nat -> child_run.

Let run := runSteamCmd isoTimestamp resolvePath.

Lemma dir_not_empty : String.eqb (default "" (ro_steamCmdDir options)) "" = false.
Proof. rewrite Hdir. simpl. now destruct (String.eqb_spec dir ""). Qed.

Lemma spawn_entry_eq :
  spawn_entry resolvePath options =
  (resolvePath (dir ++ "/linux32/steamcmd")%string,
   split " " (join_with " " (default ["+quit"%string] (ro_script options)))).
Proof. unfold spawn_entry. now rewrite Hdir. Qed.

(** A life that does not relaunch settles the promise; the child has been
    spawned once unless the spawn itself failed. *)
Lemma run_last_life fuel k st :
  relaunches (world k) = false ->
  exists s st',
    run (S fuel) options world k st = Some (s, st') /\
    spawned st' =
      spawned st ++ repeat (spawn_entry resolvePath options)
                      (if spawns (world k) then 1 else 0).
Proof.
  intros Hlast. unfold run. simpl. rewrite dir_not_empty, spawn_entry_eq.
  rewrite Hdir. simpl.
  destruct (world k) as [e | chunks cancel ending]; simpl in *.
  - do 2 eexists. split; [reflexivity |]. now rewrite app_nil_r.
  - destruct ending as [exitCode signal |].
    + destruct cancel.
      * do 2 eexists. split; [reflexivity |]. simpl. now rewrite chunks_spawned.
      * rewrite Hlast. destruct (Z.eqb exitCode 0).
        -- do 2 eexists. split; [reflexivity |]. now rewrite chunks_spawned.
        -- do 2 eexists. split; [reflexivity |]. now rewrite chunks_spawned.
    + do 2 eexists. split; [reflexivity |]. now rewrite chunks_spawned.
Qed.

Lemma settle_match_id (x : option (settle * run_state)) :
  match x with
  | None => None
  | Some (Rejected error, st') => Some (Rejected error, st')
  | Some (Resolved retryExitCode, st') => Some (Resolved retryExitCode, st')
  end = match x with
        | None => None
        | Some (s, st') => Some (s, st')
        end.
Proof. now destruct x as [[[v | e] st'] |]. Qed.

(** A life that ends in 42 hands over to the next life, one spawn later. *)
Lemma run_relaunch fuel k st :
  relaunches (world k) = true ->
  exists st1,
    spawned st1 = spawned st ++ [spawn_entry resolvePath options] /\
    run (S fuel) options world k st =
      match run fuel options world (S k) st1 with
      | None => None
      | Some (s, st') => Some (s, st')
      end.
Proof.
  intros Hre. unfold run. simpl. rewrite dir_not_empty, spawn_entry_eq.
  rewrite Hdir. simpl.
  destruct (world k) as [e | chunks cancel ending]; simpl in *; [discriminate |].
  destruct cancel; [discriminate |].
  destruct ending as [exitCode signal |]; [| discriminate].
  rewrite Hre, settle_match_id. eexists. split; [| reflexivity].
  simpl. now rewrite chunks_spawned.
Qed.

Lemma run_settles n : forall fuel k st,
  (forall j, (j < n)%nat -> relaunches (world (k + j)) = true) ->
  relaunches (world (k + n)) = false ->
  (n < fuel)%nat ->
  exists s st',
    run fuel options world k st = Some (s, st') /\
    spawned st' =
      spawned st ++ repeat (spawn_entry resolvePath options)
                      (n + if spawns (world (k + n)) then 1 else 0).
Proof.
  induction n as [| n IH]; intros fuel k st Hbefore Hlast Hfuel.
  - destruct fuel as [| fuel]; [lia |].
    rewrite Nat.add_0_r in *. now apply run_last_life.
  - destruct fuel as [| fuel]; [lia |].
    destruct (run_relaunch fuel k st) as (st1 & Hsp & Hrun).
    { specialize (Hbefore 0%nat). rewrite Nat.add_0_r in Hbefore. apply Hbefore. lia. }
    destruct (IH fuel (S k) st1) as (s & st' & Hrun' & Hsp').
    + intros j Hj. replace (S k + j)%nat with (k + S j)%nat by lia. apply Hbefore. lia.
    + now replace (S k + n)%nat with (k + S n)%nat by lia.
    + lia.
    + exists s, st'. split; [now rewrite Hrun, Hrun' |].
      rewrite Hsp', Hsp. replace (S k + n)%nat with (k + S n)%nat by lia.
      rewrite <- app_assoc. reflexivity.
Qed.

Lemma run_pending fuel : forall k st,
  (forall j, relaunches (world j) = true) ->
  run fuel options world k st = None.
Proof.
  induction fuel as [| fuel IH]; intros k st Hall; [reflexivity |].
  destruct (run_relaunch fuel k st (Hall k)) as (st1 & _ & ->).
  now rewrite IH.
Qed.

(** C4, as the driver has it.  An exit with code 42 while no cancel is in
    progress re-spawns the tool with the same binary and script.  Nothing
    caps the re-spawns: when the first [n] lives end in 42 and the next one
    does not, the promise settles after [n] re-spawns; when every life ends
    in 42 it never settles. *)
Theorem runSteamCmd_respawns_uncapped (n : nat) (st : run_state) :
  ((forall k, (k < n)%nat -> relaunches (world k) = true) ->
   relaunches (world n) = false ->
   forall fuel, (n < fuel)%nat ->
   exists s st',
     runSteamCmd isoTimestamp resolvePath fuel options world 0 st = Some (s, st') /\
     spawned st' =
       spawned st ++ repeat (spawn_entry resolvePath options)
                       (n + if spawns (world n) then 1 else 0))
  /\ ((forall k, relaunches (world k) = true) ->
      forall fuel, runSteamCmd isoTimestamp resolvePath fuel options world 0 st = None).
Proof.
  split.
  - intros Hbefore Hlast fuel Hfuel.
    apply (run_settles n fuel 0%nat st); auto.
  - intros Hall fuel. now apply run_pending.
Qed.

End Respawn.

Lemma runSteamCmd_respawns_uncapped_witness :
  (exists s st',
      runSteamCmd isoClock (fun p => p) 2 csgo_run world_42_once 0 st0 = Some (s, st') /\
      spawned st' = spawned st0 ++ repeat (spawn_entry (fun p => p) csgo_run) 2)
  /\ runSteamCmd isoClock (fun p => p) 7 csgo_run world_42_always 0 st0 = None.
Proof.
  assert (Hne : "/opt/gsm/steamcmd"%string <> ""%string) by discriminate.
  split.
  - apply (proj1 (runSteamCmd_respawns_uncapped isoClock (fun p => p) csgo_run
                    "/opt/gsm/steamcmd" eq_refl Hne world_42_once 1 st0)).
    + intros k Hk. assert (k = 0%nat) as -> by lia. reflexivity.
    + reflexivity.
    + lia.
  - apply (proj2 (runSteamCmd_respawns_uncapped isoClock (fun p => p) csgo_run
                    "/opt/gsm/steamcmd" eq_refl Hne world_42_always 0 st0)).
    intros k. reflexivity.
Defined.

(** Against the cap of C4: six exits with code 42 in a row give six
    re-spawns, one more than the bound of five, and a tool that always exits
    with 42 is still being re-spawned after two hundred lives. *)
Lemma respawn_cap_refuted :
  option_map (fun r => length (spawned (snd r)))
    (runSteamCmd isoClock (fun p => p) 10 csgo_run world_42_six 0 st0) = Some 7%nat
  /\ runSteamCmd isoClock (fun p => p) 200 csgo_run world_42_always 0 st0 = None.
Proof. split; vm_compute; reflexivity. Qed.

(** Scenario 4: one exit with 42, then success. *)
Example respawn_once_completes :
  option_map (fun r => (fst r, length (spawned (snd r))))
    (runSteamCmd isoClock (fun p => p) 5 csgo_run world_42_once 0 st0) =
  Some (Resolved (JObj [("exitCode", JNum 0); ("signal", JUndefined);
                        ("reason", JStr "completed"); ("status", JStr "completed");
                        ("error", JBool false)]), 2%nat).
Proof. vm_compute. reflexivity. Qed.

(** ** The lock service *)

Section LockFacts.

Variable regexp_test : string -> string -> bool.
Variable checkSync : string -> jsval -> bool.

(** [isLocked] answers for the first lock whose name matches, whatever the
    locks listed after it. *)
Lemma isLocked_first_match (pattern : string) (stale : jsval) (d : Lock.lock_dir) :
  Lock.isLocked regexp_test checkSync pattern stale d =
  match find (regexp_test pattern) d with
  | Some l => checkSync l (Lock.lockCheckOpts_stale stale)
  | None =>
      regexp_test pattern "undefined" &&
      checkSync "undefined" (Lock.lockCheckOpts_stale stale)
  end.
Proof.
  unfold Lock.isLocked. induction d as [| l d IH]; simpl.
  - now destruct (regexp_test pattern "undefined").
  - now destruct (regexp_test pattern l).
Qed.

(** With one matching lock at most, the two readings agree. *)
Lemma isLocked_single_match (pattern l : string) (pre post : Lock.lock_dir) :
  forallb (fun n => negb (regexp_test pattern n)) (pre ++ post) = true ->
  regexp_test pattern l = true ->
  regexp_test pattern "undefined" = false ->
  Lock.isLocked regexp_test checkSync pattern (JBool false) (pre ++ l :: post) =
  Lock.spec_isHeld regexp_test checkSync pattern (JBool false) (pre ++ l :: post).
Proof.
  intros Hnone Hl Hund. rewrite isLocked_first_match. unfold Lock.spec_isHeld.
  rewrite forallb_app in Hnone. apply andb_true_iff in Hnone as [Hpre Hpost].
  induction pre as [| p pre IH]; simpl in *.
  - rewrite Hl. simpl.
    assert (Hex : existsb (fun l0 => regexp_test pattern l0 && checkSync l0 (JBool false)) post = false).
    { clear -Hpost. induction post as [| q post IH]; simpl in *; [reflexivity |].
      apply andb_true_iff in Hpost as [Hq Hpost]. apply negb_true_iff in Hq.
      rewrite Hq. simpl. auto. }
    rewrite Hex. now rewrite orb_false_r.
  - apply andb_true_iff in Hpre as [Hp Hpre]. apply negb_true_iff in Hp.
    rewrite Hp. simpl. auto.
Qed.

End LockFacts.

(** C3. With two locks matching the pattern, the first one listed free and
    the second one held, [isLocked] answers [false]: the held lock is
    missed, where the specification's [isHeld] answers [true]. *)
Theorem isLocked_misses_held_lock :
  Lock.isLocked mount_regexp only_b_held mount_pattern (JBool false) two_mounts = false /\
  Lock.spec_isHeld mount_regexp only_b_held mount_pattern (JBool false) two_mounts = true /\
  Lock.isLocked mount_regexp only_b_held mount_pattern (JBool false) (rev two_mounts) = true.
Proof. repeat split; vm_compute; reflexivity. Qed.

(** ** The download manager: validation and deduplication *)

Section Validation.

Variable now : nat -> Z.
Variable isoTimestamp : nat -> string.
Variable resolvePath : string -> string.
Variable debug : bool.

Let serve := downloadUpdateGame now isoTimestamp resolvePath debug.

Lemma reply_object (subchannel : string) (message request : jsobj) (st : dm_state) :
  reply now subchannel (JObj message) (JObj request) st =
  Some (Ret tt,
        published st
          (Publish (to_string (prop (JObj request) "replyTo") ++ "." ++ subchannel)%string
                   (stamped now st (JObj request) message))).
Proof. reflexivity. Qed.

(** A request without a usable [gameId] gets an [error] reply and nothing
    else happens: no task record, no change of the lock directory. *)
Lemma invalid_gameId_reply (fuel : nat) (w : world) (request : jsobj) (st : dm_state) :
  let gameId := prop (JObj request) "gameId" in
  truthy gameId && includes_value supportedGames gameId = false ->
  serve fuel w (JObj request) st =
  Some (Ret tt,
        published st
          (Publish (to_string (prop (JObj request) "replyTo") ++ ".error")%string
             (stamped now st (JObj request)
                [("error", JErr (if truthy gameId then "gameId unsupported"
                                 else "gameId required"))]))).
Proof.
  intros gameId Hbad. unfold serve, downloadUpdateGame.
  unfold bind at 1. unfold lift at 1. subst gameId. cbn [prop get] in *.
  destruct (truthy _) eqn:Ht; cbn [andb negb] in Hbad |- *.
  - rewrite Hbad. cbn [negb]. apply reply_object.
  - apply reply_object.
Qed.

(** When the manifest cannot be loaded, the handler replies with the
    error and then releases the download lock of the game, which it has
    not acquired. *)
Lemma manifest_failure_releases (fuel : nat) (w : world) (request : jsobj)
    (st : dm_state) (key message : string) :
  prop (JObj request) "gameId" = JStr key ->
  In key supportedGames ->
  w_manifest w = Throw (JErr message) ->
  w_release w = None ->
  serve fuel w (JObj request) st =
  Some (Ret tt,
        with_lockDir (Lock.releaseLock ("downloadGame-" ++ key))
          (published st
             (Publish (to_string (prop (JObj request) "replyTo") ++ ".error")%string
                (stamped now st (JObj request) [("error", JStr message)])))).
Proof.
  intros Hid Hin Hman Hrel. unfold serve, downloadUpdateGame.
  unfold bind at 1. unfold lift at 1. cbn [prop get] in *. rewrite Hid.
  destruct Hin as [<- | []]. simpl. rewrite Hman.
  unfold bind, lift, release. rewrite Hrel. reflexivity.
Qed.

(** C1. A request whose game already has a task record, holding the
    request that started the task in flight, is answered by one [nack]
    carrying [alreadyRequested = true] and, as [subscribeTo], the
    [replyTo] of that request; the tracking object and the lock directory
    stay as they are. *)
Theorem duplicate_request_nack (fuel : nat) (w : world) (request : jsobj)
    (st : dm_state) (key : string) (running gameInfo : jsval) (inflight : jsobj) :
  prop (JObj request) "gameId" = JStr key ->
  In key supportedGames ->
  w_manifest w = Ret gameInfo ->
  runningDownloads st !! key = Some running ->
  get running "request" = Ret (JObj inflight) ->
  serve fuel w (JObj request) st =
  Some (Ret tt,
        published st
          (Publish (to_string (prop (JObj request) "replyTo") ++ ".nack")%string
             (JObj [("alreadyRequested", JBool true);
                    ("alreadyMounted", JNull);
                    ("reason", JStr "already requested");
                    ("subscribeTo", prop (JObj inflight) "replyTo");
                    ("requestId", prop (JObj request) "requestId");
                    ("request", JObj inflight);
                    ("moduleIdent", JStr moduleIdent);
                    ("timestamp", JNum (now (clock st)))]))).
Proof.
  intros Hid Hin Hman Hrec Hreq. unfold serve, downloadUpdateGame.
  unfold bind at 1. unfold lift at 1. cbn [prop get] in *. rewrite Hid.
  destruct Hin as [<- | []]. simpl. rewrite Hman.
  unfold bind at 1. simpl in Hrec. rewrite Hrec.
  unfold bind, lift. rewrite Hreq. simpl. reflexivity.
Qed.

End Validation.

Lemma duplicate_request_nack_witness :
  handle 0 (calm world_42_once) (request_from "cli" "r2" "csgo") downloading =
  Some (Ret tt,
        published downloading
          (Publish "cli.r2.nack"
             (JObj [("alreadyRequested", JBool true);
                    ("alreadyMounted", JNull);
                    ("reason", JStr "already requested");
                    ("subscribeTo", JStr "cli.r1");
                    ("requestId", JStr "r2");
                    ("request", request_from "cli" "r1" "csgo");
                    ("moduleIdent", JStr "downloadManager");
                    ("timestamp", JNum 1700000000000)]))).
Proof.
  exact (duplicate_request_nack msClock isoClock (fun p => p) false 0
           (calm world_42_once) (request_fields "cli" "r2" "csgo") downloading "csgo"
           _ csgo_manifest (request_fields "cli" "r1" "csgo")
           eq_refl (or_introl eq_refl) eq_refl eq_refl eq_refl).
Defined.

(** What C1 does not cover: after a failed run the handler leaves the blank
    object under the key of the game.  The next request for the game finds
    the key, reads [request.replyTo] of the blank object and throws; nothing
    is published. *)
Example blanked_entry_throws :
  match handle 5 (calm (fun _ => exits 1)) (request_from "cli" "r1" "csgo") idle with
  | Some (_, st1) =>
      option_map
        (fun x => (fst x, runningDownloads st1 !! "csgo"%string,
                   (length (bus (snd x)) - length (bus st1))%nat))
        (handle 5 (calm (fun _ => exits 0)) (request_from "cli" "r2" "csgo") st1)
  | None => None
  end =
  Some (Throw (typeError "Cannot read properties of undefined (reading 'replyTo')"),
        Some (JObj []), 0%nat).
Proof. vm_compute. reflexivity. Qed.

(** C7. A request for a supported game whose manifest cannot be loaded is
    answered with an error, and the handler then releases
    [downloadGame-csgo]: a lock file that was in the directory before the
    request is gone after it. *)
Theorem manifest_failure_removes_lock :
  lockDir lock_left_behind = ["downloadManager"; "downloadGame-csgo"]%string /\
  handle 0 manifest_missing (request_from "cli" "r1" "csgo") lock_left_behind =
  Some (Ret tt,
        {| runningDownloads := ∅;
           lockDir := ["downloadManager"%string];
           bus := [Publish "cli.r1.error"
                     (JObj [("error", JStr "Cannot find module");
                            ("requestId", JStr "r1");
                            ("moduleIdent", JStr "downloadManager");
                            ("timestamp", JNum 1700000000000)])];
           clock := 1 |}).
Proof. split; reflexivity. Qed.

(** C8. The reply to a request for a game that is not supported carries the
    [Error] object itself; on the wire its [error] field is the empty
    object, and the text 'gameId unsupported' is nowhere in the payload. *)
Theorem unsupported_game_error_payload :
  let message :=
    JObj [("error", JErr "gameId unsupported");
          ("requestId", JStr "r1");
          ("moduleIdent", JStr "downloadManager");
          ("timestamp", JNum 1700000000000)] in
  handle 0 (calm world_42_once) (request_from "cli" "r1" "xyzzy") idle =
    Some (Ret tt, published idle (Publish "cli.r1.error" message)) /\
  get (wire message) "error" = Ret (JObj []) /\
  option_map (includes "gameId unsupported") (payload (Publish "cli.r1.error" message)) =
    Some false /\
  option_map (includes "error") (payload (Publish "cli.r1.error" message)) = Some true.
Proof. repeat split; vm_compute; reflexivity. Qed.

(** ** The download manager: what follows an ack *)

Lemma eqb_append_l (s a b : string) :
  String.eqb (s ++ a)%string (s ++ b)%string = String.eqb a b.
Proof.
  induction s as [| c s IH]; simpl; [reflexivity |].
  now rewrite Ascii.eqb_refl.
Qed.

Lemma lookup_set_field_eq (k : string) (v : jsval) (o : jsobj) :
  lookup_field k (set_field k v o) = Some v.
Proof.
  induction o as [| [k' v'] o IH]; simpl.
  - now rewrite String.eqb_refl.
  - destruct (String.eqb k k') eqn:E; simpl; rewrite ?String.eqb_refl, ?E; auto.
Qed.

Lemma lookup_set_field_ne (k k' : string) (v : jsval) (o : jsobj) :
  k <> k' -> lookup_field k (set_field k' v o) = lookup_field k o.
Proof.
  intros Hne. apply String.eqb_neq in Hne.
  induction o as [| [k2 v2] o IH]; simpl.
  - now rewrite Hne.
  - destruct (String.eqb k' k2) eqn:E; simpl.
    + apply String.eqb_eq in E. subst k2. now rewrite Hne.
    + now rewrite IH.
Qed.

Lemma terminal_count_app (replyTo : string) (a b : list ipc_event) :
  terminal_count replyTo (a ++ b) = (terminal_count replyTo a + terminal_count replyTo b)%nat.
Proof. unfold terminal_count. now rewrite List.filter_app, length_app. Qed.

Section AfterAck.

Variable now : nat -> Z.
Variable isoTimestamp : nat -> string.
Variable resolvePath : string -> string.
Variable debug : bool.
Variable w : world.
Hypothesis Hrel : w_release w = None.
Variable request : jsobj.
Variable key : string.

Let req : jsval := JObj request.
Let replyTo : string := to_string (prop req "replyTo").

Lemma bind_ret_eq {A B} (m : M A) (k : A -> M B) st a st1 :
  m st = Some (Ret a, st1) -> bind m k st = k a st1.
Proof. unfold bind. now intros ->. Qed.

Lemma is_terminal_reply (sub : string) (m : jsval) :
  is_terminal replyTo (Publish (replyTo ++ "." ++ sub)%string m) =
  (String.eqb sub "finalStatus" || String.eqb sub "error")%bool.
Proof.
  unfold is_terminal.
  change (replyTo ++ ".finalStatus")%string with (replyTo ++ "." ++ "finalStatus")%string.
  change (replyTo ++ ".error")%string with (replyTo ++ "." ++ "error")%string.
  now rewrite !eqb_append_l.
Qed.

Lemma is_ack_reply (sub : string) (m : jsval) :
  is_ack replyTo (Publish (replyTo ++ "." ++ sub)%string m) = String.eqb sub "ack".
Proof.
  unfold is_ack.
  change (replyTo ++ ".ack")%string with (replyTo ++ "." ++ "ack")%string.
  now rewrite !eqb_append_l.
Qed.

Lemma setRecordField_eq (field : string) (v : jsval) (o : jsobj) (st : dm_state) :
  runningDownloads st !! key = Some (JObj o) ->
  setRecordField key field v st =
  Some (Ret tt, with_downloads (insert key (JObj (set_field field v o))) st).
Proof.
  intros H. unfold setRecordField, bind, record. now rewrite H.
Qed.

Lemma tracked_set (field : string) (v : jsval) (o : jsobj) (st : dm_state) :
  runningDownloads st !! key = Some (JObj o) ->
  (exists l, lookup_field "lastLog" (set_field field v o) = Some (JArr l)) ->
  tracked key (with_downloads (insert key (JObj (set_field field v o))) st).
Proof.
  intros H [l Hl]. exists (set_field field v o), l. split; [| exact Hl].
  simpl. apply lookup_insert_eq.
Qed.

Lemma tracked_published (st : dm_state) (e : ipc_event) :
  tracked key st -> tracked key (published st e).
Proof. intros H. exact H. Qed.

(** A listener leaves the record in place and publishes one [output] or
    [progress] message, never a terminal one. *)
Lemma onSink_ok (e : sink_event) (st : dm_state) :
  tracked key st ->
  exists st1 evs,
    onSink now key req e st = Some (Ret tt, st1) /\
    bus st1 = bus st ++ evs /\
    terminal_count replyTo evs = 0%nat /\
    tracked key st1.
Proof.
  intros (o & l & Hrec & Hlog). destruct e as [v | v | v]; simpl.
  - unfold onOutput.
    unfold bind at 1. unfold record at 1. rewrite Hrec. simpl.
    unfold bind at 1. unfold lift at 1. simpl. rewrite Hlog. simpl.
    rewrite (bind_ret_eq _ _ _ _ _ (setRecordField_eq _ _ o st Hrec)).
    unfold req. rewrite reply_object.
    do 2 eexists. split; [reflexivity |]. split; [reflexivity |]. split.
    + unfold terminal_count. cbn [List.filter]. fold req. fold replyTo.
      now rewrite is_terminal_reply.
    + apply tracked_published, tracked_set; [exact Hrec |].
      rewrite lookup_set_field_eq. eauto.
  - unfold onProgress.
    rewrite (bind_ret_eq _ _ _ _ _ (setRecordField_eq _ _ o st Hrec)).
    rewrite (bind_ret_eq _ _ _ _ _
               (setRecordField_eq "downloadState" _
                  (set_field "progressSnapshot" (wire v) o) _ (lookup_insert_eq _ _ _))).
    unfold req. rewrite reply_object.
    do 2 eexists. split; [reflexivity |]. split; [reflexivity |]. split.
    + unfold terminal_count. cbn [List.filter]. fold req. fold replyTo.
      now rewrite is_terminal_reply.
    + apply tracked_published.
      exists (set_field "downloadState" (JStr "running")
                (set_field "progressSnapshot" (wire v) o)), l.
      split.
      * simpl. rewrite insert_insert_eq. apply lookup_insert_eq.
      * rewrite !lookup_set_field_ne by discriminate. exact Hlog.
  - exists st, []. split; [reflexivity |]. rewrite app_nil_r.
    split; [reflexivity |]. split; [reflexivity |]. exists o, l. auto.
Qed.

Lemma forEach_onSink_ok (l : list sink_event) : forall st,
  tracked key st ->
  exists st1 evs,
    forEach (onSink now key req) l st = Some (Ret tt, st1) /\
    bus st1 = bus st ++ evs /\
    terminal_count replyTo evs = 0%nat /\
    tracked key st1.
Proof.
  induction l as [| e l IH]; intros st Ht.
  - exists st, []. rewrite app_nil_r. auto.
  - destruct (onSink_ok e st Ht) as (st1 & evs1 & H1 & Hb1 & Hc1 & Ht1).
    destruct (IH st1 Ht1) as (st2 & evs2 & H2 & Hb2 & Hc2 & Ht2).
    exists st2, (evs1 ++ evs2). simpl.
    rewrite (bind_ret_eq _ _ _ _ _ H1). split; [exact H2 |].
    split; [now rewrite Hb2, Hb1, app_assoc |].
    split; [rewrite terminal_count_app; lia | exact Ht2].
Qed.

(** The driver resolves with an object only. *)
Lemma runSteamCmd_resolves_object (fuel : nat) : forall options world n st v rs,
  runSteamCmd isoTimestamp resolvePath fuel options world n st = Some (Resolved v, rs) ->
  exists o, v = JObj o.
Proof.
  induction fuel as [| fuel IH]; intros options world n st v rs; simpl; [discriminate |].
  destruct (String.eqb _ ""); [discriminate |].
  destruct (world n) as [e | chunks cancel ending]; [discriminate |].
  destruct ending as [exitCode signal |]; [| discriminate].
  destruct cancel; [intros [= <- _]; eauto |].
  destruct (Z.eqb exitCode 42).
  - rewrite settle_match_id.
    destruct (runSteamCmd _ _ fuel options world (S n) _) as [[s st'] |] eqn:E;
      [| discriminate].
    intros [= -> ->]. eapply IH, E.
  - destruct (Z.eqb exitCode 0); [intros [= <- _]; eauto | discriminate].
Qed.

Lemma steamCmdDownloadAppid_resolves_object fuel options fs world st v rs :
  steamCmdDownloadAppid isoTimestamp resolvePath debug fuel options fs world st =
    Some (Resolved v, rs) ->
  exists o, v = JObj o.
Proof.
  unfold steamCmdDownloadAppid.
  repeat match goal with
         | |- context [match ?x with _ => _ end] =>
             match x with
             | runSteamCmd _ _ _ _ _ _ _ => fail 1
             | _ => destruct x; try discriminate
             end
         end;
    apply runSteamCmd_resolves_object.
Qed.

(** What the [switch] after the ack publishes: one terminal message,
    unless the awaited work rejects with [null] or [undefined]. *)
Lemma runDownload_terminal (fuel : nat) (lockId : string) (gameInfo downloadType : jsval)
    (st st' : dm_state) (r : jres unit) :
  tracked key st ->
  get gameInfo "downloadType" = Ret downloadType ->
  runDownload now isoTimestamp resolvePath debug fuel w key lockId req gameInfo st =
    Some (r, st') ->
  exists evs,
    bus st' = bus st ++ evs /\
    terminal_count replyTo evs =
      if ignored_rejection isoTimestamp resolvePath debug fuel w req gameInfo
      then 0%nat else 1%nat.
Proof.
  intros Ht Hdt. unfold runDownload, ignored_rejection, awaited.
  assert (Hprop : prop gameInfo "downloadType" = downloadType)
    by (unfold prop; now rewrite Hdt).
  rewrite Hprop. unfold bind at 1. unfold lift at 1. rewrite Hdt.
  destruct (strict_eq_text downloadType "steamcmd"); cbn [andb].
  2:{ unfold bind, setPingReply, emit, modify, release. rewrite Hrel.
      unfold req. rewrite reply_object. intros [= <- <-].
      eexists. split;
        [cbn [bus published with_downloads with_lockDir]; rewrite <- ?app_assoc; reflexivity |].
      unfold terminal_count. cbn [List.filter app]. fold req. fold replyTo.
      rewrite is_terminal_reply. reflexivity. }
  match goal with
  | |- try_catch ?b ?h st = _ -> _ => set (body := b); set (handler := h)
  end.
  assert (Hcatch : forall e st0 r0 st1,
             handler e st0 = Some (r0, st1) ->
             exists evs, bus st1 = bus st0 ++ evs /\
                         terminal_count replyTo evs = if nullish e then 0%nat else 1%nat).
  { intros e st0 r0 st1. unfold handler. destruct (nullish e); cbn [negb].
    - intros [= <- <-]. exists []. now rewrite app_nil_r.
    - unfold bind, unsubscribe, setPingReply, emit, modify, release. rewrite Hrel.
      unfold req. rewrite reply_object. intros [= <- <-].
      eexists. split;
        [cbn [bus published with_downloads with_lockDir]; rewrite <- ?app_assoc; reflexivity |].
      unfold terminal_count. cbn [List.filter app]. fold req. fold replyTo.
      rewrite is_terminal_reply. reflexivity. }
  unfold body, try_catch.
  destruct (steamCmdDownloadSelf _ _) as [v0 | e0].
  2:{ unfold await, throw, bind. apply Hcatch. }
  unfold await at 1. unfold bind at 1. unfold ret at 1.
  unfold bind at 1. unfold awaitDownloadAppid at 1.
  destruct (steamCmdDownloadAppid _ _ _ _ _ _ _ _) as [[s rs] |] eqn:Happ;
    [| discriminate].
  cbn [option_map fst].
  destruct (forEach_onSink_ok (sunk rs) st Ht) as (st1 & evs1 & Hrun & Hb1 & Hc1 & Ht1).
  rewrite (bind_ret_eq _ _ _ _ _ Hrun).
  destruct s as [result | e].
  - apply steamCmdDownloadAppid_resolves_object in Happ as [ro ->].
    destruct Ht1 as (o & l & Hrec & Hlog).
    unfold await, ret.
    rewrite (bind_ret_eq _ _ _ _ _ (setRecordField_eq _ _ o st1 Hrec)).
    unfold bind at 1. unfold lift at 1. cbn [get].
    rewrite (bind_ret_eq _ _ _ _ _
               (setRecordField_eq "downloadState" _
                  (set_field "downloadLocked" (JBool false) o) _ (lookup_insert_eq _ _ _))).
    unfold req. rewrite (bind_ret_eq _ _ _ _ _ (reply_object _ _ _ _ _)).
    unfold unsubscribe at 1. unfold emit at 1. unfold modify at 1. unfold bind at 1.
    match goal with
    | |- context [bind (setRecordField key "downloadLocked" ?v) ?k ?S] =>
        assert (Hl : exists o', runningDownloads S !! key = Some (JObj o'))
          by (eexists; cbn [runningDownloads published with_downloads];
              apply lookup_insert_eq);
        destruct Hl as [o' Hl];
        rewrite (bind_ret_eq _ _ _ _ _ (setRecordField_eq "downloadLocked" v o' S Hl))
    end.
    unfold bind, setPingReply, emit, modify, release. rewrite Hrel.
    intros H. injection H as <- <-. cbn [bus with_downloads with_lockDir published].
    rewrite Hb1. eexists. split; [rewrite <- !app_assoc; reflexivity |].
    rewrite terminal_count_app, Hc1.
    unfold terminal_count. cbn [List.filter app]. fold req. fold replyTo.
    rewrite is_terminal_reply. reflexivity.
  - unfold await, throw.
    intros H. apply Hcatch in H as (evs & Hb & Hc).
    exists (evs1 ++ evs). split; [now rewrite Hb, Hb1, app_assoc |].
    rewrite terminal_count_app, Hc1, Hc. reflexivity.
Qed.

End AfterAck.

Section Terminal.

Variable now : nat -> Z.
Variable isoTimestamp : nat -> string.
Variable resolvePath : string -> string.
Variable debug : bool.
Variable w : world.
Hypothesis Hrel : w_release w = None.
Variable request : jsobj.

Let req : jsval := JObj request.
Let replyTo : string := to_string (prop req "replyTo").

Lemma after_ack_nothing (st : dm_state) :
  after_ack replyTo (skipn (length (bus st)) (bus st)) = None.
Proof. now rewrite skipn_all. Qed.

Lemma after_ack_one (l : list ipc_event) (sub : string) (m : jsval) :
  String.eqb sub "ack" = false ->
  after_ack replyTo
    (skipn (length l) (l ++ [Publish (replyTo ++ "." ++ sub)%string m])) = None.
Proof.
  intros Hsub. rewrite drop_app_length.
  cbn [after_ack]. unfold replyTo, req. now rewrite is_ack_reply, Hsub.
Qed.

Lemma get_receiver (v x : jsval) (k k' : string) :
  get v k = Ret x -> exists y, get v k' = Ret y.
Proof. destruct v; simpl; try discriminate; eauto. Qed.



End Terminal.



(** Scenario 1: ack, then one terminal message, [finalStatus]. *)
Example completed_download_bus :
  option_map (fun x => map (fun e => match e with
                                     | Publish topic _ => topic
                                     | Unsubscribe topic => topic
                                     | SetPingReply _ status => status
                                     end) (bus (snd x)))
    (handle 5 (calm (fun _ => exits 0)) (request_from "cli" "r1" "csgo") idle) =
  Some ["downloading"; "cli.r1.ack"; "cli.r1.finalStatus";
        "downloadManager.r1.cancelDownload"; "ready"]%string.
Proof. vm_compute. reflexivity. Qed.

(** A cancel while the tool runs: the tool is terminated, the driver
    resolves with reason [canceled], and the one terminal message is a
    [finalStatus]. *)
Example canceled_download_bus :
  option_map
    (fun x => omap (fun e => match e with
                             | Publish topic message =>
                                 if is_terminal "cli.r1" e
                                 then Some (topic, prop message "reason")
                                 else None
                             | _ => None
                             end) (bus (snd x)))
    (handle 5 (calm (fun _ => Runs [] true (Exits 0 (JNum 15))))
       (request_from "cli" "r1" "csgo") idle) =
  Some [("cli.r1.finalStatus"%string, JStr "canceled")].
Proof. vm_compute. reflexivity. Qed.

(** A tool that exits with code 1: the one terminal message is an [error]. *)
Example failed_download_bus :
  option_map
    (fun x => map (fun e => match e with
                            | Publish topic _ => topic
                            | Unsubscribe topic => topic
                            | SetPingReply _ status => status
                            end) (bus (snd x)))
    (handle 5 (calm (fun _ => exits 1)) (request_from "cli" "r1" "csgo") idle) =
  Some ["downloading"; "cli.r1.ack"; "downloadManager.r1.cancelDownload";
        "cli.r1.error"; "error"]%string.
Proof. vm_compute. reflexivity. Qed.

(** ** The exit codes of the lifecycle coordinator *)

Lemma wait_timeout_exits_2 (lockId : string) (w : lc_world) (e : jsval) :
  lw_downloadManager w = Rejected e ->
  stage_waitDownloadManager lockId w = ([ReleaseLock lockId; Exit 2], true).
Proof. unfold stage_waitDownloadManager. now intros ->. Qed.

(** A download that is reported as failed reaches the handler as a
    rejection, and the rejection is answered with exit code 2. *)
Lemma download_rejected_exits_2 (lockId : string) (w : lc_world) (e : jsval) :
  Lifecycle.downloadUpdateGame (lw_requestId w) (lw_deliveries w) = Settled (Rejected e) ->
  stage_download lockId w = ([ReleaseLock lockId; Exit 2], true).
Proof. unfold stage_download. now intros ->. Qed.

(** The config stage always ends in the catch block: its exit code is 2. *)
Lemma config_stage_exits_2 (lockId : string) (options : jsobj) :
  stage_config lockId options = ([ReleaseLock lockId; Exit 2], true).
Proof. reflexivity. Qed.

Lemma run_stages_exit_codes (stages : list (list lc_event * bool)) (c : Z) :
  In (Exit c) (run_stages stages) -> exists s, In s stages /\ In (Exit c) (fst s).
Proof.
  induction stages as [| [events go_on] stages IH]; simpl; [tauto |].
  rewrite in_app_iff. intros [H | H].
  - exists (events, go_on). auto.
  - destruct go_on; [| destruct H].
    destruct (IH H) as (s & Hs & Hc). eauto.
Qed.

(** No run of the start handler calls [exit] with code 4. *)
Lemma start_never_exits_4 (gameId instanceId : string) (w : lc_world) :
  ~ In (Exit 4) (start gameId instanceId w).
Proof.
  unfold start. intros H. apply run_stages_exit_codes in H as (s & Hs & Hc).
  simpl in Hs. destruct Hs as [<- | [<- | [<- | [<- | [<- | []]]]]].
  - unfold stage_lock in Hc. destruct (lw_lock w) as [| [v | error]]; simpl in Hc; try tauto.
    destruct (get error "code") as [code | e]; simpl in Hc; try tauto.
    destruct (loose_eq_text code "EEXIST"); simpl in Hc;
      intuition discriminate.
  - unfold stage_waitDownloadManager in Hc. destruct (lw_downloadManager w); simpl in Hc;
      intuition discriminate.
  - unfold stage_download in Hc.
    destruct (Lifecycle.downloadUpdateGame _ _) as [| [v | error]]; simpl in Hc; try tauto.
    + destruct (get v "status") as [status | e]; simpl in Hc.
      * destruct (loose_eq_text status "completed"); simpl in Hc; intuition discriminate.
      * intuition discriminate.
    + intuition discriminate.
  - unfold stage_waitConfigManager in Hc. destruct (lw_configManager w); simpl in Hc;
      intuition discriminate.
  - simpl in Hc. intuition discriminate.
Qed.

(** C6. The download manager acks the request of the coordinator and the
    tool then exits with code 1: the failure reaches the coordinator as an
    [error] message, the promise rejects, and the handler calls [exit] with
    code 2, not 3.  When the download completes, the config stage follows
    and ends with code 2, not 4. *)
Theorem download_failure_exit_code :
  map fst (lw_deliveries download_fails) =
    ["lifecycleManager.r1.ack"; "lifecycleManager.r1.error"]%string /\
  Lifecycle.downloadUpdateGame "r1" (lw_deliveries download_fails) =
    Settled (Rejected (JErr "[object Object]")) /\
  start "csgo" "my-casual-server" download_fails =
    [ReleaseLock coordinator_lock; Exit 2; ReleaseLock coordinator_lock; Exit 2;
     ReleaseLock coordinator_lock; Exit 2] /\
  exit_codes (start "csgo" "my-casual-server" download_fails) = [2; 2; 2]%Z /\
  exitCode (start "csgo" "my-casual-server" download_fails) = Some 2%Z /\
  exit_codes (start "csgo" "my-casual-server" download_completes) = [2%Z].
Proof. repeat split; vm_compute; reflexivity. Qed.

(** * Further properties of the code *)

(** ** The lock service *)

Lemma releaseLock_app (lockId : string) (a b : Lock.lock_dir) :
  Lock.releaseLock lockId (a ++ b) = Lock.releaseLock lockId a ++ Lock.releaseLock lockId b.
Proof. unfold Lock.releaseLock. apply List.filter_app. Qed.

Lemma releaseLock_absent (lockId : string) (d : Lock.lock_dir) :
  existsb (String.eqb lockId) d = false -> Lock.releaseLock lockId d = d.
Proof.
  induction d as [| n d IH]; simpl; [reflexivity |].
  intros H. apply orb_false_iff in H as [Hn Hd].
  rewrite String.eqb_sym in Hn. rewrite Hn. simpl. now rewrite IH.
Qed.

Lemma acquireLock_inv (lockId : string) (d d' : Lock.lock_dir) :
  Lock.acquireLock lockId d = Ret d' ->
  existsb (String.eqb lockId) d = false /\ d' = d ++ [lockId].
Proof.
  unfold Lock.acquireLock. destruct (existsb _ d); [discriminate |].
  now intros [= <-].
Qed.

Lemma release_acquired (lockId : string) (d d' : Lock.lock_dir) :
  Lock.acquireLock lockId d = Ret d' -> Lock.releaseLock lockId d' = d.
Proof.
  intros H. apply acquireLock_inv in H as [Hfree ->].
  rewrite releaseLock_app, releaseLock_absent by exact Hfree.
  unfold Lock.releaseLock. simpl. rewrite String.eqb_refl. simpl. apply app_nil_r.
Qed.



Section LockService.

Variable regexp_test : string -> string -> bool.
Variable checkSync : string -> jsval -> bool.

Let locked (pattern : string) (d : Lock.lock_dir) : bool :=
  Lock.isLocked regexp_test checkSync pattern (JBool false) d.
Let spin := Lock.spinClear regexp_test checkSync.

Lemma spinClear_locked (fuel : nat) (pattern : string) (timeout : Z)
    (dirAt : nat -> Lock.lock_dir) (k : nat) :
  locked pattern (dirAt k) = true ->
  spin (S fuel) pattern timeout dirAt k =
    if Z.eqb (timeout - 1) 0 then Some (Throw (JErr "Timeout exceeded"))
    else spin fuel pattern (timeout - 1) dirAt (S k).
Proof. unfold locked, spin. simpl. now intros ->. Qed.

Lemma spinClear_free (fuel : nat) (pattern : string) (timeout : Z)
    (dirAt : nat -> Lock.lock_dir) (k : nat) :
  locked pattern (dirAt k) = false ->
  spin (S fuel) pattern timeout dirAt k = Some (Ret true).
Proof. unfold locked, spin. simpl. now intros ->. Qed.

(** X2. While the locks that match stay held, [spinClear] with a timeout
    of [n + 1] polls the directory [n + 1] times and throws 'Timeout
    exceeded' at the last of these polls; after [n] polls it is still
    waiting. *)
Theorem spinClear_times_out (pattern : string) (dirAt : nat -> Lock.lock_dir) (n : nat) :
  forall k extra,
  (forall i, (i <= n)%nat -> locked pattern (dirAt (k + i)%nat) = true) ->
  spin (S n + extra) pattern (Z.of_nat (S n)) dirAt k =
    Some (Throw (JErr "Timeout exceeded")) /\
  spin n pattern (Z.of_nat (S n)) dirAt k = None.
Proof.
  induction n as [| n IH]; intros k extra Hheld.
  - split; [| reflexivity].
    change (S 0 + extra)%nat with (S extra).
    rewrite spinClear_locked; [reflexivity |].
    specialize (Hheld 0%nat). rewrite Nat.add_0_r in Hheld. apply Hheld. lia.
  - assert (Hk : locked pattern (dirAt k) = true).
    { specialize (Hheld 0%nat). rewrite Nat.add_0_r in Hheld. apply Hheld. lia. }
    assert (Hz : (Z.of_nat (S (S n)) - 1 = Z.of_nat (S n))%Z) by lia.
    assert (Hnz : Z.eqb (Z.of_nat (S n)) 0 = false) by (apply Z.eqb_neq; lia).
    destruct (IH (S k) extra) as [Hthrow Hwait].
    { intros i Hi. replace (S k + i)%nat with (k + S i)%nat by lia. apply Hheld. lia. }
    split.
    + change (S (S n) + extra)%nat with (S (S n + extra)).
      rewrite spinClear_locked, Hz, Hnz by exact Hk. exact Hthrow.
    + rewrite spinClear_locked, Hz, Hnz by exact Hk. exact Hwait.
Qed.

(** X3. With a timeout of zero or less, which includes the default of -1,
    [spinClear] never throws: while the locks stay held it waits,
    whatever the number of polls. *)
Theorem spinClear_waits_forever (pattern : string) (dirAt : nat -> Lock.lock_dir)
    (fuel : nat) :
  forall (timeout : Z) (k : nat),
  (timeout <= 0)%Z ->
  (forall i, locked pattern (dirAt i) = true) ->
  spin fuel pattern timeout dirAt k = None.
Proof.
  induction fuel as [| fuel IH]; intros timeout k Hto Hheld; [reflexivity |].
  rewrite spinClear_locked by apply Hheld.
  assert (Hnz : Z.eqb (timeout - 1) 0 = false) by (apply Z.eqb_neq; lia).
  rewrite Hnz. apply IH; [lia | exact Hheld].
Qed.

(** X4. [spinClear] returns true at the first poll that finds no held lock
    matching the pattern, provided that poll comes before the timeout
    runs out: after [n] polls that found a lock, the timeout must exceed
    [n] or be unlimited. *)
Theorem spinClear_clears (pattern : string) (dirAt : nat -> Lock.lock_dir) (n : nat) :
  forall (timeout : Z) (k extra : nat),
  (forall i, (i < n)%nat -> locked pattern (dirAt (k + i)%nat) = true) ->
  locked pattern (dirAt (k + n)%nat) = false ->
  (timeout <= 0 \/ Z.of_nat n < timeout)%Z ->
  spin (S n + extra) pattern timeout dirAt k = Some (Ret true).
Proof.
  induction n as [| n IH]; intros timeout k extra Hheld Hfree Hto.
  - rewrite Nat.add_0_r in Hfree. now apply spinClear_free.
  - assert (Hk : locked pattern (dirAt k) = true).
    { specialize (Hheld 0%nat). rewrite Nat.add_0_r in Hheld. apply Hheld. lia. }
    change (S (S n) + extra)%nat with (S (S n + extra)).
    rewrite spinClear_locked by exact Hk.
    assert (Hnz : Z.eqb (timeout - 1) 0 = false) by (apply Z.eqb_neq; lia).
    rewrite Hnz. apply IH.
    + intros i Hi. replace (S k + i)%nat with (k + S i)%nat by lia. apply Hheld. lia.
    + now replace (S k + n)%nat with (k + S n)%nat by lia.
    + lia.
Qed.



End LockService.

Lemma spinClear_times_out_witness :
  Lock.spinClear mount_regexp only_b_held 3 mount_pattern 3 held_forever 0 =
    Some (Throw (JErr "Timeout exceeded")) /\
  Lock.spinClear mount_regexp only_b_held 2 mount_pattern 3 held_forever 0 = None.
Proof.
  exact (spinClear_times_out mount_regexp only_b_held mount_pattern held_forever 2 0 0
           (fun i _ => eq_refl)).
Defined.

Lemma spinClear_waits_forever_witness :
  Lock.spinClear mount_regexp only_b_held 50 mount_pattern (-1) held_forever 0 = None.
Proof.
  apply (spinClear_waits_forever mount_regexp only_b_held mount_pattern held_forever 50 (-1) 0).
  - lia.
  - intros i. reflexivity.
Defined.

Lemma spinClear_clears_witness :
  Lock.spinClear mount_regexp only_b_held 4 mount_pattern 30 (held_until 2) 0 =
    Some (Ret true).
Proof.
  apply (spinClear_clears mount_regexp only_b_held mount_pattern (held_until 2) 2 30 0 1).
  - intros i Hi.
    destruct i as [| [| i]]; [reflexivity | reflexivity | lia].
  - reflexivity.
  - lia.
Defined.


(** ** sendRequestReply *)

(** X6. For a message that is an object, [sendRequestReply] publishes on
    [replyTo.subchannel] of the request the message with [requestId]
    (that of the request), [moduleIdent] and [timestamp] set, whatever the
    caller had put under these three names; every other field of the
    message is published as given. *)
Theorem sendRequestReply_stamps (now : Z) (moduleIdent subchannel : string)
    (message info : jsobj) :
  exists sent,
    sendRequestReply now moduleIdent subchannel (JObj message) (JObj info) =
      Ret (Publish (to_string (prop (JObj info) "replyTo") ++ "." ++ subchannel)%string
             (JObj sent)) /\
    lookup_field "requestId" sent = Some (prop (JObj info) "requestId") /\
    lookup_field "moduleIdent" sent = Some (JStr moduleIdent) /\
    lookup_field "timestamp" sent = Some (JNum now) /\
    forall k, k <> "requestId"%string -> k <> "moduleIdent"%string ->
              k <> "timestamp"%string ->
      lookup_field k sent = lookup_field k message.
Proof.
  eexists. split; [reflexivity |].
  split; [| split; [| split]].
  - rewrite !lookup_set_field_ne by discriminate. apply lookup_set_field_eq.
  - rewrite lookup_set_field_ne by discriminate. apply lookup_set_field_eq.
  - apply lookup_set_field_eq.
  - intros k H1 H2 H3. now rewrite !lookup_set_field_ne by assumption.
Qed.

(** ** The driver of the content tool *)

Section DriverFacts.

Variable isoTimestamp : nat -> string.
Variable resolvePath : string -> string.
Variable debug : bool.

Lemma bt_first_unit (a : ascii) (r : regex) (s : string) (c : caps)
    (k : string -> caps -> option caps) (x : caps) :
  bt (Seq (Chr a) r) s c k = Some x -> exists s', s = String a s'.
Proof.
  simpl. destruct s as [| b s]; [discriminate |].
  destruct (Ascii.eqb_spec a b); [subst; eauto | discriminate].
Qed.

Lemma bt_first_unit_nested (a : ascii) (r1 r2 : regex) (s : string) (c : caps)
    (k : string -> caps -> option caps) (x : caps) :
  bt (Seq (Seq (Chr a) r1) r2) s c k = Some x -> exists s', s = String a s'.
Proof.
  simpl. destruct s as [| b s]; [discriminate |].
  destruct (Ascii.eqb_spec a b); [subst; eauto | discriminate].
Qed.

(** X7. No line matches both progress forms: the form of the
    self-update starts with an opening bracket, the form of the game
    download with a space.  A line therefore gives at most one progress
    snapshot. *)
Theorem progress_forms_exclusive (line : string) :
  steamCmdDownloadSnapshot line = None \/ appidDownloadSnapshot line = None.
Proof.
  unfold steamCmdDownloadSnapshot, appidDownloadSnapshot.
  destruct (exec steamCmdDownloadStateRegex line) as [m1 |] eqn:E1; [| now left].
  destruct (exec appidDownloadStateRegex line) as [m2 |] eqn:E2; [| now right].
  exfalso.
  apply bt_first_unit in E1 as [s1 H1].
  apply bt_first_unit_nested in E2 as [s2 H2].
  rewrite H1 in H2. discriminate.
Qed.





Lemma prefix_unit (c d : ascii) (s : string) :
  String.prefix (String c "") (String d s) = Ascii.eqb c d.
Proof.
  cbn [String.prefix]. destruct (ascii_dec c d) as [-> | Hne].
  - rewrite Ascii.eqb_refl. now destruct s.
  - symmetry. now apply Ascii.eqb_neq.
Qed.

Lemma split_from_space (c : ascii) (s cur : string) :
  split_from " " (String c s) 0 cur =
  if Ascii.eqb " " c then cur :: split_from " " s 0 ""
  else split_from " " s 0 (cur ++ String c "")%string.
Proof. cbn [split_from]. rewrite prefix_unit. reflexivity. Qed.

Lemma split_space_app (a b : string) : forall cur,
  split_from " " (a ++ " " ++ b) 0 cur =
  split_from " " a 0 cur ++ split_from " " b 0 "".
Proof.
  induction a as [| c a IH]; intros cur.
  - change ("" ++ " " ++ b)%string with (String " " b).
    rewrite split_from_space. reflexivity.
  - change (String c a ++ " " ++ b)%string with (String c (a ++ " " ++ b))%string.
    rewrite !split_from_space.
    destruct (Ascii.eqb " " c); rewrite IH; reflexivity.
Qed.

Lemma join_with_fold (sep : string) (l : list string) : forall acc,
  split " " (fold_left (fun acc y => acc ++ " " ++ y)%string l acc) =
  split " " acc ++ concat (map (split " ") l).
Proof.
  induction l as [| y l IH]; intros acc; simpl.
  - now rewrite app_nil_r.
  - rewrite IH. unfold split at 1. rewrite split_space_app.
    now rewrite <- app_assoc.
Qed.

Lemma split_join_space (l : list string) :
  l <> [] -> split " " (join_with " " l) = concat (map (split " ") l).
Proof.
  destruct l as [| x l]; [congruence |]. intros _.
  unfold join_with. now rewrite (join_with_fold " ").
Qed.

(** X9. The argument vector of every spawn is the script cut at every
    single space: each directive contributes its space-separated pieces,
    in order, and nothing is added, in particular no closing '+quit'. *)
Theorem spawn_argv_cuts_directives (options : run_options) (script : list string) :
  ro_script options = Some script ->
  script <> [] ->
  snd (spawn_entry resolvePath options) = concat (map (split " ") script).
Proof.
  intros Hs Hne. unfold spawn_entry. rewrite Hs. simpl.
  now apply split_join_space.
Qed.

(** X10. When a cancel command has arrived while the tool runs, the exit
    of the tool resolves the promise with reason and status 'canceled',
    whatever the exit code: a code of 42 starts no new life and a code
    other than 0 is no failure.  The tool has been spawned once, and the
    last two pushes are the line 'Download canceled on request' and the
    'ackCanceled' status. *)
Theorem cancel_outranks_exit_code (fuel : nat) (options : run_options) (dir : string)
    (world : nat -> child_run) (n : nat) (st : run_state)
    (chunks : list string) (exitCode : Z) (signal : jsval) :
  ro_steamCmdDir options = Some dir ->
  dir <> ""%string ->
  world n = Runs chunks true (Exits exitCode signal) ->
  exists st' before t1 t2,
    runSteamCmd isoTimestamp resolvePath (S fuel) options world n st =
      Some (Resolved (JObj [("exitCode", JNum exitCode); ("signal", signal);
                            ("reason", JStr "canceled"); ("status", JStr "canceled");
                            ("error", JBool false)]), st') /\
    spawned st' = spawned st ++ [spawn_entry resolvePath options] /\
    sunk st' =
      before ++
      [OutputPush (JObj [("timestamp", JStr t1);
                         ("line", JStr "Download canceled on request")]);
       CommandPush (JObj [("timestamp", JStr t2); ("status", JStr "ackCanceled")])].
Proof.
  intros Hdir Hne Hw. simpl. rewrite Hdir. simpl.
  destruct (String.eqb_spec dir ""); [contradiction |].
  rewrite Hw. do 4 eexists. split; [reflexivity |]. split.
  - simpl. rewrite chunks_spawned. unfold spawn_entry. rewrite Hdir. reflexivity.
  - simpl. rewrite <- app_assoc. reflexivity.
Qed.

(** X11. An option [serverFilesForce] that is truthy and not a string,
    such as the boolean [true], makes [steamCmdDownloadAppid] reject with
    the TypeError of [parseBool]: nothing is removed, pushed or
    spawned, whatever the other options are. *)
Theorem serverFilesForce_not_a_string (fuel : nat) (options : jsobj) (fs : fs_outcome)
    (world : nat -> child_run) (st : run_state) (v : jsval) :
  lookup_field "serverFilesForce" options = Some v ->
  truthy v = true ->
  (forall s, v <> JStr s) ->
  steamCmdDownloadAppid isoTimestamp resolvePath debug fuel options fs world st =
  Some (Rejected (typeError "string.toLowerCase is not a function"), st).
Proof.
  intros Hv Ht Hs. unfold steamCmdDownloadAppid. rewrite Hv.
  unfold parseBool. rewrite Ht.
  destruct v; try reflexivity. now destruct (Hs s).
Qed.

End DriverFacts.

Lemma spawn_argv_cuts_directives_witness :
  snd (spawn_entry (fun p => p) csgo_run) =
  ["+force_install_dir"; "/opt/gsm/base/csgo"; "+login"; "anonymous";
   "+app_update"; "740"; "+quit"]%string.
Proof.
  refine (eq_trans (spawn_argv_cuts_directives (fun p => p) csgo_run _ eq_refl _) eq_refl).
  discriminate.
Defined.

Lemma cancel_outranks_exit_code_witness :
  exists st' before t1 t2,
    runSteamCmd isoClock (fun p => p) 1 csgo_run
      (fun _ => Runs [] true (Exits 42 (JNum 15))) 0 st0 =
      Some (Resolved (JObj [("exitCode", JNum 42); ("signal", JNum 15);
                            ("reason", JStr "canceled"); ("status", JStr "canceled");
                            ("error", JBool false)]), st') /\
    spawned st' = spawned st0 ++ [spawn_entry (fun p => p) csgo_run] /\
    sunk st' =
      before ++
      [OutputPush (JObj [("timestamp", JStr t1);
                         ("line", JStr "Download canceled on request")]);
       CommandPush (JObj [("timestamp", JStr t2); ("status", JStr "ackCanceled")])].
Proof.
  apply (cancel_outranks_exit_code isoClock (fun p => p) 0 csgo_run "/opt/gsm/steamcmd"
           (fun _ => Runs [] true (Exits 42 (JNum 15))) 0 st0 [] 42 (JNum 15) eq_refl).
  - discriminate.
  - reflexivity.
Defined.

Lemma serverFilesForce_not_a_string_witness :
  steamCmdDownloadAppid isoClock (fun p => p) false 5
    [("appid", JStr "740"); ("serverFilesForce", JBool true);
     ("steamCmdDir", JStr "/opt/gsm/steamcmd"); ("downloadDir", JStr "/opt/gsm/base/csgo")]
    {| fs_rm := None; fs_access := None; fs_mkdir := None |} (fun _ => exits 0) st0 =
  Some (Rejected (typeError "string.toLowerCase is not a function"), st0).
Proof.
  apply (serverFilesForce_not_a_string isoClock (fun p => p) false 5 _ _ _ st0 (JBool true)).
  - reflexivity.
  - reflexivity.
  - discriminate.
Defined.

(** ** The download manager: what a request leaves behind *)

Lemma same_off_refl (key : string) (st : dm_state) : same_off key st st.
Proof. split; [reflexivity | intros k _; reflexivity]. Qed.

Lemma same_off_trans (key : string) (a b c : dm_state) :
  same_off key a b -> same_off key b c -> same_off key a c.
Proof.
  intros [Hl1 Hm1] [Hl2 Hm2]. split; [congruence |].
  intros k Hk. now rewrite Hm2, Hm1.
Qed.

Section Accounting.

Variable now : nat -> Z.
Variable isoTimestamp : nat -> string.
Variable resolvePath : string -> string.
Variable debug : bool.
Variable w : world.
Hypothesis Hrel : w_release w = None.
Variable request : jsobj.

Let req : jsval := JObj request.
Let replyTo : string := to_string (prop req "replyTo").
Let key : string := to_string (prop req "gameId").
Let globalLockId : string := ("downloadGame-" ++ key)%string.
Let serve := downloadUpdateGame now isoTimestamp resolvePath debug.

Lemma reply_frame (k sub : string) (m info : jsval) (st st' : dm_state) (r : jres unit) :
  reply now sub m info st = Some (r, st') -> r = Ret tt /\ same_off k st st'.
Proof.
  unfold reply. destruct (sendRequestReply _ _ _ _ _); intros [= <- <-];
    (split; [reflexivity |]); apply same_off_refl || (split; [reflexivity | intros ? _; reflexivity]).
Qed.

Lemma setRecordField_frame (k field : string) (v : jsval) (st st' : dm_state) (r : jres unit) :
  setRecordField k field v st = Some (r, st') -> same_off k st st'.
Proof.
  unfold setRecordField, bind, record, modify, throw.
  destruct (default JUndefined (runningDownloads st !! k)); intros [= <- <-];
    try apply same_off_refl.
  split; [reflexivity |]. intros k' Hk. simpl. now rewrite lookup_insert_ne by congruence.
Qed.

(** A listener touches the record of its own download only. *)
Lemma onSink_frame (k : string) (e : sink_event) (st st' : dm_state) (r : jres unit) :
  onSink now k req e st = Some (r, st') -> same_off k st st'.
Proof.
  destruct e as [v | v | v]; simpl.
  - unfold onOutput. unfold bind at 1. unfold record at 1.
    unfold bind at 1. unfold lift at 1.
    destruct (get _ "lastLog") as [lastLog | e]; [| intros [= <- <-]; apply same_off_refl].
    unfold bind at 1.
    destruct lastLog; try (intros [= <- <-]; apply same_off_refl).
    destruct (setRecordField k "lastLog" _ st) as [[[[] | e] st1] |] eqn:Hset;
      [| intros [= <- <-]; eapply setRecordField_frame, Hset | discriminate].
    intros H. apply (reply_frame k) in H as [_ H].
    eapply same_off_trans; [eapply setRecordField_frame, Hset | exact H].
  - unfold onProgress. unfold bind at 1.
    destruct (setRecordField k "progressSnapshot" _ st) as [[[[] | e] st1] |] eqn:Hset1;
      [| intros [= <- <-]; eapply setRecordField_frame, Hset1 | discriminate].
    unfold bind at 1.
    destruct (setRecordField k "downloadState" _ st1) as [[[[] | e] st2] |] eqn:Hset2;
      [| intros [= <- <-];
         eapply same_off_trans; eapply setRecordField_frame; eassumption
       | discriminate].
    intros H. apply (reply_frame k) in H as [_ H].
    eapply same_off_trans; [eapply setRecordField_frame, Hset1 |].
    eapply same_off_trans; [eapply setRecordField_frame, Hset2 | exact H].
  - intros [= <- <-]. apply same_off_refl.
Qed.

Lemma forEach_onSink_frame (k : string) (l : list sink_event) :
  forall (st st' : dm_state) (r : jres unit),
  forEach (onSink now k req) l st = Some (r, st') -> same_off k st st'.
Proof.
  induction l as [| e l IH]; intros st st' r; simpl.
  - intros [= <- <-]. apply same_off_refl.
  - unfold bind.
    destruct (onSink now k req e st) as [[[[] | e'] st1] |] eqn:H1; [| | discriminate].
    + intros H. eapply same_off_trans; [eapply onSink_frame, H1 | eapply IH, H].
    + intros [= <- <-]. eapply onSink_frame, H1.
Qed.

(** What the [switch] after the ack leaves in the tracking object and in
    the lock directory. *)
Lemma runDownload_outcome (fuel : nat) (lockId : string) (gameInfo downloadType : jsval)
    (st st' : dm_state) (r : jres unit) :
  tracked key st ->
  get gameInfo "downloadType" = Ret downloadType ->
  runDownload now isoTimestamp resolvePath debug fuel w key lockId req gameInfo st =
    Some (r, st') ->
  r = Ret tt /\
  (forall k, k <> key -> runningDownloads st' !! k = runningDownloads st !! k) /\
  exists how,
    ending isoTimestamp resolvePath debug fuel w req gameInfo = Some how /\
    match how with
    | Done =>
        runningDownloads st' !! key = None /\
        lockDir st' = Lock.releaseLock lockId (lockDir st)
    | Failed =>
        runningDownloads st' !! key = Some (JObj []) /\
        lockDir st' = Lock.releaseLock lockId (lockDir st)
    | Ignored => tracked key st' /\ lockDir st' = lockDir st
    end.
Proof.
  intros Ht Hdt. unfold runDownload, ending, awaited.
  assert (Hprop : prop gameInfo "downloadType" = downloadType)
    by (unfold prop; now rewrite Hdt).
  rewrite Hprop. unfold bind at 1. unfold lift at 1. rewrite Hdt.
  destruct (strict_eq_text downloadType "steamcmd").
  2:{ unfold bind, setPingReply, emit, modify, release. rewrite Hrel.
      unfold req. rewrite reply_object. intros [= <- <-].
      split; [reflexivity |]. split.
      - intros k Hk. simpl. now rewrite lookup_insert_ne by congruence.
      - exists Failed. split; [reflexivity |]. split; [apply lookup_insert_eq | reflexivity]. }
  match goal with
  | |- try_catch ?b ?h st = _ -> _ => set (body := b); set (handler := h)
  end.
  assert (Hcatch : forall e st0 r0 st1,
             handler e st0 = Some (r0, st1) ->
             r0 = Ret tt /\
             (forall k, k <> key -> runningDownloads st1 !! k = runningDownloads st0 !! k) /\
             if nullish e then st1 = st0
             else runningDownloads st1 !! key = Some (JObj []) /\
                  lockDir st1 = Lock.releaseLock lockId (lockDir st0)).
  { intros e st0 r0 st1. unfold handler. destruct (nullish e); cbn [negb].
    - intros [= <- <-]. auto.
    - unfold bind, unsubscribe, setPingReply, emit, modify, release. rewrite Hrel.
      unfold req. rewrite reply_object. intros [= <- <-].
      split; [reflexivity |]. split.
      + intros k Hk. simpl. now rewrite lookup_insert_ne by congruence.
      + split; [apply lookup_insert_eq | reflexivity]. }
  unfold body, try_catch.
  destruct (steamCmdDownloadSelf _ _) as [v0 | e0].
  2:{ unfold await, throw, bind. intros H. apply Hcatch in H as (-> & Hoff & Hend).
      split; [reflexivity |]. split; [exact Hoff |].
      exists (if nullish e0 then Ignored else Failed). split; [reflexivity |].
      destruct (nullish e0); [subst st'; auto | exact Hend]. }
  unfold await at 1. unfold bind at 1. unfold ret at 1.
  unfold bind at 1. unfold awaitDownloadAppid at 1.
  destruct (steamCmdDownloadAppid _ _ _ _ _ _ _ _) as [[s rs] |] eqn:Happ;
    [| discriminate].
  cbn [option_map fst].
  destruct (forEach_onSink_ok now request key (sunk rs) st Ht)
    as (st1 & evs1 & Hrun & Hb1 & Hc1 & Ht1).
  destruct (forEach_onSink_frame key _ _ _ _ Hrun) as [Hl1 Hm1].
  fold req.
  rewrite (bind_ret_eq _ _ _ _ _ Hrun).
  destruct s as [result | e].
  - apply steamCmdDownloadAppid_resolves_object in Happ as [ro ->].
    destruct Ht1 as (o & l & Hrec & Hlog).
    unfold await, ret.
    rewrite (bind_ret_eq _ _ _ _ _ (setRecordField_eq key _ _ o st1 Hrec)).
    unfold bind at 1. unfold lift at 1. cbn [get].
    rewrite (bind_ret_eq _ _ _ _ _
               (setRecordField_eq key "downloadState" _
                  (set_field "downloadLocked" (JBool false) o) _ (lookup_insert_eq _ _ _))).
    unfold req. rewrite (bind_ret_eq _ _ _ _ _ (reply_object _ _ _ _ _)).
    unfold unsubscribe at 1. unfold emit at 1. unfold modify at 1. unfold bind at 1.
    match goal with
    | |- context [bind (setRecordField key "downloadLocked" ?v) ?k ?S] =>
        assert (Hl : exists o', runningDownloads S !! key = Some (JObj o'))
          by (eexists; cbn [runningDownloads published with_downloads];
              apply lookup_insert_eq);
        destruct Hl as [o' Hl];
        rewrite (bind_ret_eq _ _ _ _ _ (setRecordField_eq key "downloadLocked" v o' S Hl))
    end.
    unfold bind, setPingReply, emit, modify, release. rewrite Hrel.
    intros H. injection H as <- <-.
    split; [reflexivity |]. split.
    + intros k Hk. cbn [runningDownloads with_downloads with_lockDir published].
      rewrite lookup_delete_ne, !lookup_insert_ne by congruence. now apply Hm1.
    + exists Done. split; [reflexivity |].
      cbn [runningDownloads lockDir with_downloads with_lockDir published].
      split; [apply lookup_delete_eq | now rewrite Hl1].
  - unfold await, throw.
    intros H. apply Hcatch in H as (-> & Hoff & Hend).
    split; [reflexivity |]. split.
    + intros k Hk. rewrite Hoff by exact Hk. now apply Hm1.
    + exists (if nullish e then Ignored else Failed). split; [reflexivity |].
      destruct (nullish e).
      * subst st'. split; [exact Ht1 | exact Hl1].
      * destruct Hend as [Hk Hl]. split; [exact Hk | now rewrite Hl, Hl1].
Qed.

(** The two ways a run of the handler can go: it ends before the ack, or
    it acks the request and hands over to the [switch]. *)
Lemma serve_cases (fuel : nat) (st st' : dm_state) (r : jres unit) :
  serve fuel w req st = Some (r, st') ->
  (after_ack replyTo (skipn (length (bus st)) (bus st')) = None /\
   (r = Ret tt ->
    runningDownloads st' = runningDownloads st /\
    (lockDir st' = lockDir st \/
     lockDir st' = Lock.releaseLock globalLockId (lockDir st))))
  \/
  (exists gameInfo downloadType st_ack m,
     truthy (prop req "gameId") && includes_value supportedGames (prop req "gameId") = true /\
     w_manifest w = Ret gameInfo /\
     get gameInfo "downloadType" = Ret downloadType /\
     runningDownloads st !! key = None /\
     existsb (String.eqb globalLockId) (lockDir st) = false /\
     tracked key st_ack /\
     (forall k, k <> key -> runningDownloads st_ack !! k = runningDownloads st !! k) /\
     lockDir st_ack = lockDir st ++ [globalLockId] /\
     bus st_ack =
       bus st ++ [SetPingReply moduleIdent "downloading";
                  Publish (replyTo ++ "." ++ "ack")%string m] /\
     runDownload now isoTimestamp resolvePath debug fuel w key globalLockId req gameInfo
       st_ack = Some (r, st')).
Proof.
  unfold serve, downloadUpdateGame.
  unfold bind at 1. unfold lift at 1. unfold req at 1. cbn [get].
  change (to_string (default JUndefined (lookup_field "gameId" request))) with key.
  change ("downloadGame-" ++ key)%string with globalLockId.
  change (prop req "gameId") with (default JUndefined (lookup_field "gameId" request)).
  set (gameId := default JUndefined (lookup_field "gameId" request)).
  destruct (truthy gameId); cbn [negb andb].
  2:{ unfold req. rewrite reply_object. intros [= <- <-]. left.
      split; [apply (after_ack_one request); reflexivity | auto]. }
  destruct (includes_value supportedGames gameId); cbn [negb].
  2:{ unfold req. rewrite reply_object. intros [= <- <-]. left.
      split; [apply (after_ack_one request); reflexivity | auto]. }
  destruct (w_manifest w) as [gameInfo | error] eqn:Hman.
  2:{ unfold bind at 1. unfold lift at 1.
      destruct (get error "message") as [message | e].
      - unfold req. rewrite (bind_ret_eq _ _ _ _ _ (reply_object _ _ _ _ _)).
        unfold release. rewrite Hrel. intros [= <- <-]. left.
        split; [apply (after_ack_one request); reflexivity | auto].
      - intros [= <- <-]. left. split; [apply (after_ack_nothing request) | discriminate]. }
  unfold bind at 1.
  destruct (runningDownloads st !! key) as [running |] eqn:Hrec.
  { unfold bind at 1. unfold lift at 1.
    destruct (get running "request") as [inflight | e];
      [| intros [= <- <-]; left; split; [apply (after_ack_nothing request) | discriminate]].
    unfold bind at 1. unfold lift at 1.
    destruct (get inflight "replyTo") as [subscribeTo | e];
      [| intros [= <- <-]; left; split; [apply (after_ack_nothing request) | discriminate]].
    unfold bind at 1. unfold lift at 1.
    destruct (get inflight "requestId") as [requestId | e];
      [| intros [= <- <-]; left; split; [apply (after_ack_nothing request) | discriminate]].
    unfold req. rewrite reply_object. intros [= <- <-]. left.
    split; [apply (after_ack_one request); reflexivity | auto]. }
  unfold bind at 1. unfold lift at 1.
  destruct (get gameInfo "downloadId") as [downloadId | e] eqn:Hid;
    [| intros [= <- <-]; left; split; [apply (after_ack_nothing request) | discriminate]].
  destruct (get_receiver _ _ _ "downloadType" Hid) as [downloadType Hdt].
  unfold bind at 1. unfold modify at 1.
  unfold bind at 1. unfold try_catch at 1. unfold bind at 1. unfold spinLock.
  assert (Hfail : forall (e : jsval) (k : bool -> M unit),
             match (modify (with_downloads (delete key));;
                    message <- lift (get e "message");;
                    reply now "error" (JObj [("error", message)]) req;; ret false)%dm
                     (with_downloads
                        (insert key
                           (JObj [("request", req); ("gameId", gameId);
                                  ("downloadId", downloadId); ("downloadLocked", JBool true);
                                  ("downloadState", JStr "checking locks");
                                  ("lastLog", JArr []); ("progressSnapshot", JObj []);
                                  ("error", JNull)])) st) with
             | Some (Ret a, st0) => (if negb a then ret tt else k a) st0
             | Some (Throw e', st0) => Some (Throw e', st0)
             | None => None
             end = Some (r, st') ->
             after_ack replyTo (skipn (length (bus st)) (bus st')) = None /\
             runningDownloads st' = runningDownloads st /\ lockDir st' = lockDir st).
  { intros e k. unfold bind at 1. unfold modify at 1.
    unfold bind at 1. unfold lift at 1.
    destruct (get e "message") as [message | e'].
    - unfold req. rewrite (bind_ret_eq _ _ _ _ _ (reply_object _ _ _ _ _)).
      unfold ret. cbn [negb]. intros [= <- <-].
      cbn [bus runningDownloads lockDir published with_downloads].
      split; [apply (after_ack_one request); reflexivity |].
      split; [now apply delete_insert_id | reflexivity].
    - intros [= <- <-]. cbn [bus runningDownloads lockDir with_downloads].
      split; [apply (after_ack_nothing request) |].
      split; [now apply delete_insert_id | reflexivity]. }
  destruct (w_spinLock w) as [[] | e1].
  2:{ unfold throw at 1. intros H. apply Hfail in H as (Ha & Hm & Hl). left. auto. }
  cbn [lockDir with_downloads].
  destruct (Lock.acquireLock _ (lockDir st)) as [d | e2] eqn:Hacq.
  2:{ intros H. apply Hfail in H as (Ha & Hm & Hl). left. auto. }
  clear Hfail. unfold ret at 1. cbn [negb].
  pose proof (release_acquired _ _ _ Hacq) as Hback.
  apply acquireLock_inv in Hacq as [Hfree Hd].
  set (st_locked := with_lockDir _ _).
  assert (Hbl : bus st_locked = bus st) by reflexivity.
  assert (Hll : lockDir st_locked = d) by reflexivity.
  assert (Hml : runningDownloads st_locked =
                <[key := JObj [("request", req); ("gameId", gameId);
                               ("downloadId", downloadId); ("downloadLocked", JBool true);
                               ("downloadState", JStr "checking locks");
                               ("lastLog", JArr []); ("progressSnapshot", JObj []);
                               ("error", JNull)]]> (runningDownloads st)) by reflexivity.
  assert (Hrl : runningDownloads st_locked !! key =
                Some (JObj [("request", req); ("gameId", gameId);
                            ("downloadId", downloadId); ("downloadLocked", JBool true);
                            ("downloadState", JStr "checking locks");
                            ("lastLog", JArr []); ("progressSnapshot", JObj []);
                            ("error", JNull)]))
    by (rewrite Hml; apply lookup_insert_eq).
  clearbody st_locked.
  unfold bind at 1. unfold try_catch at 1. unfold bind at 1. unfold lift at 1.
  destruct (w_spinClear w) as [[] | e3].
  2:{ unfold bind at 1. unfold lift at 1.
      destruct (get e3 "message") as [message | e'].
      - unfold req. rewrite (bind_ret_eq _ _ _ _ _ (reply_object _ _ _ _ _)).
        unfold bind, modify, release, ret. rewrite Hrel. cbn [negb].
        intros [= <- <-]. left.
        cbn [bus runningDownloads lockDir published with_downloads with_lockDir].
        rewrite Hbl, Hml, Hll.
        split; [apply (after_ack_one request); reflexivity |]. intros _.
        split; [now apply delete_insert_id | left; exact Hback].
      - intros [= <- <-]. left. rewrite Hbl.
        split; [apply (after_ack_nothing request) | discriminate]. }
  unfold ret at 1. cbn [negb].
  rewrite (bind_ret_eq _ _ _ _ _ (setRecordField_eq key _ _ _ _ Hrl)).
  destruct (truthy (prop req "steamcmdMultiFactorEnabled")).
  { unfold req. rewrite (bind_ret_eq _ _ _ _ _ (reply_object _ _ _ _ _)).
    unfold bind, modify, release. rewrite Hrel.
    intros [= <- <-]. left.
    cbn [bus runningDownloads lockDir published with_downloads with_lockDir].
    rewrite Hbl, Hml, Hll.
    split; [apply (after_ack_one request); reflexivity |]. intros _.
    split; [| left; exact Hback].
    rewrite delete_insert_eq. now apply delete_insert_id. }
  unfold setPingReply at 1. unfold emit at 1. unfold bind at 1. unfold modify at 1.
  unfold req at 3. rewrite (bind_ret_eq _ _ _ _ _ (reply_object _ _ _ _ _)).
  fold req.
  intros Hrun. right.
  eexists gameInfo, downloadType, _, _.
  split; [reflexivity |].
  split; [reflexivity |]. split; [exact Hdt |]. split; [reflexivity |].
  split; [exact Hfree |].
  split; [| split; [| split; [| split; [| exact Hrun]]]].
  - apply tracked_published. eexists _, []. split.
    + cbn [runningDownloads with_downloads]. apply lookup_insert_eq.
    + reflexivity.
  - intros k Hk. cbn [runningDownloads published with_downloads].
    rewrite lookup_insert_ne by congruence. rewrite Hml.
    now rewrite lookup_insert_ne by congruence.
  - cbn [lockDir published with_downloads]. now rewrite Hll.
  - cbn [bus published with_downloads]. rewrite Hbl, <- app_assoc. reflexivity.
Qed.

Lemma acked_bus (st st_ack st' : dm_state) (m : jsval) (evs : list ipc_event) :
  bus st_ack =
    bus st ++ [SetPingReply moduleIdent "downloading";
               Publish (replyTo ++ "." ++ "ack")%string m] ->
  bus st' = bus st_ack ++ evs ->
  after_ack replyTo (skipn (length (bus st)) (bus st')) = Some evs.
Proof.
  intros Hack Hb. rewrite Hb, Hack, <- !app_assoc, drop_app_length.
  cbn [app after_ack is_ack].
  change (replyTo ++ ".ack")%string with (replyTo ++ "." ++ "ack")%string.
  now rewrite String.eqb_refl.
Qed.

Lemma release_own (d : Lock.lock_dir) :
  existsb (String.eqb globalLockId) d = false ->
  Lock.releaseLock globalLockId (d ++ [globalLockId]) = d.
Proof.
  intros Hfree. apply release_acquired.
  unfold Lock.acquireLock. now rewrite Hfree.
Qed.

(** X12. A request that the handler turns down before the ack (no usable
    game, manifest missing, download already requested, lock wait failed,
    two-factor login asked for) leaves the tracking object exactly as
    it was: no task record stays behind. *)
Theorem refused_request_keeps_tracking (fuel : nat) (st st' : dm_state) :
  serve fuel w req st = Some (Ret tt, st') ->
  after_ack replyTo (skipn (length (bus st)) (bus st')) = None ->
  runningDownloads st' = runningDownloads st.
Proof.
  intros Hrun Hno.
  destruct (serve_cases _ _ _ _ Hrun) as [[_ H] | H].
  - now destruct (H eq_refl).
  - destruct H as (gameInfo & downloadType & st_ack & m & _ & _ & Hdt & _ & _ & Ht & _ & _ & Hbus & Hsw).
    destruct (runDownload_terminal now isoTimestamp resolvePath debug w Hrel request key
                fuel globalLockId gameInfo downloadType st_ack st' (Ret tt) Ht Hdt Hsw)
      as (evs & Hb & _).
    rewrite (acked_bus _ _ _ _ _ Hbus Hb) in Hno. discriminate.
Qed.

(** X13. A download that has been acked and resolves, completed or
    canceled, leaves no trace: when the handler returns, the tracking
    object and the lock directory are what they were before the
    request. *)
Theorem resolved_download_leaves_no_trace (fuel : nat) (gameInfo : jsval)
    (st st' : dm_state) (r : jres unit) (post : list ipc_event) :
  w_manifest w = Ret gameInfo ->
  serve fuel w req st = Some (r, st') ->
  after_ack replyTo (skipn (length (bus st)) (bus st')) = Some post ->
  ending isoTimestamp resolvePath debug fuel w req gameInfo = Some Done ->
  r = Ret tt /\ runningDownloads st' = runningDownloads st /\ lockDir st' = lockDir st.
Proof.
  intros Hman Hrun Hack Hend.
  destruct (serve_cases _ _ _ _ Hrun) as [[Hno _] | H]; [congruence |].
  destruct H as (gameInfo' & downloadType & st_ack & m & _ & Hman' & Hdt & Hrec & Hfree
                 & Ht & Hoff & Hlock & _ & Hsw).
  assert (gameInfo' = gameInfo) as -> by congruence.
  destruct (runDownload_outcome _ _ _ _ _ _ _ Ht Hdt Hsw) as (-> & Hoff' & how & Hhow & Hst).
  assert (how = Done) as -> by congruence.
  destruct Hst as [Hkey Hl].
  split; [reflexivity |]. split.
  - apply map_eq. intros k. destruct (decide (k = key)) as [-> | Hne].
    + now rewrite Hkey, Hrec.
    + now rewrite Hoff', Hoff.
  - rewrite Hl, Hlock. now apply release_own.
Qed.

(** X14. A download that has been acked and fails leaves the empty
    object under the key of the game, and from then on the game cannot
    be requested: the handler takes every later request for it for a
    duplicate, reads the [replyTo] of a request the empty object does not
    have, and throws before it publishes anything. *)
Theorem failed_download_blocks_game (fuel : nat) (gameInfo : jsval)
    (st st' : dm_state) (r : jres unit) (post : list ipc_event) :
  w_manifest w = Ret gameInfo ->
  serve fuel w req st = Some (r, st') ->
  after_ack replyTo (skipn (length (bus st)) (bus st')) = Some post ->
  ending isoTimestamp resolvePath debug fuel w req gameInfo = Some Failed ->
  runningDownloads st' !! key = Some (JObj []) /\
  forall (fuel2 : nat) (w2 : world) (request2 : jsobj) (gameInfo2 : jsval),
    prop (JObj request2) "gameId" = prop req "gameId" ->
    w_manifest w2 = Ret gameInfo2 ->
    serve fuel2 w2 (JObj request2) st' =
    Some (Throw (typeError "Cannot read properties of undefined (reading 'replyTo')"), st').
Proof.
  intros Hman Hrun Hack Hend.
  destruct (serve_cases _ _ _ _ Hrun) as [[Hno _] | H]; [congruence |].
  destruct H as (gameInfo' & downloadType & st_ack & m & Hgame & Hman' & Hdt & Hrec & Hfree
                 & Ht & Hoff & Hlock & _ & Hsw).
  assert (gameInfo' = gameInfo) as -> by congruence.
  destruct (runDownload_outcome _ _ _ _ _ _ _ Ht Hdt Hsw) as (-> & Hoff' & how & Hhow & Hst).
  assert (how = Failed) as -> by congruence.
  destruct Hst as [Hkey Hl].
  split; [exact Hkey |].
  intros fuel2 w2 request2 gameInfo2 Hsame Hman2.
  apply andb_true_iff in Hgame as [Htruthy Hsupported].
  unfold serve, downloadUpdateGame.
  unfold bind at 1. unfold lift at 1. cbn [get].
  change (default JUndefined (lookup_field "gameId" request2))
    with (prop (JObj request2) "gameId").
  rewrite Hsame, Htruthy, Hsupported. cbn [negb]. rewrite Hman2.
  unfold bind at 1. fold key. rewrite Hkey. reflexivity.
Qed.

(** X15. The handler leaves the lock directory as it found it: when the
    lock of the game is free before the request and the handler returns,
    every lock it created has been released and no other lock has been
    touched, unless the awaited work rejected with [null] or
    [undefined]. *)
Theorem lock_directory_restored (fuel : nat) (st st' : dm_state) :
  existsb (String.eqb globalLockId) (lockDir st) = false ->
  (forall gameInfo, w_manifest w = Ret gameInfo ->
     ending isoTimestamp resolvePath debug fuel w req gameInfo <> Some Ignored) ->
  serve fuel w req st = Some (Ret tt, st') ->
  lockDir st' = lockDir st.
Proof.
  intros Hfree Hnot Hrun.
  destruct (serve_cases _ _ _ _ Hrun) as [[_ H] | H].
  - destruct (H eq_refl) as [_ [Hl | Hl]]; [exact Hl |].
    rewrite Hl. now apply releaseLock_absent.
  - destruct H as (gameInfo & downloadType & st_ack & m & _ & Hman & Hdt & _ & _
                   & Ht & _ & Hlock & _ & Hsw).
    destruct (runDownload_outcome _ _ _ _ _ _ _ Ht Hdt Hsw) as (_ & _ & how & Hhow & Hst).
    destruct how.
    + destruct Hst as [_ ->]. rewrite Hlock. now apply release_own.
    + destruct Hst as [_ ->]. rewrite Hlock. now apply release_own.
    + now destruct (Hnot gameInfo Hman).
Qed.

End Accounting.

Lemma refused_request_keeps_tracking_witness :
  exists st',
    handle 5 (calm world_42_once) (request_from "cli" "r2" "xyzzy") downloading =
      Some (Ret tt, st') /\
    runningDownloads st' = runningDownloads downloading.
Proof.
  eexists. split; [reflexivity |].
  apply (refused_request_keeps_tracking msClock isoClock (fun p => p) false
           (calm world_42_once) eq_refl (request_fields "cli" "r2" "xyzzy") 5 downloading).
  - reflexivity.
  - reflexivity.
Defined.

Lemma resolved_download_leaves_no_trace_witness :
  exists st',
    handle 5 (calm world_42_once) (request_from "cli" "r1" "csgo") idle = Some (Ret tt, st') /\
    runningDownloads st' = runningDownloads idle /\ lockDir st' = lockDir idle.
Proof.
  destruct (handle 5 (calm world_42_once) (request_from "cli" "r1" "csgo") idle)
    as [[r st'] |] eqn:Hrun; [| vm_compute in Hrun; discriminate].
  destruct (after_ack "cli.r1" (skipn (length (bus idle)) (bus st')))
    as [post |] eqn:Hack.
  2:{ vm_compute in Hrun. injection Hrun as <- <-. vm_compute in Hack. discriminate. }
  destruct (resolved_download_leaves_no_trace msClock isoClock (fun p => p) false
              (calm world_42_once) eq_refl (request_fields "cli" "r1" "csgo")
              5 csgo_manifest idle st' r post eq_refl Hrun Hack eq_refl)
    as (-> & Hm & Hl).
  exists st'. auto.
Defined.

Lemma failed_download_blocks_game_witness :
  exists st',
    handle 5 (calm (fun _ => exits 1)) (request_from "cli" "r1" "csgo") idle =
      Some (Ret tt, st') /\
    runningDownloads st' !! "csgo"%string = Some (JObj []) /\
    handle 5 (calm (fun _ => exits 0)) (request_from "cli" "r2" "csgo") st' =
      Some (Throw (typeError "Cannot read properties of undefined (reading 'replyTo')"), st').
Proof.
  destruct (handle 5 (calm (fun _ => exits 1)) (request_from "cli" "r1" "csgo") idle)
    as [[r st'] |] eqn:Hrun; [| vm_compute in Hrun; discriminate].
  destruct (after_ack "cli.r1" (skipn (length (bus idle)) (bus st')))
    as [post |] eqn:Hack.
  2:{ vm_compute in Hrun. injection Hrun as <- <-. vm_compute in Hack. discriminate. }
  destruct (failed_download_blocks_game msClock isoClock (fun p => p) false
              (calm (fun _ => exits 1)) eq_refl (request_fields "cli" "r1" "csgo")
              5 csgo_manifest idle st' r post eq_refl Hrun Hack eq_refl)
    as (Hkey & Hnext).
  exists st'. split.
  - assert (r = Ret tt) as -> by (vm_compute in Hrun; congruence). reflexivity.
  - split; [exact Hkey |].
    exact (Hnext 5%nat (calm (fun _ => exits 0)) (request_fields "cli" "r2" "csgo")
             csgo_manifest eq_refl eq_refl).
Defined.

Lemma lock_directory_restored_witness :
  exists st',
    handle 5 (calm (fun _ => exits 1)) (request_from "cli" "r1" "csgo") idle =
      Some (Ret tt, st') /\
    lockDir st' = ["downloadManager"%string].
Proof.
  destruct (handle 5 (calm (fun _ => exits 1)) (request_from "cli" "r1" "csgo") idle)
    as [[r st'] |] eqn:Hrun; [| vm_compute in Hrun; discriminate].
  assert (r = Ret tt) as -> by (vm_compute in Hrun; congruence).
  exists st'. split; [reflexivity |].
  apply (lock_directory_restored msClock isoClock (fun p => p) false
           (calm (fun _ => exits 1)) eq_refl (request_fields "cli" "r1" "csgo") 5 idle st').
  - reflexivity.
  - intros gameInfo [= <-]. vm_compute. discriminate.
  - exact Hrun.
Defined.

(** ** The coordinator as a client *)

Section Client.

Variable target msgId : string.

Let ping : ipc_event := Publish (target ++ ".ping") (pingRequest msgId).

Lemma wait_snoc (timeout : Z) (events : list wait_event) (e : wait_event) :
  waitModuleRunning target msgId timeout (events ++ [e]) =
  wait_step target msgId timeout (waitModuleRunning target msgId timeout events) e.
Proof. unfold waitModuleRunning. now rewrite fold_left_app. Qed.

Lemma ticks_snoc (events : list wait_event) (e : wait_event) :
  Views.ticks (events ++ [e]) =
  (Views.ticks events + match e with Tick => 1 | _ => 0 end)%nat.
Proof.
  unfold Views.ticks. rewrite List.filter_app, length_app. now destruct e.
Qed.

Lemma repeat_snoc {A} (x : A) (n : nat) : repeat x n ++ [x] = repeat x (S n).
Proof. induction n as [| n IH]; simpl; [reflexivity | now rewrite IH]. Qed.

(** The state of a wait that no ready reply has reached, by the number
    of times its interval has fired. *)
Lemma wait_unanswered (n : nat) (events : list wait_event) :
  Forall (fun e => Views.ready e = false) events ->
  waitModuleRunning target msgId (Z.of_nat (S n)) events =
  if Nat.leb (S n) (Views.ticks events)
  then {| pingCounter := Z.of_nat (S n); interval := false;
          outcome := Settled (Rejected (JErr "Timeout exceeded"));
          pings := repeat ping n |}
  else {| pingCounter := Z.of_nat (Views.ticks events); interval := true;
          outcome := Pending; pings := repeat ping (Views.ticks events) |}.
Proof.
  induction events as [| e events IH] using rev_ind; intros Hall.
  - reflexivity.
  - apply Forall_app in Hall as [Hall He]. apply Forall_inv in He.
    rewrite wait_snoc, ticks_snoc, IH by exact Hall. clear IH.
    destruct e as [| uptime | uptime]; cbn [Views.ready] in He.
    + destruct (Nat.leb_spec (S n) (Views.ticks events)) as [Hle | Hlt].
      * destruct (Nat.leb_spec (S n) (Views.ticks events + 1)); [reflexivity | lia].
      * cbn [wait_step interval pingCounter outcome pings].
        destruct (Z.leb_spec (Z.of_nat (S n)) (Z.of_nat (Views.ticks events) + 1)) as [Hz | Hz];
          destruct (Nat.leb_spec (S n) (Views.ticks events + 1)) as [Hn | Hn]; try lia.
        -- assert (Views.ticks events = n) as -> by lia.
           cbn [settle_once]. f_equal. lia.
        -- fold ping. rewrite repeat_snoc.
           replace (Views.ticks events + 1)%nat with (S (Views.ticks events)) by lia.
           f_equal. lia.
    + rewrite Nat.add_0_r. cbn [wait_step]. now rewrite He.
    + rewrite Nat.add_0_r. cbn [wait_step]. now rewrite He.
Qed.

(** X18. While no reply of a module that has been up for five seconds
    arrives, [waitModuleRunning] with a timeout of [n + 1] sends one ping
    at each of the first [n] firings of its interval and rejects with
    'Timeout exceeded' at firing [n + 1], without a ping; replies of a
    younger module change nothing. *)
Theorem wait_rejects_at_timeout (n : nat) (events : list wait_event) :
  Forall (fun e => Views.ready e = false) events ->
  let s := waitModuleRunning target msgId (Z.of_nat (S n)) events in
  if Nat.leb (S n) (Views.ticks events)
  then outcome s = Settled (Rejected (JErr "Timeout exceeded")) /\
       pings s = repeat (Publish (target ++ ".ping") (pingRequest msgId)) n
  else outcome s = Pending /\
       pings s = repeat (Publish (target ++ ".ping") (pingRequest msgId)) (Views.ticks events).
Proof.
  intros Hall s. subst s. rewrite wait_unanswered by exact Hall.
  destruct (Nat.leb (S n) (Views.ticks events)); split; reflexivity.
Qed.

Lemma wait_stopped (timeout : Z) (events : list wait_event) : forall s x,
  interval s = false ->
  outcome s = Settled x ->
  fold_left (wait_step target msgId timeout) events s = s.
Proof.
  induction events as [| e events IH]; intros s x Hi Ho; [reflexivity |].
  cbn [fold_left].
  assert (Hs : wait_step target msgId timeout s e = s).
  { destruct s as [c i o p]. cbn in Hi, Ho. subst i o.
    destruct e as [| uptime | uptime]; cbn; [reflexivity | |];
      now destruct (Z.leb 5000 uptime). }
  rewrite Hs. now apply (IH s x).
Qed.

(** X19. The first reply of a module that has been up for five seconds
    settles a pending wait: the promise resolves, no further ping is sent,
    and nothing that arrives later changes the outcome. *)
Theorem ready_pong_resolves (timeout uptime : Z) (pre post : list wait_event) :
  outcome (waitModuleRunning target msgId timeout pre) = Pending ->
  (5000 <= uptime)%Z ->
  let s := waitModuleRunning target msgId timeout (pre ++ Pong uptime :: post) in
  outcome s = Settled (Resolved JUndefined) /\
  pings s = pings (waitModuleRunning target msgId timeout pre).
Proof.
  intros Hp Hup s. subst s. unfold waitModuleRunning in *.
  rewrite fold_left_app. cbn [fold_left].
  set (s0 := fold_left _ pre wait_start) in *.
  assert (Hstep : wait_step target msgId timeout s0 (Pong uptime) =
                  {| pingCounter := pingCounter s0; interval := false;
                     outcome := Settled (Resolved JUndefined); pings := pings s0 |}).
  { cbn [wait_step]. apply Z.leb_le in Hup. now rewrite Hup, Hp. }
  rewrite Hstep, (wait_stopped _ _ _ (Resolved JUndefined)) by reflexivity.
  split; reflexivity.
Qed.

Lemma wait_stalled (timeout : Z) (events : list wait_event) : forall s,
  interval s = false ->
  Forall (fun e => match e with Pong u => (u < 5000)%Z | _ => True end) events ->
  fold_left (wait_step target msgId timeout) events s = s.
Proof.
  induction events as [| e events IH]; intros s Hi Hall; [reflexivity |].
  cbn [fold_left]. pose proof (Forall_inv Hall) as He. apply Forall_inv_tail in Hall.
  assert (Hs : wait_step target msgId timeout s e = s).
  { destruct s as [c i o p]. cbn in Hi. subst i.
    destruct e as [| uptime | uptime]; cbn; [reflexivity | |].
    - destruct (Z.leb_spec 5000 uptime); [lia | reflexivity].
    - now destruct (Z.leb 5000 uptime). }
  rewrite Hs. now apply IH.
Qed.

(** X20. A reply to an earlier wait, from a module that has been up for
    five seconds, clears the interval of the wait in progress: from then
    on this wait sends no ping and cannot time out, and it stays pending
    until a ready reply on its own channel arrives. *)
Theorem earlier_pong_stalls_wait (timeout uptime : Z) (pre post : list wait_event) :
  outcome (waitModuleRunning target msgId timeout pre) = Pending ->
  (5000 <= uptime)%Z ->
  Forall (fun e => match e with Pong u => (u < 5000)%Z | _ => True end) post ->
  let s := waitModuleRunning target msgId timeout (pre ++ EarlierPong uptime :: post) in
  outcome s = Pending /\
  pings s = pings (waitModuleRunning target msgId timeout pre).
Proof.
  intros Hp Hup Hall s. subst s. unfold waitModuleRunning in *.
  rewrite fold_left_app. cbn [fold_left].
  set (s0 := fold_left _ pre wait_start) in *.
  assert (Hstep : wait_step target msgId timeout s0 (EarlierPong uptime) =
                  {| pingCounter := pingCounter s0; interval := false;
                     outcome := outcome s0; pings := pings s0 |}).
  { cbn [wait_step]. apply Z.leb_le in Hup. now rewrite Hup. }
  rewrite Hstep, wait_stalled by (reflexivity || exact Hall).
  split; [exact Hp | reflexivity].
Qed.

End Client.

Lemma wait_rejects_at_timeout_witness :
  outcome (waitModuleRunning "downloadManager" "m1" 3 [Tick; Pong 1200; Tick; Tick; Tick]) =
    Settled (Rejected (JErr "Timeout exceeded")) /\
  pings (waitModuleRunning "downloadManager" "m1" 3 [Tick; Pong 1200; Tick; Tick; Tick]) =
    repeat (Publish "downloadManager.ping" (pingRequest "m1")) 2.
Proof.
  apply (wait_rejects_at_timeout "downloadManager" "m1" 2 [Tick; Pong 1200; Tick; Tick; Tick]).
  repeat constructor.
Defined.

Lemma ready_pong_resolves_witness :
  outcome (waitModuleRunning "downloadManager" "m1" 60 [Tick; Pong 6100; Tick]) =
    Settled (Resolved JUndefined) /\
  pings (waitModuleRunning "downloadManager" "m1" 60 [Tick; Pong 6100; Tick]) =
    pings (waitModuleRunning "downloadManager" "m1" 60 [Tick]).
Proof.
  apply (ready_pong_resolves "downloadManager" "m1" 60 6100 [Tick] [Tick]).
  - reflexivity.
  - lia.
Defined.

Lemma earlier_pong_stalls_wait_witness :
  outcome (waitModuleRunning "configManager" "m2" 2 [Tick; EarlierPong 9000; Tick; Tick; Tick]) =
    Pending /\
  pings (waitModuleRunning "configManager" "m2" 2 [Tick; EarlierPong 9000; Tick; Tick; Tick]) =
    pings (waitModuleRunning "configManager" "m2" 2 [Tick]).
Proof.
  apply (earlier_pong_stalls_wait "configManager" "m2" 2 9000 [Tick] [Tick; Tick; Tick]).
  - reflexivity.
  - lia.
  - repeat constructor.
Defined.

Lemma unheard_stays_pending (replyTo : string) (deliveries : list (string * jsval)) :
  Forall (fun d =>
            String.eqb (fst d) (replyTo ++ ".ack") = false /\
            String.eqb (fst d) (replyTo ++ ".nack") = false)
         deliveries ->
  downloadUpdateGame_from replyTo [] deliveries = Pending.
Proof.
  induction deliveries as [| [topic data] rest IH]; intros Hall; [reflexivity |].
  pose proof (Forall_inv Hall) as [Hack Hnack]. apply Forall_inv_tail in Hall.
  cbn [downloadUpdateGame_from existsb fst] in *.
  rewrite Hack, Hnack. now apply IH.
Qed.

(** X16. The promise of the coordinator's [downloadUpdateGame] stays
    pending as long as neither an ack nor a nack for its request has been
    delivered: before that it has subscribed to nothing else, so an
    error published on the reply channel goes unheard. *)
Theorem download_pending_until_ack (requestId : string)
    (deliveries : list (string * jsval)) :
  Forall (fun d =>
            String.eqb (fst d) ("lifecycleManager." ++ requestId ++ ".ack") = false /\
            String.eqb (fst d) ("lifecycleManager." ++ requestId ++ ".nack") = false)
         deliveries ->
  Lifecycle.downloadUpdateGame requestId deliveries = Pending.
Proof.
  intros Hall. unfold Lifecycle.downloadUpdateGame.
  apply unheard_stays_pending. exact Hall.
Qed.

Lemma download_pending_until_ack_witness :
  Lifecycle.downloadUpdateGame "r1"
    [("lifecycleManager.r1.error"%string, JObj [("error", JObj [])]);
     ("lifecycleManager.r1.finalStatus"%string, JObj [("reason", JStr "completed")])] =
  Pending.
Proof.
  apply (download_pending_until_ack "r1").
  repeat constructor.
Defined.

Section Unheard.

Variable now : nat -> Z.
Variable isoTimestamp : nat -> string.
Variable resolvePath : string -> string.
Variable debug : bool.

(** X17. A coordinator whose game the download manager does not support
    waits forever: the manager answers the request with one message, on
    the [error] channel, and the promise of the coordinator, which
    listens for ack and nack only, stays pending. *)
Theorem unsupported_game_leaves_coordinator_pending (fuel : nat) (w : world)
    (request : jsobj) (requestId : string) (st : dm_state) :
  prop (JObj request) "replyTo" = JStr ("lifecycleManager." ++ requestId) ->
  truthy (prop (JObj request) "gameId") &&
    includes_value supportedGames (prop (JObj request) "gameId") = false ->
  bus st = [] ->
  exists st',
    downloadUpdateGame now isoTimestamp resolvePath debug fuel w (JObj request) st =
      Some (Ret tt, st') /\
    Views.topics (bus st') = [("lifecycleManager." ++ requestId ++ ".error")%string] /\
    Lifecycle.downloadUpdateGame requestId (deliveries_of (bus st')) = Pending.
Proof.
  intros Hreply Hbad Hbus.
  rewrite (invalid_gameId_reply now isoTimestamp resolvePath debug fuel w request st Hbad).
  eexists. split; [reflexivity |].
  cbn [bus published]. rewrite Hbus, Hreply. cbn [app to_string].
  split; [reflexivity |].
  unfold Lifecycle.downloadUpdateGame. apply unheard_stays_pending.
  constructor; [| constructor]. cbn [fst].
  change (("lifecycleManager." ++ requestId) ++ ".error")%string
    with ((Lifecycle.moduleIdent ++ "." ++ requestId) ++ ".error")%string.
  rewrite !eqb_append_l. split; reflexivity.
Qed.

End Unheard.

Lemma unsupported_game_leaves_coordinator_pending_witness :
  exists st',
    handle 5 (calm world_42_once) (request_from "lifecycleManager" "r1" "tf2") idle =
      Some (Ret tt, st') /\
    Views.topics (bus st') = ["lifecycleManager.r1.error"%string] /\
    Lifecycle.downloadUpdateGame "r1" (deliveries_of (bus st')) = Pending.
Proof.
  exact (unsupported_game_leaves_coordinator_pending msClock isoClock (fun p => p) false
           5 (calm world_42_once) (request_fields "lifecycleManager" "r1" "tf2") "r1" idle
           eq_refl eq_refl eq_refl).
Defined.

(** ** Requests as the clients build them *)

Lemma wire_prop (k : string) (o : jsobj) (v : jsval) :
  lookup_field k o = Some v -> v <> JUndefined -> prop (wire (JObj o)) k = wire v.
Proof.
  intros Hk Hv. unfold prop. cbn [wire get].
  induction o as [| [k' x] o IH]; [discriminate |].
  cbn [lookup_field] in Hk. cbn [omap list_omap].
  destruct (String.eqb k k') eqn:E.
  - injection Hk as ->. destruct v; try congruence; cbn [lookup_field]; now rewrite E.
  - destruct x; cbn [lookup_field]; rewrite ?E; now apply IH.
Qed.

Lemma wire_prop_none (k : string) (o : jsobj) :
  lookup_field k o = None -> prop (wire (JObj o)) k = JUndefined.
Proof.
  intros Hk. unfold prop. cbn [wire get].
  induction o as [| [k' x] o IH]; [reflexivity |].
  cbn [lookup_field] in Hk. cbn [omap list_omap].
  destruct (String.eqb k k') eqn:E; [discriminate |].
  destruct x; cbn [lookup_field]; rewrite ?E; now apply IH.
Qed.

Section CliRequests.

Variable pathResolve : list string -> string.

Lemma downloadGame_fields (requestId : string) (argv request : jsobj) :
  Cli.downloadGame pathResolve requestId argv = Ret request ->
  lookup_field "anonymous" request =
    Some (JBool (negb (truthy (prop (JObj argv) "username")))) /\
  lookup_field "username" request = Some (js_or (prop (JObj argv) "password") (JStr "")) /\
  lookup_field "password" request = Some (js_or (prop (JObj argv) "password") (JStr "")) /\
  lookup_field "serverFilesForce" request =
    Some (js_or (prop (JObj argv) "clean") (JBool false)).
Proof.
  unfold Cli.downloadGame. destruct (Cli.missing _); [discriminate |].
  destruct (Cli.path_arg (js_or (prop (JObj argv) "root-directory") _)); [| discriminate].
  cbn [res_bind].
  destruct (Cli.path_arg (js_or (prop (JObj argv) "game") _)); [| discriminate].
  cbn [res_bind]. intros [= <-]. repeat split; reflexivity.
Qed.

(** X21. A download asked for on the command line with a user name logs
    in with the password in the place of the user name: the request
    carries the password under both names, and the login directive of
    the script built from it is '+login' followed by the password
    twice. *)
Theorem cli_login_repeats_password (requestId : string) (argv request : jsobj)
    (p : string) (gameInfo validate appid : jsval) (downloadDir : string) :
  Cli.downloadGame pathResolve requestId argv = Ret request ->
  truthy (prop (JObj argv) "username") = true ->
  prop (JObj argv) "password" = JStr p ->
  let o := appidOptions (wire (JObj request)) gameInfo in
  own_or o "username" JNull = JStr p /\
  nth 1 (appidScript downloadDir (own_or o "anonymous" (JBool true))
           (own_or o "username" JNull) (own_or o "password" JNull) validate appid) ""%string =
  ("+login " ++ p ++ " " ++ p)%string.
Proof.
  intros Hreq Hu Hp o.
  destruct (downloadGame_fields _ _ _ Hreq) as (Ha & Hn & Hw & _).
  rewrite Hu in Ha. rewrite Hp in Hn, Hw.
  assert (Hor : js_or (JStr p) (JStr "") = JStr p).
  { unfold js_or. simpl. destruct (String.eqb_spec p ""); [now subst |reflexivity]. }
  rewrite Hor in Hn, Hw.
  subst o. unfold own_or, appidOptions. cbn [lookup_field String.eqb Ascii.eqb Bool.eqb default].
  rewrite (wire_prop _ _ _ Ha), (wire_prop _ _ _ Hn), (wire_prop _ _ _ Hw) by discriminate.
  split; reflexivity.
Qed.

(** X22. A download asked for on the command line with the option to
    remove the old game files never starts: the request carries the
    boolean [true] as [serverFilesForce], on which [parseBool] throws,
    and [steamCmdDownloadAppid] rejects before it removes or spawns
    anything. *)
Theorem cli_clean_never_downloads (requestId : string) (argv request : jsobj)
    (isoTimestamp : nat -> string) (resolvePath : string -> string) (debug : bool)
    (fuel : nat) (gameInfo : jsval) (fs : fs_outcome) (world : nat -> child_run)
    (st : run_state) :
  Cli.downloadGame pathResolve requestId argv = Ret request ->
  prop (JObj argv) "clean" = JBool true ->
  steamCmdDownloadAppid isoTimestamp resolvePath debug fuel
    (appidOptions (wire (JObj request)) gameInfo) fs world st =
  Some (Rejected (typeError "string.toLowerCase is not a function"), st).
Proof.
  intros Hreq Hc.
  destruct (downloadGame_fields _ _ _ Hreq) as (_ & _ & _ & Hf).
  rewrite Hc in Hf.
  unfold steamCmdDownloadAppid, appidOptions.
  cbn [lookup_field String.eqb Ascii.eqb Bool.eqb].
  rewrite (wire_prop _ _ _ Hf) by discriminate. reflexivity.
Qed.

End CliRequests.

(** X23. A coordinator started with SERVER_FILES_FORCE set to a value
    that [parseBool] reads as true asks for a download that never starts:
    its request carries the boolean [true] as [serverFilesForce], and
    [steamCmdDownloadAppid] rejects with the TypeError of [parseBool]
    before it removes or spawns anything. *)
Theorem coordinator_files_force_never_downloads (pathResolve : list string -> string)
    (env : gmap string string) (options : jsobj) (requestId : string)
    (isoTimestamp : nat -> string) (resolvePath : string -> string) (debug : bool)
    (fuel : nat) (gameInfo : jsval) (fs : fs_outcome) (world : nat -> child_run)
    (st : run_state) :
  downloadUpdateGameOptions pathResolve env = Ret options ->
  parseBool (getenv env "SERVER_FILES_FORCE") = Ret true ->
  steamCmdDownloadAppid isoTimestamp resolvePath debug fuel
    (appidOptions (wire (JObj (downloadRequest requestId options))) gameInfo) fs world st =
  Some (Rejected (typeError "string.toLowerCase is not a function"), st).
Proof.
  intros Hopt Hforce.
  assert (Hf : lookup_field "serverFilesForce" (downloadRequest requestId options) =
               Some (JBool true)).
  { revert Hopt. unfold downloadUpdateGameOptions, serverFilesForce, flag.
    rewrite Hforce. cbn [res_bind].
    repeat match goal with
           | |- context [res_bind ?m _] =>
               match m with
               | Ret _ => fail 1
               | _ => destruct m; cbn [res_bind]; try discriminate
               end
           end.
    intros [= <-]. reflexivity. }
  unfold steamCmdDownloadAppid, appidOptions.
  cbn [lookup_field String.eqb Ascii.eqb Bool.eqb].
  rewrite (wire_prop _ _ _ Hf) by discriminate. reflexivity.
Qed.

Lemma cli_login_repeats_password_witness :
  exists request,
    Cli.downloadGame (join_with "/") "r1" argv_login = Ret request /\
    nth 1 (appidScript "/opt/gsm/base/csgo"
             (own_or (appidOptions (wire (JObj request)) csgo_manifest) "anonymous" (JBool true))
             (own_or (appidOptions (wire (JObj request)) csgo_manifest) "username" JNull)
             (own_or (appidOptions (wire (JObj request)) csgo_manifest) "password" JNull)
             (JBool false) (JStr "740")) ""%string =
    "+login hunter2 hunter2"%string.
Proof.
  eexists. split; [reflexivity |].
  exact (proj2 (cli_login_repeats_password (join_with "/") "r1" argv_login _ "hunter2"
                  csgo_manifest (JBool false) (JStr "740") "/opt/gsm/base/csgo"
                  eq_refl eq_refl eq_refl)).
Defined.

Lemma cli_clean_never_downloads_witness :
  exists request,
    Cli.downloadGame (join_with "/") "r1" argv_clean = Ret request /\
    steamCmdDownloadAppid isoClock (fun p => p) false 5
      (appidOptions (wire (JObj request)) csgo_manifest) no_fs_error (fun _ => exits 0) st0 =
    Some (Rejected (typeError "string.toLowerCase is not a function"), st0).
Proof.
  eexists. split; [reflexivity |].
  exact (cli_clean_never_downloads (join_with "/") "r1" argv_clean _ isoClock (fun p => p)
           false 5 csgo_manifest no_fs_error (fun _ => exits 0) st0 eq_refl eq_refl).
Defined.

Lemma coordinator_files_force_never_downloads_witness :
  exists options,
    downloadUpdateGameOptions (join_with "/") forced_env = Ret options /\
    steamCmdDownloadAppid isoClock (fun p => p) false 5
      (appidOptions (wire (JObj (downloadRequest "r1" options))) csgo_manifest)
      no_fs_error (fun _ => exits 0) st0 =
    Some (Rejected (typeError "string.toLowerCase is not a function"), st0).
Proof.
  destruct (downloadUpdateGameOptions (join_with "/") forced_env) as [options | e] eqn:Hopt;
    [| vm_compute in Hopt; discriminate].
  exists options. split; [reflexivity |].
  apply (coordinator_files_force_never_downloads (join_with "/") forced_env options "r1"
           isoClock (fun p => p) false 5 csgo_manifest no_fs_error (fun _ => exits 0) st0 Hopt).
  vm_compute. reflexivity.
Defined.

(** ** The repo manager *)

Section RepoFacts.

Variable now : nat -> Z.
Variable isoTimestamp : nat -> string.
Variable pathResolve : string -> string.
Variable w : RepoManager.world.
Variable rq : jsobj.

Let request : jsval := JObj rq.
Let replyTo : string := to_string (prop request "replyTo").
Let key : string := to_string (prop request "instanceId").
Let globalLockId : string := ("repoDownload-" ++ key)%string.

(** The message as [sendRequestReply] completes it for the repo
    manager. *)
Let sent (st : dm_state) (message : jsobj) : jsval :=
  JObj (set_field "timestamp" (JNum (now (clock st)))
          (set_field "moduleIdent" (JStr RepoManager.moduleIdent)
             (set_field "requestId" (prop request "requestId") message))).









(** The record the handler creates for the request. *)
Let record0 : jsval :=
  JObj [("request", request);
        ("instanceId", prop request "instanceId");
        ("downloadLocked", JBool true);
        ("downloadState", JUndefined);
        ("lastLog", JArr []);
        ("progressSnapshot", JObj []);
        ("error", JNull)].

Let st_locked (st : dm_state) : dm_state :=
  with_lockDir (fun _ => lockDir st ++ [globalLockId])
    (with_downloads (insert key record0) st).



Hypothesis Hrel : RepoManager.rw_release w = None.












End RepoFacts.

Section RepoRequests.

Variable now : nat -> Z.
Variable isoTimestamp : nat -> string.
Variable pathResolve : string -> string.



End RepoRequests.






(** ** The configuration request of the command line *)

Lemma wire_object (o : jsobj) :
  exists fields,
    wire (JObj o) = JObj fields /\
    (forall k v, lookup_field k o = Some v -> v <> JUndefined ->
                 lookup_field k fields = Some (wire v)) /\
    (forall k, lookup_field k o = None -> lookup_field k fields = None).
Proof.
  eexists. split; [reflexivity |]. split.
  - intros k v Hk Hv.
    induction o as [| [k' x] o IH]; [discriminate |].
    cbn [lookup_field] in Hk. cbn [omap list_omap].
    destruct (String.eqb k k') eqn:E.
    + injection Hk as ->. destruct v; try congruence; cbn [lookup_field]; now rewrite E.
    + destruct x; cbn [lookup_field]; rewrite ?E; now apply IH.
  - intros k Hk.
    induction o as [| [k' x] o IH]; [reflexivity |].
    cbn [lookup_field] in Hk. cbn [omap list_omap].
    destruct (String.eqb k k') eqn:E; [discriminate |].
    destruct x; cbn [lookup_field]; rewrite ?E; now apply IH.
Qed.

Lemma truthy_wire (v : jsval) : truthy (wire v) = truthy v.
Proof. now destruct v. Qed.

Lemma truthy_defined (v : jsval) : truthy v = true -> v <> JUndefined.
Proof. now intros H ->. Qed.

Lemma not_missing (v : jsval) : Cli.missing v = false -> truthy v = true.
Proof.
  unfold Cli.missing. intros H. apply orb_false_iff in H as [H _].
  now apply negb_false_iff in H.
Qed.

Lemma js_or_truthy (a b : jsval) : truthy b = true -> truthy (js_or a b) = true.
Proof. unfold js_or. intros Hb. now destruct (truthy a) eqn:E. Qed.

Section CliConfig.

Variable pathResolve : list string -> string.

(** X29. The configuration request of the command line names no git
    action.  The repo manager lets it pass its checks, unchanged but for
    [force = false], and goes on with a request whose action is neither
    'clone' nor 'pull': the case of the [switch] that answers
    'unsupported git action'. *)
Theorem cli_config_request_names_no_action (requestId : string) (argv request : jsobj) :
  Cli.downloadGameConfig pathResolve requestId argv = Ret request ->
  prop (JObj request) "repoDir" <> JStr "" ->
  exists fields rq,
    wire (JObj request) = JObj fields /\
    RepoManager.accepted fields = Some rq /\
    rq = RepoManager.withForce fields false /\
    lookup_field "action" rq = None /\
    strict_eq_text (prop (JObj rq) "action") "clone" = false /\
    strict_eq_text (prop (JObj rq) "action") "pull" = false /\
    prop (JObj rq) "replyTo" = JStr ("cli." ++ requestId) /\
    prop (JObj rq) "repoDir" = prop (JObj request) "repoDir".
Proof.
  unfold Cli.downloadGameConfig.
  destruct (Cli.missing (js_or (prop (JObj argv) "instance-id") _)) eqn:Hi; [discriminate |].
  destruct (Cli.missing (js_or (prop (JObj argv) "repo-url") _)) eqn:Hu; [discriminate |].
  destruct (Cli.missing (js_or (prop (JObj argv) "layer-ident") _)) eqn:Hl; [discriminate |].
  intros [= <-]. cbn [prop get lookup_field String.eqb Ascii.eqb Bool.eqb default from_option id].
  intros Hdir.
  match goal with
  | |- exists fields rq, wire (JObj ?o) = _ /\ _ =>
      destruct (wire_object o) as (fields & Hw & Hsome & Hnone)
  end.
  apply not_missing in Hu.
  assert (Hforce : lookup_field "force" fields = None) by (apply Hnone; reflexivity).
  assert (Hurl : lookup_field "repoUrl" fields =
                 Some (wire (js_or (prop (JObj argv) "repo-url") (JBool false))))
    by (apply Hsome; [reflexivity | now apply truthy_defined]).
  assert (Hbranch : lookup_field "repoBranch" fields =
                    Some (wire (js_or (prop (JObj argv) "branch") (JStr "main"))))
    by (apply Hsome; [reflexivity | now apply truthy_defined, js_or_truthy]).
  match type of Hdir with
  | JStr ?d <> _ =>
      assert (Hrepo : lookup_field "repoDir" fields = Some (JStr d))
        by (apply (Hsome "repoDir"%string (JStr d)); [reflexivity | discriminate]);
      assert (Hne : truthy (JStr d) = true)
        by (apply truthy_string; intros E; apply Hdir; now rewrite E)
  end.
  assert (Hreply : lookup_field "replyTo" fields = Some (JStr ("cli." ++ requestId)))
    by (apply (Hsome "replyTo"%string (JStr (Cli.moduleIdent ++ "." ++ requestId)));
        [reflexivity | discriminate]).
  assert (Haction : lookup_field "action" fields = None) by (apply Hnone; reflexivity).
  exists fields, (RepoManager.withForce fields false).
  split; [exact Hw |].
  assert (Hprop : forall k, k <> "force"%string ->
                    prop (JObj (RepoManager.withForce fields false)) k = prop (JObj fields) k).
  { intros k Hk. unfold prop, RepoManager.withForce. cbn [get].
    now rewrite lookup_set_field_ne by exact Hk. }
  assert (Hkeep : RepoManager.withBranch (RepoManager.withForce fields false) =
                  RepoManager.withForce fields false).
  { unfold RepoManager.withBranch. rewrite Hprop by discriminate.
    unfold prop. cbn [get]. rewrite Hbranch. cbn [default from_option id].
    now rewrite truthy_wire, js_or_truthy. }
  split.
  { unfold RepoManager.accepted. rewrite Hforce.
    rewrite Hprop by discriminate. unfold prop at 1. cbn [get]. rewrite Hurl.
    cbn [default from_option id]. rewrite truthy_wire, Hu. cbn [negb].
    rewrite Hkeep, Hprop by discriminate. unfold prop. cbn [get]. rewrite Hrepo.
    cbn [default from_option id]. rewrite Hne. reflexivity. }
  split; [reflexivity |].
  split; [unfold RepoManager.withForce; now rewrite lookup_set_field_ne by discriminate |].
  unfold RepoManager.withForce. rewrite !lookup_set_field_ne by discriminate.
  rewrite Haction, Hreply, Hrepo. repeat split; reflexivity.
Qed.

End CliConfig.

Lemma cli_config_request_names_no_action_witness :
  exists request fields rq,
    Cli.downloadGameConfig (join_with "/") "r1" argv_config = Ret request /\
    wire (JObj request) = JObj fields /\
    RepoManager.accepted fields = Some rq /\
    lookup_field "action" rq = None /\
    prop (JObj rq) "replyTo" = JStr "cli.r1" /\
    prop (JObj rq) "repoDir" = JStr "/opt/gsm/config/my-casual-server/base".
Proof.
  destruct (cli_config_request_names_no_action (join_with "/") "r1" argv_config _ eq_refl)
    as (fields & rq & Hw & Hacc & _ & Hact & _ & _ & Hreply & Hdir).
  - discriminate.
  - eexists _, fields, rq. split; [reflexivity |].
    split; [exact Hw |]. split; [exact Hacc |]. split; [exact Hact |].
    split; [exact Hreply | exact Hdir].
Defined.

(** ** The log prefix *)

Lemma length_spaces (n : nat) : String.length (Log.spaces n) = n.
Proof. induction n as [| n IH]; [reflexivity |]. cbn. now f_equal. Qed.

Lemma length_string_app (a b : string) :
  String.length (a ++ b) = (String.length a + String.length b)%nat.
Proof.
  induction a as [| c a IH]; [reflexivity |].
  change (String c a ++ b)%string with (String c (a ++ b))%string.
  cbn [String.length Nat.add]. now f_equal.
Qed.

Lemma length_slice0 (n : nat) (s : string) :
  String.length (Log.slice0 n s) = Nat.min n (String.length s).
Proof.
  unfold Log.slice0. revert n. induction s as [| c s IH]; intros n.
  - destruct n; reflexivity.
  - destruct n; [reflexivity |]. cbn. f_equal. apply IH.
Qed.

Lemma slice0_all (n : nat) (s : string) :
  (String.length s <= n)%nat -> Log.slice0 n s = s.
Proof.
  unfold Log.slice0. revert n. induction s as [| c s IH]; intros n Hn.
  - destruct n; reflexivity.
  - destruct n; cbn in *; [lia |]. f_equal. apply IH. lia.
Qed.

Lemma string_app_empty (t : string) : (t ++ "")%string = t.
Proof.
  induction t as [| c t IH]; [reflexivity |].
  change (String c t ++ "")%string with (String c (t ++ ""))%string. now f_equal.
Qed.

(** X30. For a level of the colour table, the prefix of a log line ends
    with the column of the logger name, which is always sixteen units
    wide: a shorter name is followed by spaces, a longer one is cut after
    its first sixteen units. *)
Theorem log_name_column (gray : string -> string) (colors : string -> option (string -> string))
    (paint : string -> string) (level name timestamp : string) :
  colors level = Some paint ->
  exists column,
    Log.format gray colors level name timestamp =
      Ret (gray timestamp ++ " " ++ paint (Log.slice0 2 level) ++ " " ++ column)%string /\
    String.length column = 16%nat /\
    ((String.length name <= 16)%nat ->
     column = (name ++ Log.spaces (16 - String.length name))%string) /\
    ((16 <= String.length name)%nat -> column = Log.slice0 16 name).
Proof.
  intros Hc. unfold Log.format. rewrite Hc.
  exists (Log.padEnd 16 (Log.slice0 16 name)). split; [reflexivity |].
  unfold Log.padEnd. split; [| split].
  - rewrite length_string_app, length_spaces, length_slice0. lia.
  - intros Hle. now rewrite slice0_all by exact Hle.
  - intros Hge. rewrite length_slice0.
    replace (16 - Nat.min 16 (String.length name))%nat with 0%nat by lia.
    cbn [Log.spaces]. apply string_app_empty.
Qed.

Lemma log_name_column_witness :
  exists column,
    Log.format (fun t => t) (fun _ => Some (fun t => t)) "info" "bin/downloadManager.mjs"
      "12:00:00" = Ret ("12:00:00 in " ++ column)%string /\
    String.length column = 16%nat /\
    column = "bin/downloadMana"%string.
Proof.
  destruct (log_name_column (fun t => t) (fun _ => Some (fun t => t)) (fun t => t)
              "info" "bin/downloadManager.mjs" "12:00:00" eq_refl)
    as (column & Hf & Hlen & _ & Hcut).
  exists column. split; [exact Hf |]. split; [exact Hlen |].
  apply Hcut. simpl. lia.
Defined.
